(** * AstroVision-Andromator: the step-execution and auto-navigation loop

    A shallow embedding of the orchestrator ([vision_agent.py]), the device
    dispatcher ([device_controller.py]), the vision client
    ([screen_parser.py]) and the counters ([stats_tracker.py]), followed by
    the properties established about them.

    Conventions of the embedding.
    - A Python [str] is a [string] read as the sequence of its code points,
      each below 256.
    - A Python [int] is a [Z].  A Python [float] is a binary64 value: a
      finite one, kept as the rational it denotes, or a non-finite one (NaN,
      Infinity).  Where the program computes with floats, in the pixel
      conversion and in the duration of a wait, the exact result is rounded
      to the nearest binary64 value, as [Binary64.round] does.  A reading of
      the clock is kept as the rational it denotes.
    - The Android driver, the HTTP endpoint, the image library and the clock
      are an environment [Env] acting on an abstract world.  Every call that
      can raise returns a flag or an [option] saying whether it did.
    - [print] is not modelled. *)

From Stdlib Require Import String Ascii List Bool ZArith NArith QArith Qround Lia.
From Stdlib Require Decimal DecimalFacts DecimalString DecimalNat.
From Stdlib Require SpecFloat.
Import ListNotations.

Local Open Scope string_scope.
Local Open Scope list_scope.
Local Open Scope Z_scope.

(** ** Python string operations *)

Module Py.

Definition code (c : ascii) : N := N_of_ascii c.

Definition between (lo hi n : N) : bool := ((lo <=? n) && (n <=? hi))%N.

(** [str.lower] on one code point: A-Z, and the Latin-1 capitals
    U+00C0..U+00DE other than the multiplication sign U+00D7. *)
Definition lower_char (c : ascii) : ascii :=
  let n := code c in
  if between 65 90 n || (between 192 222 n && negb (n =? 215)%N)
  then ascii_of_N (n + 32)
  else c.

Fixpoint lower (s : string) : string :=
  match s with
  | EmptyString => EmptyString
  | String c r => String (lower_char c) (lower r)
  end.

(** [str.isspace] on one code point. *)
Definition is_space (c : ascii) : bool :=
  let n := code c in
  between 9 13 n || between 28 32 n || (n =? 133)%N || (n =? 160)%N.

(** [c.isdigit()] restricted to the decimal digits the pattern [\d] accepts
    below 256. *)
Definition is_digit (c : ascii) : bool := between 48 57 (code c).

Fixpoint startswith (p s : string) : bool :=
  match p, s with
  | EmptyString, _ => true
  | String a p', String b s' => Ascii.eqb a b && startswith p' s'
  | String _ _, EmptyString => false
  end.

(** [sub in s]. *)
Fixpoint contains (sub s : string) : bool :=
  startswith sub s ||
  match s with
  | EmptyString => false
  | String _ r => contains sub r
  end.

(** [s.find(sub)]: index of the first occurrence. *)
Fixpoint find (sub s : string) : option nat :=
  if startswith sub s then Some O
  else match s with
       | EmptyString => None
       | String _ r => option_map S (find sub r)
       end.

(** [s[n:]]. *)
Fixpoint drop (n : nat) (s : string) : string :=
  match n, s with
  | O, _ => s
  | S k, String _ r => drop k r
  | S _, EmptyString => EmptyString
  end.

Fixpoint lstrip (s : string) : string :=
  match s with
  | EmptyString => EmptyString
  | String c r => if is_space c then lstrip r else s
  end.

Fixpoint rstrip (s : string) : string :=
  match s with
  | EmptyString => EmptyString
  | String c r =>
      match rstrip r with
      | EmptyString => if is_space c then EmptyString else String c EmptyString
      | r' => String c r'
      end
  end.

Definition strip (s : string) : string := rstrip (lstrip s).

(** [s.replace(old, new)] for a non-empty [old]: occurrences are taken
    left to right and do not overlap.  [skip] counts the characters of an
    occurrence still to be passed over. *)
Fixpoint replace_from (old new : string) (skip : nat) (s : string) : string :=
  match s with
  | EmptyString => EmptyString
  | String c r =>
      match skip with
      | S k => replace_from old new k r
      | O =>
          if startswith old s
          then new ++ replace_from old new (Nat.pred (String.length old)) r
          else String c (replace_from old new O r)
      end
  end.

Definition replace (old new s : string) : string := replace_from old new O s.

(** Truth value of a string: empty is false. *)
Definition truthy (s : string) : bool :=
  match s with EmptyString => false | String _ _ => true end.

(** [any(cmd in s for cmd in cmds)]. *)
Definition any_in (cmds : list string) (s : string) : bool :=
  existsb (fun cmd => contains cmd s) cmds.

(** Longest prefix of characters satisfying [p], and the rest. *)
Fixpoint span (p : ascii -> bool) (s : string) : string * string :=
  match s with
  | EmptyString => (EmptyString, EmptyString)
  | String c r =>
      if p c then let (a, b) := span p r in (String c a, b)
      else (EmptyString, s)
  end.

(** Value of a string of decimal digits. *)
Definition digit_val (c : ascii) : Z := Z.of_N (code c) - 48.

Fixpoint digits_from (acc : Z) (s : string) : Z :=
  match s with
  | EmptyString => acc
  | String c r => digits_from (10 * acc + digit_val c) r
  end.

Definition int_of_digits (s : string) : Z := digits_from 0 s.

End Py.

(** ** stats_tracker.py *)

Record StatsTracker := mkStats {
  moondream_query_calls : Z;
  moondream_point_calls : Z;
  moondream_reasoning_calls : Z;
  actions_performed : Z;
  successful_actions : Z;
  failed_actions : Z;
  auto_navigations : Z;
  moondream_detections : Z;
  uiautomator_detections : Z;
  start_time : option Q;
  end_time : option Q
}.

Module Stats.

(** [StatsTracker.__init__]. *)
Definition init : StatsTracker :=
  mkStats 0 0 0 0 0 0 0 0 0 None None.

Definition start_test (now : Q) (s : StatsTracker) : StatsTracker :=
  mkStats (moondream_query_calls s) (moondream_point_calls s)
          (moondream_reasoning_calls s) (actions_performed s)
          (successful_actions s) (failed_actions s) (auto_navigations s)
          (moondream_detections s) (uiautomator_detections s)
          (Some now) (end_time s).

Definition end_test (now : Q) (s : StatsTracker) : StatsTracker :=
  mkStats (moondream_query_calls s) (moondream_point_calls s)
          (moondream_reasoning_calls s) (actions_performed s)
          (successful_actions s) (failed_actions s) (auto_navigations s)
          (moondream_detections s) (uiautomator_detections s)
          (start_time s) (Some now).

Definition record_query_call (s : StatsTracker) : StatsTracker :=
  mkStats (moondream_query_calls s + 1) (moondream_point_calls s)
          (moondream_reasoning_calls s) (actions_performed s)
          (successful_actions s) (failed_actions s) (auto_navigations s)
          (moondream_detections s) (uiautomator_detections s)
          (start_time s) (end_time s).

Definition record_point_call (s : StatsTracker) : StatsTracker :=
  mkStats (moondream_query_calls s) (moondream_point_calls s + 1)
          (moondream_reasoning_calls s) (actions_performed s)
          (successful_actions s) (failed_actions s) (auto_navigations s)
          (moondream_detections s) (uiautomator_detections s)
          (start_time s) (end_time s).

Definition record_reasoning_call (s : StatsTracker) : StatsTracker :=
  mkStats (moondream_query_calls s) (moondream_point_calls s)
          (moondream_reasoning_calls s + 1) (actions_performed s)
          (successful_actions s) (failed_actions s) (auto_navigations s)
          (moondream_detections s) (uiautomator_detections s)
          (start_time s) (end_time s).

(** [actions_performed += 1], then one of the two outcome counters. *)
Definition record_action (success : bool) (s : StatsTracker) : StatsTracker :=
  mkStats (moondream_query_calls s) (moondream_point_calls s)
          (moondream_reasoning_calls s) (actions_performed s + 1)
          (if success then successful_actions s + 1 else successful_actions s)
          (if success then failed_actions s else failed_actions s + 1)
          (auto_navigations s)
          (moondream_detections s) (uiautomator_detections s)
          (start_time s) (end_time s).

Definition record_navigation (s : StatsTracker) : StatsTracker :=
  mkStats (moondream_query_calls s) (moondream_point_calls s)
          (moondream_reasoning_calls s) (actions_performed s)
          (successful_actions s) (failed_actions s) (auto_navigations s + 1)
          (moondream_detections s) (uiautomator_detections s)
          (start_time s) (end_time s).

Definition record_detection (source : string) (s : StatsTracker) : StatsTracker :=
  if String.eqb source "moondream" then
    mkStats (moondream_query_calls s) (moondream_point_calls s)
            (moondream_reasoning_calls s) (actions_performed s)
            (successful_actions s) (failed_actions s) (auto_navigations s)
            (moondream_detections s + 1) (uiautomator_detections s)
            (start_time s) (end_time s)
  else if String.eqb source "uiautomator" then
    mkStats (moondream_query_calls s) (moondream_point_calls s)
            (moondream_reasoning_calls s) (actions_performed s)
            (successful_actions s) (failed_actions s) (auto_navigations s)
            (moondream_detections s) (uiautomator_detections s + 1)
            (start_time s) (end_time s)
  else s.

Definition get_total_api_calls (s : StatsTracker) : Z :=
  moondream_query_calls s + moondream_point_calls s.

Definition get_total_detections (s : StatsTracker) : Z :=
  moondream_detections s + uiautomator_detections s.

End Stats.

(** The integer entries of the dictionary built by [get_summary].  Its three
    rounded floating-point entries (success rate, detection percentage,
    duration) are left out. *)
Record Summary := mkSummary {
  actions_total : Z;
  actions_successful : Z;
  actions_failed : Z;
  api_moondream_query : Z;
  api_moondream_point : Z;
  api_moondream_reasoning : Z;
  api_total : Z;
  detection_moondream : Z;
  detection_uiautomator : Z;
  detection_total : Z;
  navigation_auto_navigations : Z
}.

Definition get_summary (s : StatsTracker) : Summary :=
  mkSummary (actions_performed s) (successful_actions s) (failed_actions s)
            (moondream_query_calls s) (moondream_point_calls s)
            (moondream_reasoning_calls s) (Stats.get_total_api_calls s)
            (moondream_detections s) (uiautomator_detections s)
            (Stats.get_total_detections s)
            (auto_navigations s).

(** ** The environment and the state of a run *)

(** A Python [float], as the vision service sends it for a coordinate and
    as [float(...)] builds it: the finite binary64 value that denotes the
    rational [q], or a non-finite value. *)
Inductive number :=
| Num (q : Q)
| NonFinite.

(** ** Binary64 arithmetic

    The finite binary64 values are 0 and the m * 2^e with |m| < 2^53 and
    -1074 <= e <= 971.  A conversion or a product is correctly rounded: it
    is the binary64 value nearest to the exact result, the one with the
    even significand when two are as near, and a non-finite value when that
    reaches 2^1024. *)

Module Binary64.

(** floor(log2(n/d)). *)
Definition ilog2 (n d : positive) : Z :=
  if Z.pos d <=? Z.pos n then Z.log2 (Z.pos n / Z.pos d)
  else - Z.log2_up ((Z.pos d + Z.pos n - 1) / Z.pos n).

(** The exponent e of the spacing 2^e of the binary64 values around n/d:
    53 significant bits, and no spacing below 2^-1074. *)
Definition ulp_exponent (n d : positive) : Z := Z.max (-1074) (ilog2 n d - 52).

(** The integer nearest to n/d, the even one of the two when n/d lies
    halfway. *)
Definition nearest_even (n d : Z) : Z :=
  let f := n / d in
  match 2 * (n mod d) ?= d with
  | Lt => f
  | Gt => f + 1
  | Eq => if Z.even f then f else f + 1
  end.

(** n/d rounded to m * 2^e, with e the exponent above and m the integer
    nearest to (n/d) / 2^e. *)
Definition round_positive (n d : positive) : number :=
  let e := ulp_exponent n d in
  if 0 <? e then
    let m := nearest_even (Z.pos n) (Z.pos d * 2 ^ e) in
    if m * 2 ^ e <? 2 ^ 1024 then Num (inject_Z (m * 2 ^ e)) else NonFinite
  else
    let m := nearest_even (Z.pos n * 2 ^ (- e)) (Z.pos d) in
    Num (Qred (m # Z.to_pos (2 ^ (- e)))).

Definition negate (x : number) : number :=
  match x with
  | Num q => Num (- q)
  | NonFinite => NonFinite
  end.

(** The binary64 value of the exact result [q]. *)
Definition round (q : Q) : number :=
  match Qnum q with
  | 0 => Num 0
  | Z.pos n => round_positive n (Qden q)
  | Z.neg n => negate (round_positive n (Qden q))
  end.

(** [q] is the value of a finite binary64 float. *)
Definition representable (q : Q) : Prop := round q = Num (Qred q).

(** The conversion of an [int] to a [float], as [float(n)] and the mixed
    product [x * n] make it: [None] when it raises [OverflowError]. *)
Definition of_int (n : Z) : option number :=
  match round (inject_Z n) with
  | Num q => Some (Num q)
  | NonFinite => None
  end.

(** [float(s)] for a string of decimal digits of value [n]: an infinity
    where the conversion of an [int] would raise. *)
Definition of_digits (n : Z) : number := round (inject_Z n).

(** The product of two floats. *)
Definition mul (a b : number) : number :=
  match a, b with
  | Num x, Num y => round (x * y)
  | _, _ => NonFinite
  end.

End Binary64.

(** The dictionary [{"x": x, "y": y}] returned by [ScreenParser.locate]. *)
Record Point := mkPoint { px : number; py : number }.

(** Calls observed during a run, newest first in a trace.  The first three
    mark the entry of a method of the program; the others are calls into
    the driver, the clock, the image library and the HTTP endpoints. *)
Inductive Event :=
| EvExecuteStep (step : string)
| EvLocate (image_path description : string)
| EvPerformAction (step : string) (pixel_coords : option (Z * Z))
| EvScreenshot (save_path : string)
| EvClick (x y : Z)
| EvSendKeys (text : string)
| EvSwipe (fx fy tx ty : Z)
| EvPress (key : string)
| EvSleep (seconds : number)
| EvTime
| EvOptimizeImage (image_path : string)
| EvPostPoint (description : string)
| EvPostQuery (question : string).

(** The collaborators outside the program.  A [bool] result is [false] and
    an [option] result is [None] when the call raised. *)
Record Env (W : Type) := mkEnv {
  (** [self.device.screenshot()] followed by [screenshot.save(path)] *)
  drv_screenshot : string -> W -> bool * W;
  (** [self.device.click(x, y)] *)
  drv_click : Z -> Z -> W -> bool * W;
  (** [self.device.send_keys(text)] *)
  drv_send_keys : string -> W -> bool * W;
  (** [self.device.swipe(fx, fy, tx, ty, 0.3)] *)
  drv_swipe : Z -> Z -> Z -> Z -> W -> bool * W;
  (** [self.device.press(key)] *)
  drv_press : string -> W -> bool * W;
  (** [time.sleep(seconds)] *)
  time_sleep : number -> W -> bool * W;
  (** [time.time()] *)
  time_time : W -> Q * W;
  (** [_optimize_image(image_path)] and the construction of the request *)
  optimize_image : string -> W -> option string * W;
  (** POST to the point endpoint and decoding of the reply: [Some None]
      when the reply holds no two-element point, [Some (Some p)] when it
      does, [None] when anything on the way raised. *)
  post_point : string -> string -> W -> option (option Point) * W;
  (** POST to the query endpoint; the answer defaults to the empty string. *)
  post_query : string -> string -> W -> option string * W
}.

Arguments drv_screenshot {W}.
Arguments drv_click {W}.
Arguments drv_send_keys {W}.
Arguments drv_swipe {W}.
Arguments drv_press {W}.
Arguments time_sleep {W}.
Arguments time_time {W}.
Arguments optimize_image {W}.
Arguments post_point {W}.
Arguments post_query {W}.

(** The state threaded through a run: the world, the tracker shared by the
    agent and the vision client, and two history variables that no modelled
    function reads: every earlier value of the tracker and the trace of
    calls, both newest first. *)
Record State (W : Type) := mkState {
  world : W;
  stats : StatsTracker;
  past : list StatsTracker;
  trace : list Event
}.

Arguments mkState {W}.
Arguments world {W}.
Arguments stats {W}.
Arguments past {W}.
Arguments trace {W}.

(** A computation over the state of a run. *)
Definition M (W A : Type) : Type := State W -> A * State W.

Definition ret {W A} (a : A) : M W A := fun st => (a, st).

Definition bind {W A B} (m : M W A) (k : A -> M W B) : M W B :=
  fun st => let (a, st') := m st in k a st'.

Declare Scope run_scope.
Delimit Scope run_scope with run.

Notation "x <- m ;; k" := (bind m (fun x => k))
  (at level 100, m at next level, right associativity) : run_scope.
Notation "m ;; k" := (bind m (fun _ => k))
  (at level 100, right associativity) : run_scope.

Local Open Scope run_scope.

(** Record a call in the trace. *)
Definition emit {W} (e : Event) : M W unit :=
  fun st => (tt, mkState (world st) (stats st) (past st) (e :: trace st)).

(** Call into the environment. *)
Definition ask {W A} (op : W -> A * W) : M W A :=
  fun st => let (a, w) := op (world st) in
            (a, mkState w (stats st) (past st) (trace st)).

(** Call a mutating method of the tracker. *)
Definition tracker {W} (f : StatsTracker -> StatsTracker) : M W unit :=
  fun st => (tt, mkState (world st) (f (stats st)) (stats st :: past st) (trace st)).

(** Read the tracker. *)
Definition read_stats {W} : M W StatsTracker :=
  fun st => (stats st, st).

(** [time.sleep] with a literal argument (0.5 or 1 second), which does not
    raise. *)
Definition pause {W} (E : Env W) (seconds : Q) : M W unit :=
  emit (EvSleep (Num seconds)) ;;
  _ <- ask (time_sleep E (Num seconds)) ;;
  ret tt.

(** ** device_controller.py *)

Record DeviceController := mkDevice {
  screen_width : Z;
  screen_height : Z
}.

(** [int(q)] for a finite float of value [q]: truncation toward zero. *)
Definition py_int (q : Q) : Z := Z.quot (Qnum q) (Z.pos (Qden q)).

(** [int(x * n)] for a float [x] and an [int] [n]: [n] is converted to a
    float, the product of the two floats is rounded, and [int] truncates
    it.  [None] when the conversion of [n] or [int] on a non-finite product
    raises. *)
Definition scaled (x : number) (n : Z) : option Z :=
  match Binary64.of_int n with
  | None => None
  | Some n_float =>
      match Binary64.mul x n_float with
      | Num product => Some (py_int product)
      | NonFinite => None
      end
  end.

(** [convert_normalized_to_pixels]; [None] when it raises. *)
Definition convert_normalized_to_pixels (dc : DeviceController) (x y : number)
  : option (Z * Z) :=
  match scaled x (screen_width dc) with
  | None => None
  | Some pixel_x =>
      match scaled y (screen_height dc) with
      | None => None
      | Some pixel_y => Some (pixel_x, pixel_y)
      end
  end.

(** [_extract_text]: the first keyword of the list that occurs decides. *)
Fixpoint extract_text_from (keywords : list string) (step step_lower : string)
  : option string :=
  match keywords with
  | [] => None
  | keyword :: rest =>
      if Py.contains keyword step_lower then
        match Py.find keyword step_lower with
        | Some i =>
            let idx := (i + String.length keyword)%nat in
            let text := Py.strip (Py.drop idx step) in
            Some (Py.strip (Py.replace " and send" EmptyString
                             (Py.replace " and press enter" EmptyString text)))
        | None => None
        end
      else extract_text_from rest step step_lower
  end.

Definition _extract_text (step : string) : option string :=
  let step_lower := Py.lower step in
  let keywords := ["type "; "input "; "enter "; "text "] in
  extract_text_from keywords step step_lower.

(** The pattern [wait\s+(\d+)] tried at the start of [s]; the result is
    group 1.  Both repetitions are greedy and the two classes are disjoint,
    so no backtracking can succeed where the greedy choice fails. *)
Definition match_wait_here (s : string) : option string :=
  if Py.startswith "wait" s then
    let (spaces, r) := Py.span Py.is_space (Py.drop 4 s) in
    let (digits, _) := Py.span Py.is_digit r in
    if Py.truthy spaces && Py.truthy digits then Some digits else None
  else None.

(** [re.search]: leftmost match. *)
Fixpoint search_wait (s : string) : option string :=
  match match_wait_here s with
  | Some digits => Some digits
  | None =>
      match s with
      | EmptyString => None
      | String _ r => search_wait r
      end
  end.

(** [float(match.group(1))] is the binary64 value nearest to the number the
    digits spell: that number itself up to 2^53, a rounded one above, and
    an infinity from 2^1024 - 2^970 on. *)
Definition _extract_wait_time (step : string) : number :=
  match search_wait (Py.lower step) with
  | Some digits => Binary64.of_digits (Py.int_of_digits digits)
  | None => Num 2
  end.

Section Device.

Context {W : Type} (E : Env W).

Definition capture_screen (save_path : string) : M W bool :=
  emit (EvScreenshot save_path) ;;
  ask (drv_screenshot E save_path).

Definition click (x y : Z) : M W bool :=
  emit (EvClick x y) ;;
  ask (drv_click E x y).

Definition type_text (text : string) : M W bool :=
  emit (EvSendKeys text) ;;
  ask (drv_send_keys E text).

Definition swipe_call (fx fy tx ty : Z) : M W bool :=
  emit (EvSwipe fx fy tx ty) ;;
  ask (drv_swipe E fx fy tx ty).

Definition scroll (dc : DeviceController) (direction : string) : M W bool :=
  let w := screen_width dc in
  let h := screen_height dc in
  if String.eqb direction "down" then
    swipe_call (w / 2) (h * 2 / 3) (w / 2) (h / 3)
  else if String.eqb direction "up" then
    swipe_call (w / 2) (h / 3) (w / 2) (h * 2 / 3)
  else if String.eqb direction "left" then
    swipe_call (w * 2 / 3) (h / 2) (w / 3) (h / 2)
  else if String.eqb direction "right" then
    swipe_call (w / 3) (h / 2) (w * 2 / 3) (h / 2)
  else ret true.

Definition press_key (key : string) : M W bool :=
  emit (EvPress key) ;;
  ask (drv_press E key).

(** [wait]: the flag is [false] when [time.sleep] raised, as it does for
    an infinity. *)
Definition wait (seconds : number) : M W bool :=
  emit (EvSleep seconds) ;;
  ask (time_sleep E seconds).

(** The body of the [try] of [perform_action]. *)
Definition dispatch (dc : DeviceController) (step : string)
           (pixel_coords : option (Z * Z)) : M W bool :=
  let step_lower := Py.lower step in
  if Py.contains "type" step_lower || Py.contains "input" step_lower
     || Py.contains "enter" step_lower then
    match _extract_text step with
    | Some text => if Py.truthy text then type_text text else ret false
    | None => ret false
    end
  else if Py.contains "scroll" step_lower || Py.contains "swipe" step_lower then
    let direction :=
      if Py.contains "up" step_lower then "up"
      else if Py.contains "left" step_lower then "left"
      else if Py.contains "right" step_lower then "right"
      else "down" in
    scroll dc direction
  else if Py.contains "press" step_lower || Py.contains "back" step_lower then
    if Py.contains "back" step_lower then press_key "back"
    else if Py.contains "home" step_lower then press_key "home"
    else if Py.contains "enter" step_lower then press_key "enter"
    else ret false
  else if Py.contains "wait" step_lower then
    let seconds := _extract_wait_time step in
    completed <- wait seconds ;;
    if completed then ret true else ret false
  else
    match pixel_coords with
    | Some (x, y) => click x y
    | None => ret false
    end.

Definition perform_action (dc : DeviceController) (step : string)
           (pixel_coords : option (Z * Z)) : M W bool :=
  emit (EvPerformAction step pixel_coords) ;;
  dispatch dc step pixel_coords.

End Device.

(** ** screen_parser.py *)

Definition nl : string := String (ascii_of_nat 10) EmptyString.
Definition dq : string := String (ascii_of_nat 34) EmptyString.
Definition indent : string := "        ".

(** The question template of [get_navigation_suggestion]. *)
Definition navigation_question (goal : string) : string :=
  nl ++ indent ++ "I'm trying to find '" ++ goal ++ "' but it's not visible." ++ nl
     ++ indent ++ nl
     ++ indent ++ "Looking at this screen, what single action should I take?" ++ nl
     ++ indent ++ "Respond with ONLY ONE action from these options:" ++ nl
     ++ indent ++ "- " ++ dq ++ "scroll down" ++ dq ++ nl
     ++ indent ++ "- " ++ dq ++ "scroll up" ++ dq ++ nl
     ++ indent ++ "- " ++ dq ++ "press back" ++ dq ++ nl
     ++ indent ++ "- " ++ dq ++ "click [specific element name]" ++ dq ++ nl
     ++ indent ++ "- " ++ dq ++ "not possible" ++ dq ++ nl
     ++ indent ++ nl
     ++ indent ++ "Answer with just the action, nothing else." ++ nl
     ++ indent.

Section Vision.

Context {W : Type} (E : Env W).

(** The body of the [try] of [query]: [None] when it raised. *)
Definition query_attempt (image_path question : string) : M W (option string) :=
  emit (EvOptimizeImage image_path) ;;
  encoded <- ask (optimize_image E image_path) ;;
  match encoded with
  | None => ret None
  | Some encoded_image =>
      tracker Stats.record_query_call ;;
      emit (EvPostQuery question) ;;
      ask (post_query E encoded_image question)
  end.

(** [query] from attempt number [retry]; [fuel] bounds the recursive calls
    and [query] below supplies as many as the test [retry < 3] allows. *)
Fixpoint query_from (fuel : nat) (image_path question : string) (retry : Z)
  : M W (option string) :=
  r <- query_attempt image_path question ;;
  match r with
  | Some answer => ret (Some answer)
  | None =>
      if retry <? 3 then
        pause E 1 ;;
        match fuel with
        | S f => query_from f image_path question (retry + 1)
        | O => ret None
        end
      else ret None
  end.

(** A call [query(image_path, question)], with [retry] at its default 1:
    two recursive calls at most. *)
Definition query (image_path question : string) : M W (option string) :=
  query_from 2 image_path question 1.

(** The body of the [try] of [locate]: [None] when it raised. *)
Definition locate_attempt (image_path element_description : string)
  : M W (option (option Point)) :=
  emit (EvOptimizeImage image_path) ;;
  encoded <- ask (optimize_image E image_path) ;;
  match encoded with
  | None => ret None
  | Some encoded_image =>
      tracker Stats.record_point_call ;;
      tracker (Stats.record_detection "moondream") ;;
      emit (EvPostPoint element_description) ;;
      ask (post_point E encoded_image element_description)
  end.

Fixpoint locate_from (fuel : nat) (image_path element_description : string)
         (retry : Z) : M W (option Point) :=
  r <- locate_attempt image_path element_description ;;
  match r with
  | Some found => ret found
  | None =>
      if retry <? 3 then
        pause E 1 ;;
        match fuel with
        | S f => locate_from f image_path element_description (retry + 1)
        | O => ret None
        end
      else ret None
  end.

(** A call [locate(image_path, element_description)], with [retry] at its
    default 1. *)
Definition locate (image_path element_description : string) : M W (option Point) :=
  emit (EvLocate image_path element_description) ;;
  locate_from 2 image_path element_description 1.

Definition get_navigation_suggestion (image_path goal : string)
  : M W (option string) :=
  let question := navigation_question goal in
  answer <- query image_path question ;;
  match answer with
  | Some a =>
      if Py.truthy a then
        tracker Stats.record_reasoning_call ;;
        let action := Py.lower (Py.strip a) in
        if Py.any_in ["scroll"; "click"; "press"; "swipe"; "not possible"] action
        then ret (Some action)
        else ret None
      else ret None
  | None => ret None
  end.

(** The question templates of [check_visibility] and [validate_action]. *)
Definition visibility_question (element_name : string) : string :=
  "Is the " ++ element_name ++ " visible on this screen? Answer only 'yes' or 'no'.".

Definition validation_question (expectation : string) : string :=
  "Looking at this screen: " ++ expectation ++ "? Answer only 'yes' or 'no'.".

Definition check_visibility (image_path element_name : string) : M W bool :=
  let question := visibility_question element_name in
  answer <- query image_path question ;;
  match answer with
  | Some a =>
      if Py.truthy a then
        tracker Stats.record_reasoning_call ;;
        ret (Py.contains "yes" (Py.lower a))
      else ret false
  | None => ret false
  end.

Definition validate_action (image_path expectation : string) : M W bool :=
  let question := validation_question expectation in
  answer <- query image_path question ;;
  match answer with
  | Some a =>
      if Py.truthy a then ret (Py.contains "yes" (Py.lower a))
      else ret false
  | None => ret false
  end.

End Vision.

(** ** vision_agent.py *)

Record VisionAgent := mkAgent {
  intelligent_mode : bool;
  screenshot_path : string;
  device : DeviceController
}.

(** The [test_json] dictionary; a missing key is [None]. *)
Record TestCase := mkTest {
  app_name : option string;
  steps : option (list string)
}.

Record Result := mkResult {
  status : string;
  completed_steps : Z;
  total_steps : Z;
  failed_step : option string;
  statistics : Summary
}.

(** [range(n)]. *)
Definition range (n : Z) : list Z := map Z.of_nat (seq 0 (Z.to_nat n)).

Section Agent.

Context {W : Type} (E : Env W) (self : VisionAgent).

(** [self.stats.start_test()] and [self.stats.end_test()], which read the
    clock. *)
Definition start_test : M W unit :=
  emit EvTime ;;
  now <- ask (time_time E) ;;
  tracker (Stats.start_test now).

Definition end_test : M W unit :=
  emit EvTime ;;
  now <- ask (time_time E) ;;
  tracker (Stats.end_test now).

Definition _basic_locate (step : string) : M W (option Point) :=
  locate E (screenshot_path self) step.

(** The navigation branch of [_intelligent_locate]: count it, dispatch the
    suggested action and, when it succeeded, let the screen settle and
    capture it again. *)
Definition navigate (action : string) : M W unit :=
  tracker Stats.record_navigation ;;
  executed <- perform_action E (device self) action None ;;
  if executed then
    pause E 1 ;;
    _ <- capture_screen E (screenshot_path self) ;;
    ret tt
  else ret tt.

(** The [for] loop of [_intelligent_locate] over the attempts still to
    come. *)
Fixpoint locate_loop (step : string) (max_retries : Z) (attempts : list Z)
  : M W (option Point) :=
  match attempts with
  | [] => ret None
  | attempt :: rest =>
      coords <- locate E (screenshot_path self) step ;;
      match coords with
      | Some c => ret (Some c)
      | None =>
          if attempt <? max_retries - 1 then
            action <- get_navigation_suggestion E (screenshot_path self) step ;;
            match action with
            | Some a =>
                if Py.truthy a && negb (Py.contains "not possible" a) then
                  navigate a ;;
                  locate_loop step max_retries rest
                else ret None
            | None => ret None
            end
          else locate_loop step max_retries rest
      end
  end.

Definition _intelligent_locate (step : string) (max_retries : Z)
  : M W (option Point) :=
  locate_loop step max_retries (range max_retries).

(** Steps 3 and 4 of [_execute_step]; a conversion that raises lands in
    the [except] clause. *)
Definition act_and_record (step : string) (coords : option Point) : M W bool :=
  let dispatch pixel_coords :=
    success <- perform_action E (device self) step pixel_coords ;;
    tracker (Stats.record_action success) ;;
    ret success in
  match coords with
  | None => dispatch None
  | Some c =>
      match convert_normalized_to_pixels (device self) (px c) (py c) with
      | Some pixel_coords => dispatch (Some pixel_coords)
      | None => tracker (Stats.record_action false) ;; ret false
      end
  end.

(** Steps 2 to 4 of [_execute_step], once the screen is captured. *)
Definition locate_then_act (step : string) : M W bool :=
  let step_lower := Py.lower step in
  if Py.any_in ["scroll"; "swipe"; "back"; "home"; "wait"] step_lower then
    act_and_record step None
  else
    coords <- (if intelligent_mode self
               then _intelligent_locate step 3
               else _basic_locate step) ;;
    match coords with
    | None =>
        if negb (Py.contains "type" step_lower) then
          tracker (Stats.record_action false) ;;
          ret false
        else act_and_record step None
    | Some c => act_and_record step (Some c)
    end.

(** The body of the [try] of [_execute_step]. *)
Definition execute_body (step : string) : M W bool :=
  captured <- capture_screen E (screenshot_path self) ;;
  if negb captured then ret false
  else locate_then_act step.

Definition _execute_step (step : string) : M W bool :=
  emit (EvExecuteStep step) ;;
  execute_body step.

(** The [for] loop of [run_test_case]: the steps completed and the step
    that failed, if one did. *)
Fixpoint steps_loop (remaining : list string) (completed : Z)
  : M W (Z * option string) :=
  match remaining with
  | [] => ret (completed, None)
  | step :: rest =>
      success <- _execute_step step ;;
      if success then
        pause E (1 # 2) ;;
        steps_loop rest (completed + 1)
      else ret (completed, Some step)
  end.

Definition run_test_case (test_json : TestCase) : M W Result :=
  let all_steps := match steps test_json with Some l => l | None => [] end in
  start_test ;;
  outcome <- steps_loop all_steps 0 ;;
  end_test ;;
  let (completed, failed) := outcome in
  let total := Z.of_nat (List.length all_steps) in
  let verdict := if completed =? total then "success" else "failed" in
  current <- read_stats ;;
  ret (mkResult verdict completed total failed (get_summary current)).

(** The helper methods of the agent; each captures the screen first and
    does not look at whether the capture succeeded. *)
Definition get_current_screen : M W string :=
  _ <- capture_screen E (screenshot_path self) ;;
  ret (screenshot_path self).

Definition query_screen (question : string) : M W (option string) :=
  _ <- capture_screen E (screenshot_path self) ;;
  query E (screenshot_path self) question.

Definition validate_screen (expectation : string) : M W bool :=
  _ <- capture_screen E (screenshot_path self) ;;
  validate_action E (screenshot_path self) expectation.

End Agent.


(** ** Observations on a run *)

Definition is_locate (e : Event) : bool :=
  match e with EvLocate _ _ => true | _ => false end.

(** Number of calls of [ScreenParser.locate] made so far. *)
Definition locate_calls {W} (st : State W) : nat :=
  List.length (filter is_locate (trace st)).

Definition step_of (e : Event) : list string :=
  match e with EvExecuteStep step => [step] | _ => [] end.

(** The steps handed to [_execute_step] so far, oldest first. *)
Definition attempted {W} (st : State W) : list string :=
  rev (flat_map step_of (trace st)).

(** The three action counters of the tracker. *)
Definition action_counters (s : StatsTracker) : Z * Z * Z :=
  (actions_performed s, successful_actions s, failed_actions s).

Definition consistent (s : StatsTracker) : Prop :=
  successful_actions s + failed_actions s = actions_performed s.

Definition counters_le (older newer : StatsTracker) : Prop :=
  actions_performed older <= actions_performed newer /\
  successful_actions older <= successful_actions newer /\
  failed_actions older <= failed_actions newer.

(** A list of tracker values, newest first, never decreasing over time. *)
Fixpoint rising (values : list StatsTracker) : Prop :=
  match values with
  | newer :: (older :: _) as earlier => counters_le older newer /\ rising earlier
  | _ => True
  end.

(** Every value the tracker has held up to now. *)
Definition tracker_values {W} (st : State W) : list StatsTracker :=
  stats st :: past st.

(** [keeps R m]: running [m] from any state leads to a state related to it
    by [R]. *)
Definition keeps {W A} (R : State W -> State W -> Prop) (m : M W A) : Prop :=
  forall st, R st (snd (m st)).

(** Events that are calls out of the program. *)
Definition external (e : Event) : bool :=
  match e with
  | EvExecuteStep _ | EvLocate _ _ | EvPerformAction _ _ => false
  | _ => true
  end.

(** Every driver call and every sleep of a finite duration succeeds. *)
Definition device_succeeds {W} (E : Env W) : Prop :=
  (forall path w, fst (drv_screenshot E path w) = true) /\
  (forall x y w, fst (drv_click E x y w) = true) /\
  (forall text w, fst (drv_send_keys E text w) = true) /\
  (forall fx fy tx ty w, fst (drv_swipe E fx fy tx ty w) = true) /\
  (forall key w, fst (drv_press E key w) = true) /\
  (forall seconds w, fst (time_sleep E (Num seconds) w) = true).

(** A navigation suggestion that ends the search: none at all, or one that
    says the target cannot be reached. *)
Definition gives_up (action : option string) : Prop :=
  match action with
  | None => True
  | Some a => Py.contains "not possible" a = true
  end.

(** The suffix of [range(n)] that starts at [a]. *)
Definition attempts_from (a n : Z) : list Z :=
  map Z.of_nat (seq (Z.to_nat a) (Z.to_nat n - Z.to_nat a)).

Definition is_press_enter (e : Event) : bool :=
  match e with EvPress key => String.eqb key "enter" | _ => false end.

(** Number of times the enter key has been pressed so far. *)
Definition enter_presses {W} (st : State W) : nat :=
  List.length (filter is_press_enter (trace st)).

(** [all_pass E self steps st st']: run in order from [st], every step of
    [steps] makes [_execute_step] return [True], each followed by the pause
    between steps, and the run is then in [st']. *)
Inductive all_pass {W} (E : Env W) (self : VisionAgent)
  : list string -> State W -> State W -> Prop :=
| pass_nil st : all_pass E self [] st st
| pass_cons step rest st st1 st2 :
    _execute_step E self step st = (true, st1) ->
    all_pass E self rest (snd (pause E (1 # 2) st1)) st2 ->
    all_pass E self (step :: rest) st st2.

(** ** Further observations *)

(** The primitives of the device controller behind [perform_action]: tap,
    typing, swipe, key press and wait. *)
Definition is_primitive (e : Event) : bool :=
  match e with
  | EvClick _ _ | EvSendKeys _ | EvSwipe _ _ _ _ | EvPress _ | EvSleep _ => true
  | _ => false
  end.

Definition primitive_calls {W} (st : State W) : nat :=
  List.length (filter is_primitive (trace st)).

(** The words [perform_action] looks for before it falls back to a tap. *)
Definition dispatch_keywords : list string :=
  ["type"; "input"; "enter"; "scroll"; "swipe"; "press"; "back"; "wait"].

(** A pixel of the screen of [dc]. *)
Definition on_screen (dc : DeviceController) (x y : Z) : Prop :=
  0 <= x < screen_width dc /\ 0 <= y < screen_height dc.

Definition swipe_on_screen (dc : DeviceController) (e : Event) : Prop :=
  match e with
  | EvSwipe fx fy tx ty => on_screen dc fx fy /\ on_screen dc tx ty
  | _ => True
  end.

(** The primitive call [perform_action] decides on for a step, if any, as
    the event it leaves in the trace: the decision of the dispatcher without
    its effect.  [dispatch_follows_plan] shows that the dispatcher makes
    exactly this call. *)
Definition plan (dc : DeviceController) (step : string)
           (pixel_coords : option (Z * Z)) : option Event :=
  let step_lower := Py.lower step in
  let w := screen_width dc in
  let h := screen_height dc in
  if Py.contains "type" step_lower || Py.contains "input" step_lower
     || Py.contains "enter" step_lower then
    match _extract_text step with
    | Some text => if Py.truthy text then Some (EvSendKeys text) else None
    | None => None
    end
  else if Py.contains "scroll" step_lower || Py.contains "swipe" step_lower then
    if Py.contains "up" step_lower then
      Some (EvSwipe (w / 2) (h / 3) (w / 2) (h * 2 / 3))
    else if Py.contains "left" step_lower then
      Some (EvSwipe (w * 2 / 3) (h / 2) (w / 3) (h / 2))
    else if Py.contains "right" step_lower then
      Some (EvSwipe (w / 3) (h / 2) (w * 2 / 3) (h / 2))
    else Some (EvSwipe (w / 2) (h * 2 / 3) (w / 2) (h / 3))
  else if Py.contains "press" step_lower || Py.contains "back" step_lower then
    if Py.contains "back" step_lower then Some (EvPress "back")
    else if Py.contains "home" step_lower then Some (EvPress "home")
    else if Py.contains "enter" step_lower then Some (EvPress "enter")
    else None
  else if Py.contains "wait" step_lower then
    Some (EvSleep (_extract_wait_time step))
  else
    match pixel_coords with
    | Some (x, y) => Some (EvClick x y)
    | None => None
    end.

(** The flag and the world after the driver call that leaves [e]. *)
Definition driver_reply {W} (E : Env W) (e : Event) (w : W) : bool * W :=
  match e with
  | EvSendKeys text => drv_send_keys E text w
  | EvSwipe fx fy tx ty => drv_swipe E fx fy tx ty w
  | EvPress key => drv_press E key w
  | EvSleep seconds => time_sleep E seconds w
  | EvClick x y => drv_click E x y w
  | _ => (false, w)
  end.

(** [str(n)] for a natural number: its decimal digits. *)
Definition decimal (n : nat) : string :=
  DecimalString.NilEmpty.string_of_uint (Nat.to_uint n).

(** Every character of [s] satisfies [p]. *)
Fixpoint all_chars (p : ascii -> bool) (s : string) : bool :=
  match s with
  | EmptyString => true
  | String c r => p c && all_chars p r
  end.

(** [s] does not begin with a decimal digit. *)
Definition no_leading_digit (s : string) : Prop :=
  match s with
  | EmptyString => True
  | String c _ => Py.is_digit c = false
  end.

Definition is_optimize (e : Event) : bool :=
  match e with EvOptimizeImage _ => true | _ => false end.

Definition is_post_point (e : Event) : bool :=
  match e with EvPostPoint _ => true | _ => false end.

Definition is_post_query (e : Event) : bool :=
  match e with EvPostQuery _ => true | _ => false end.

Definition is_sleep (e : Event) : bool :=
  match e with EvSleep _ => true | _ => false end.

Definition count_events {W} (p : Event -> bool) (st : State W) : nat :=
  List.length (filter p (trace st)).

(** Images prepared for the vision service, requests sent to its two
    endpoints, and sleeps, so far. *)
Definition image_preparations {W} (st : State W) : nat := count_events is_optimize st.
Definition point_requests {W} (st : State W) : nat := count_events is_post_point st.
Definition query_requests {W} (st : State W) : nat := count_events is_post_query st.
Definition sleeps {W} (st : State W) : nat := count_events is_sleep st.

(** Calls that reach the vision service or prepare an image for it. *)
Definition is_vision (e : Event) : bool :=
  is_optimize e || is_post_point e || is_post_query e.

Definition vision_calls {W} (st : State W) : nat := count_events is_vision st.

(** The three counters of calls to the vision service. *)
Definition api_counters (s : StatsTracker) : Z * Z * Z :=
  (moondream_query_calls s, moondream_point_calls s, moondream_reasoning_calls s).

(** [get_success_rate], over exact rationals. *)
Definition get_success_rate (s : StatsTracker) : Q :=
  if actions_performed s =? 0 then 0%Q
  else ((inject_Z (successful_actions s) / inject_Z (actions_performed s)) * 100)%Q.

(** The list of steps [run_test_case] reads from [test_json]. *)
Definition steps_of (test_json : TestCase) : list string :=
  match steps test_json with Some l => l | None => [] end.

(** Calls of [locate] one step may make: the three attempts of the
    intelligent location, or the single basic one. *)
Definition locate_budget (self : VisionAgent) : nat :=
  if intelligent_mode self then 3%nat else 1%nat.

(** Counters that are consistent and not negative. *)
Definition sane (s : StatsTracker) : Prop :=
  consistent s /\ 0 <= successful_actions s /\ 0 <= failed_actions s.

(** The value of a float of the Standard Library's specification of
    IEEE 754 arithmetic, to compare [Binary64] with it. *)
Definition of_spec (f : SpecFloat.spec_float) : number :=
  match f with
  | SpecFloat.S754_zero _ => Num 0
  | SpecFloat.S754_finite negative m e =>
      let value := if 0 <=? e then inject_Z (Z.pos m * 2 ^ e)
                   else Qred (Z.pos m # Z.to_pos (2 ^ (- e))) in
      Num (if negative then - value else value)
  | _ => NonFinite
  end.

(** The binary64 float m * 2^e of that specification. *)
Definition spec_float64 (m : positive) (e : Z) : SpecFloat.spec_float :=
  SpecFloat.S754_finite false m e.
(** ** Environments with fixed answers *)

(** An environment over a world that counts the calls made into it: the
    driver calls return [device_ok], a screenshot [screenshot_ok], the point
    endpoint [point_reply] and the query endpoint [query_reply]. *)
Definition fixed_env (screenshot_ok device_ok : bool)
           (point_reply : option (option Point)) (query_reply : option string)
  : Env nat :=
  mkEnv nat
        (fun _ w => (screenshot_ok, S w))
        (fun _ _ w => (device_ok, S w))
        (fun _ w => (device_ok, S w))
        (fun _ _ _ _ w => (device_ok, S w))
        (fun _ w => (device_ok, S w))
        (fun _ w => (true, S w))
        (fun w => (inject_Z (Z.of_nat w), S w))
        (fun _ w => (Some "img", S w))
        (fun _ _ w => (point_reply, S w))
        (fun _ _ w => (query_reply, S w)).

Definition fresh (w : nat) : State nat := mkState w Stats.init [] [].

Definition default_device : DeviceController := mkDevice 1080 2400.

Definition default_agent : VisionAgent :=
  mkAgent true "current_screen.png" default_device.


(** The vision service finds nothing and sees no way to navigate. *)
Definition hopeless_env : Env nat :=
  fixed_env true true (Some None) (Some "not possible").

(** The vision service finds nothing and suggests a click, which the
    dispatcher cannot perform without coordinates. *)
Definition click_env : Env nat :=
  fixed_env true true (Some None) (Some "Click settings").

(** Every call succeeds and the target is found in the middle of the
    screen. *)
Definition found_env : Env nat :=
  fixed_env true true (Some (Some (mkPoint (Num (1 # 2)) (Num (1 # 2)))))
            (Some "scroll down").

(** The screenshot cannot be taken. *)
Definition blind_env : Env nat :=
  fixed_env false true (Some None) (Some "not possible").
(** ** Frame rules

    For a reflexive and transitive [R] that the primitive steps respect,
    every method of the program keeps [R]; each lemma depends only on the
    primitives its method uses. *)

Section Frame.

Context {W : Type} (E : Env W).
Variable R : State W -> State W -> Prop.
Variable emit_ok : Event -> Prop.
Variable tracker_ok : (StatsTracker -> StatsTracker) -> Prop.

Hypothesis R_refl : forall st, R st st.
Hypothesis R_trans : forall a b c, R a b -> R b c -> R a c.
Hypothesis R_emit : forall e, emit_ok e -> keeps R (emit e).
Hypothesis R_ask : forall A (op : W -> A * W), keeps R (ask op).
Hypothesis R_tracker : forall f, tracker_ok f -> keeps R (tracker f).

Hypothesis ok_external : forall e, external e = true -> emit_ok e.
Hypothesis ok_perform : forall step pc, emit_ok (EvPerformAction step pc).
Hypothesis ok_locate : forall image d, emit_ok (EvLocate image d).
Hypothesis ok_execute : forall step, emit_ok (EvExecuteStep step).

Hypothesis ok_query_call : tracker_ok Stats.record_query_call.
Hypothesis ok_point_call : tracker_ok Stats.record_point_call.
Hypothesis ok_detection : forall src, tracker_ok (Stats.record_detection src).
Hypothesis ok_reasoning : tracker_ok Stats.record_reasoning_call.
Hypothesis ok_navigation : tracker_ok Stats.record_navigation.
Hypothesis ok_action : forall b, tracker_ok (Stats.record_action b).
Hypothesis ok_start : forall t, tracker_ok (Stats.start_test t).
Hypothesis ok_end : forall t, tracker_ok (Stats.end_test t).

Lemma keeps_ret {A} (a : A) : keeps R (ret a).
Proof. intro st. apply R_refl. Qed.

Lemma keeps_bind {A B} (m : M W A) (k : A -> M W B) :
  keeps R m -> (forall a, keeps R (k a)) -> keeps R (bind m k).
Proof.
  intros Hm Hk st. unfold bind.
  specialize (Hm st). destruct (m st) as [a st1]. simpl in Hm.
  eapply R_trans; [exact Hm | apply Hk].
Qed.

Lemma keeps_read : keeps R (@read_stats W).
Proof. intro st. apply R_refl. Qed.

Ltac external_event := apply R_emit; apply ok_external; reflexivity.

Ltac frame_step :=
  first
    [ apply keeps_ret
    | apply R_ask
    | external_event
    | apply keeps_bind; [ | intro ]
    | match goal with
      | |- keeps _ (if ?b then _ else _) => destruct b
      | |- keeps _ (match ?x with _ => _ end) => destruct x
      end ].

Ltac frame := repeat frame_step.

Lemma keeps_pause seconds : keeps R (pause E seconds).
Proof. unfold pause. frame. Qed.

Lemma keeps_capture_screen path : keeps R (capture_screen E path).
Proof. unfold capture_screen. frame. Qed.

Lemma keeps_click x y : keeps R (click E x y).
Proof. unfold click. frame. Qed.

Lemma keeps_type_text text : keeps R (type_text E text).
Proof. unfold type_text. frame. Qed.

Lemma keeps_scroll dc direction : keeps R (scroll E dc direction).
Proof. unfold scroll, swipe_call. frame. Qed.

Lemma keeps_press_key key : keeps R (press_key E key).
Proof. unfold press_key. frame. Qed.

Lemma keeps_wait seconds : keeps R (wait E seconds).
Proof. unfold wait. frame. Qed.

Lemma keeps_dispatch dc step pc : keeps R (dispatch E dc step pc).
Proof.
  unfold dispatch.
  repeat match goal with
         | |- keeps _ (if ?b then _ else _) => destruct b
         | |- keeps _ (match ?x with _ => _ end) => destruct x
         end;
    first [ apply keeps_ret | apply keeps_type_text | apply keeps_scroll
          | apply keeps_press_key | apply keeps_click
          | apply keeps_bind; [ apply keeps_wait | intros []; apply keeps_ret ] ].
Qed.

Lemma keeps_perform_action dc step pc : keeps R (perform_action E dc step pc).
Proof.
  unfold perform_action.
  apply keeps_bind; [ apply R_emit, ok_perform | intros _ ].
  apply keeps_dispatch.
Qed.

Lemma keeps_query_attempt image question : keeps R (query_attempt E image question).
Proof.
  unfold query_attempt. frame.
  apply R_tracker, ok_query_call.
Qed.

Lemma keeps_query_from fuel image question retry :
  keeps R (query_from E fuel image question retry).
Proof.
  revert retry. induction fuel as [| f IH]; intro retry; simpl.
  - apply keeps_bind; [ apply keeps_query_attempt | intros [a |] ].
    + apply keeps_ret.
    + destruct (retry <? 3); [ | apply keeps_ret ].
      apply keeps_bind; [ apply keeps_pause | intro; apply keeps_ret ].
  - apply keeps_bind; [ apply keeps_query_attempt | intros [a |] ].
    + apply keeps_ret.
    + destruct (retry <? 3); [ | apply keeps_ret ].
      apply keeps_bind; [ apply keeps_pause | intro; apply IH ].
Qed.

Lemma keeps_query image question : keeps R (query E image question).
Proof. apply keeps_query_from. Qed.

Lemma keeps_locate_attempt image d : keeps R (locate_attempt E image d).
Proof.
  unfold locate_attempt. frame.
  - apply R_tracker, ok_point_call.
  - apply R_tracker, ok_detection.
Qed.

Lemma keeps_locate_from fuel image d retry :
  keeps R (locate_from E fuel image d retry).
Proof.
  revert retry. induction fuel as [| f IH]; intro retry; simpl.
  - apply keeps_bind; [ apply keeps_locate_attempt | intros [a |] ].
    + apply keeps_ret.
    + destruct (retry <? 3); [ | apply keeps_ret ].
      apply keeps_bind; [ apply keeps_pause | intro; apply keeps_ret ].
  - apply keeps_bind; [ apply keeps_locate_attempt | intros [a |] ].
    + apply keeps_ret.
    + destruct (retry <? 3); [ | apply keeps_ret ].
      apply keeps_bind; [ apply keeps_pause | intro; apply IH ].
Qed.

Lemma keeps_locate image d : keeps R (locate E image d).
Proof.
  unfold locate.
  apply keeps_bind; [ apply R_emit, ok_locate | intro; apply keeps_locate_from ].
Qed.

Lemma keeps_get_navigation_suggestion image goal :
  keeps R (get_navigation_suggestion E image goal).
Proof.
  unfold get_navigation_suggestion.
  apply keeps_bind; [ apply keeps_query | intros [a |] ]; [ | apply keeps_ret ].
  destruct (Py.truthy a); [ | apply keeps_ret ].
  apply keeps_bind; [ apply R_tracker, ok_reasoning | intro ].
  destruct (Py.any_in _ _); apply keeps_ret.
Qed.

Variable self : VisionAgent.

Lemma keeps_navigate action : keeps R (navigate E self action).
Proof.
  unfold navigate.
  apply keeps_bind; [ apply R_tracker, ok_navigation | intro ].
  apply keeps_bind; [ apply keeps_perform_action | intros executed ].
  destruct executed; [ | apply keeps_ret ].
  apply keeps_bind; [ apply keeps_pause | intro ].
  apply keeps_bind; [ apply keeps_capture_screen | intro; apply keeps_ret ].
Qed.

Lemma keeps_locate_loop step max_retries attempts :
  keeps R (locate_loop E self step max_retries attempts).
Proof.
  induction attempts as [| attempt rest IH]; simpl.
  - apply keeps_ret.
  - apply keeps_bind; [ apply keeps_locate | intros [c |] ]; [ apply keeps_ret | ].
    destruct (attempt <? max_retries - 1); [ | exact IH ].
    apply keeps_bind; [ apply keeps_get_navigation_suggestion | intros [a |] ];
      [ | apply keeps_ret ].
    destruct (Py.truthy a && negb (Py.contains "not possible" a));
      [ | apply keeps_ret ].
    apply keeps_bind; [ apply keeps_navigate | intro; exact IH ].
Qed.

Lemma keeps_intelligent_locate step max_retries :
  keeps R (_intelligent_locate E self step max_retries).
Proof. apply keeps_locate_loop. Qed.

Lemma keeps_basic_locate step : keeps R (_basic_locate E self step).
Proof. apply keeps_locate. Qed.

Lemma keeps_act_and_record step coords :
  keeps R (act_and_record E self step coords).
Proof.
  unfold act_and_record.
  assert (Hd : forall pc,
             keeps R (success <- perform_action E (device self) step pc ;;
                      tracker (Stats.record_action success) ;; ret success)).
  { intro pc.
    apply keeps_bind; [ apply keeps_perform_action | intro success ].
    apply keeps_bind; [ apply R_tracker, ok_action | intro; apply keeps_ret ]. }
  destruct coords as [c |]; [ | apply Hd ].
  destruct (convert_normalized_to_pixels _ _ _); [ apply Hd | ].
  apply keeps_bind; [ apply R_tracker, ok_action | intro; apply keeps_ret ].
Qed.

Lemma keeps_locate_then_act step : keeps R (locate_then_act E self step).
Proof.
  unfold locate_then_act.
  destruct (Py.any_in _ _); [ apply keeps_act_and_record | ].
  apply keeps_bind.
  - destruct (intelligent_mode self);
      [ apply keeps_intelligent_locate | apply keeps_basic_locate ].
  - intros [c |]; [ apply keeps_act_and_record | ].
    destruct (negb _); [ | apply keeps_act_and_record ].
    apply keeps_bind; [ apply R_tracker, ok_action | intro; apply keeps_ret ].
Qed.

Lemma keeps_execute_body step : keeps R (execute_body E self step).
Proof.
  unfold execute_body.
  apply keeps_bind; [ apply keeps_capture_screen | intros captured ].
  destruct (negb captured); [ apply keeps_ret | apply keeps_locate_then_act ].
Qed.

Lemma keeps_execute_step step : keeps R (_execute_step E self step).
Proof.
  unfold _execute_step.
  apply keeps_bind; [ apply R_emit, ok_execute | intro ].
  apply keeps_execute_body.
Qed.

Lemma keeps_start_test : keeps R (start_test E).
Proof.
  unfold start_test. frame. apply R_tracker, ok_start.
Qed.

Lemma keeps_end_test : keeps R (end_test E).
Proof.
  unfold end_test. frame. apply R_tracker, ok_end.
Qed.

Lemma keeps_steps_loop remaining completed :
  keeps R (steps_loop E self remaining completed).
Proof.
  revert completed.
  induction remaining as [| step rest IH]; intro completed; simpl.
  - apply keeps_ret.
  - apply keeps_bind; [ apply keeps_execute_step | intros success ].
    destruct success; [ | apply keeps_ret ].
    apply keeps_bind; [ apply keeps_pause | intro; apply IH ].
Qed.

Lemma keeps_run_test_case test_json : keeps R (run_test_case E self test_json).
Proof.
  unfold run_test_case.
  apply keeps_bind; [ apply keeps_start_test | intro ].
  apply keeps_bind; [ apply keeps_steps_loop | intros [completed failed] ].
  apply keeps_bind; [ apply keeps_end_test | intro ].
  apply keeps_bind; [ apply keeps_read | intro; apply keeps_ret ].
Qed.

End Frame.

Example lower_mixed : Py.lower "Type Hello" = "type hello".
Proof. reflexivity. Qed.

Example strip_both : Py.strip "  a b  " = "a b".
Proof. reflexivity. Qed.

Example replace_twice : Py.replace "ab" "x" "abcabab" = "xcxx".
Proof. reflexivity. Qed.

Example find_second : Py.find "enter " "press enter now" = Some 6%nat.
Proof. reflexivity. Qed.

Example contains_inner : Py.contains "back" "go back now" = true.
Proof. reflexivity. Qed.


(** ** Running a computation *)

#[local] Arguments Py.any_in : simpl never.
#[local] Arguments Py.contains : simpl never.
#[local] Arguments Py.lower : simpl never.
#[local] Arguments perform_action : simpl never.
#[local] Arguments act_and_record : simpl never.
#[local] Arguments _intelligent_locate : simpl never.
#[local] Arguments _basic_locate : simpl never.
#[local] Arguments locate : simpl never.
#[local] Arguments get_navigation_suggestion : simpl never.
#[local] Arguments _execute_step : simpl never.

Lemma bind_run {W A B} (m : M W A) (k : A -> M W B) st a st1 :
  m st = (a, st1) -> bind m k st = k a st1.
Proof. intro H. unfold bind. rewrite H. reflexivity. Qed.

Section Capture.

Context {W : Type} (E : Env W) (self : VisionAgent).

Lemma capture_screen_run path (st : State W) :
  capture_screen E path st
  = (fst (drv_screenshot E path (world st)),
     mkState (snd (drv_screenshot E path (world st))) (stats st) (past st)
             (EvScreenshot path :: trace st)).
Proof.
  unfold capture_screen, bind, emit, ask. simpl.
  destruct (drv_screenshot E path (world st)). reflexivity.
Qed.

(** [_execute_step] up to the capture of the screen. *)
Lemma execute_step_run step (st : State W) :
  _execute_step E self step st
  = let captured := fst (drv_screenshot E (screenshot_path self) (world st)) in
    let s0 := mkState (snd (drv_screenshot E (screenshot_path self) (world st)))
                      (stats st) (past st)
                      (EvScreenshot (screenshot_path self)
                         :: EvExecuteStep step :: trace st) in
    if captured then locate_then_act E self step s0 else (false, s0).
Proof.
  unfold _execute_step, execute_body.
  rewrite (bind_run (emit (EvExecuteStep step)) _ st tt
             (mkState (world st) (stats st) (past st)
                      (EvExecuteStep step :: trace st)) eq_refl).
  rewrite (bind_run _ _ _ _ _ (capture_screen_run (screenshot_path self) _)).
  simpl. destruct (fst (drv_screenshot E (screenshot_path self) (world st)));
    reflexivity.
Qed.

End Capture.

Lemma range_attempts n : range n = attempts_from 0 n.
Proof. unfold range, attempts_from. simpl. rewrite Nat.sub_0_r. reflexivity. Qed.

Lemma attempts_from_cons a n :
  0 <= a < n -> attempts_from a n = a :: attempts_from (a + 1) n.
Proof.
  intros [Ha Hn]. unfold attempts_from.
  replace (Z.to_nat n - Z.to_nat a)%nat with (S (Z.to_nat n - Z.to_nat (a + 1))) by lia.
  simpl. rewrite Z2Nat.id by lia.
  replace (Z.to_nat (a + 1)) with (S (Z.to_nat a)) by lia.
  reflexivity.
Qed.

Lemma attempts_from_length a n :
  (List.length (attempts_from a n) <= Z.to_nat n)%nat.
Proof.
  unfold attempts_from. rewrite length_map, length_seq. lia.
Qed.

(** ** Calls of [locate] *)

Section LocateCalls.

Context {W : Type} (E : Env W).

Definition same_locates (st st' : State W) : Prop :=
  locate_calls st' = locate_calls st.

Definition not_locate (e : Event) : Prop := is_locate e = false.

Definition any_tracker (f : StatsTracker -> StatsTracker) : Prop := True.

Lemma same_locates_refl st : same_locates st st.
Proof. reflexivity. Qed.

Lemma same_locates_trans a b c :
  same_locates a b -> same_locates b c -> same_locates a c.
Proof. unfold same_locates. congruence. Qed.

Lemma same_locates_emit e : not_locate e -> keeps same_locates (@emit W e).
Proof.
  intros He st. unfold same_locates, locate_calls. simpl.
  rewrite He. reflexivity.
Qed.

Lemma same_locates_ask A (op : W -> A * W) : keeps same_locates (ask op).
Proof.
  intro st. unfold ask. destruct (op (world st)). reflexivity.
Qed.

Lemma same_locates_tracker f : any_tracker f -> keeps same_locates (@tracker W f).
Proof. intros _ st. reflexivity. Qed.

Lemma external_not_locate e : external e = true -> not_locate e.
Proof. destruct e; simpl; intro H; try reflexivity; discriminate. Qed.

Ltac locates_frame L :=
  first [ eapply L with (emit_ok := not_locate) (tracker_ok := any_tracker)
        | eapply L with (emit_ok := not_locate) ];
  first [ exact same_locates_refl | exact same_locates_trans
        | exact same_locates_emit | exact same_locates_ask
        | exact same_locates_tracker | exact external_not_locate
        | exact I | intros; exact I | intros; reflexivity ].

Lemma locates_pause seconds : keeps same_locates (pause E seconds).
Proof. locates_frame @keeps_pause. Qed.

Lemma locates_capture_screen path : keeps same_locates (capture_screen E path).
Proof. locates_frame @keeps_capture_screen. Qed.

Lemma locates_perform_action dc step pc :
  keeps same_locates (perform_action E dc step pc).
Proof. locates_frame @keeps_perform_action. Qed.

Lemma locates_suggestion image goal :
  keeps same_locates (get_navigation_suggestion E image goal).
Proof. locates_frame @keeps_get_navigation_suggestion. Qed.

Lemma locates_navigate self action : keeps same_locates (navigate E self action).
Proof. locates_frame @keeps_navigate. Qed.

Lemma locates_locate_from fuel image d retry :
  keeps same_locates (locate_from E fuel image d retry).
Proof. locates_frame @keeps_locate_from. Qed.

Lemma locates_act_and_record self step coords :
  keeps same_locates (act_and_record E self step coords).
Proof. locates_frame @keeps_act_and_record. Qed.

Lemma locates_start_test : keeps same_locates (start_test E).
Proof. locates_frame @keeps_start_test. Qed.

Lemma locates_end_test : keeps same_locates (end_test E).
Proof. locates_frame @keeps_end_test. Qed.

(** One call of [locate] is one more call counted, whatever its retries. *)
Lemma locate_counts_once image d st :
  locate_calls (snd (locate E image d st)) = S (locate_calls st).
Proof.
  unfold locate, bind, emit. cbv beta iota.
  rewrite (locates_locate_from 2 image d 1 _). reflexivity.
Qed.

End LocateCalls.

(** ** The retries of the vision client

    The recursion of [query] and [locate] is bounded by the test
    [retry < 3]; the fuel given by the callers is never exhausted, so more
    fuel changes nothing. *)

Section Fuel.

Context {W : Type} (E : Env W).

Lemma locate_from_unfold fuel image d retry :
  locate_from E fuel image d retry
  = (r <- locate_attempt E image d ;;
     match r with
     | Some found => ret found
     | None =>
         if retry <? 3 then
           pause E 1 ;;
           match fuel with
           | S f => locate_from E f image d (retry + 1)
           | O => ret None
           end
         else ret None
     end).
Proof. destruct fuel; reflexivity. Qed.

Lemma locate_from_enough fuel image d retry st :
  (Z.to_nat (3 - retry) <= fuel)%nat ->
  locate_from E fuel image d retry st
  = locate_from E (Z.to_nat (3 - retry)) image d retry st.
Proof.
  revert retry st. induction fuel as [| f IH]; intros retry st Hle.
  - replace (Z.to_nat (3 - retry)) with O by lia. reflexivity.
  - rewrite (locate_from_unfold (S f)), (locate_from_unfold (Z.to_nat (3 - retry))).
    unfold bind at 1 3.
    destruct (locate_attempt E image d st) as [[found |] s1]; [ reflexivity | ].
    destruct (retry <? 3) eqn:Hlt; [ | reflexivity ].
    apply Z.ltb_lt in Hlt.
    unfold bind. destruct (pause E 1 s1) as [u s2].
    replace (Z.to_nat (3 - retry)) with (S (Z.to_nat (3 - (retry + 1)))) by lia.
    apply IH. lia.
Qed.

Lemma query_from_unfold fuel image question retry :
  query_from E fuel image question retry
  = (r <- query_attempt E image question ;;
     match r with
     | Some answer => ret (Some answer)
     | None =>
         if retry <? 3 then
           pause E 1 ;;
           match fuel with
           | S f => query_from E f image question (retry + 1)
           | O => ret None
           end
         else ret None
     end).
Proof. destruct fuel; reflexivity. Qed.

Lemma query_from_enough fuel image question retry st :
  (Z.to_nat (3 - retry) <= fuel)%nat ->
  query_from E fuel image question retry st
  = query_from E (Z.to_nat (3 - retry)) image question retry st.
Proof.
  revert retry st. induction fuel as [| f IH]; intros retry st Hle.
  - replace (Z.to_nat (3 - retry)) with O by lia. reflexivity.
  - rewrite (query_from_unfold (S f)), (query_from_unfold (Z.to_nat (3 - retry))).
    unfold bind at 1 3.
    destruct (query_attempt E image question st) as [[answer |] s1]; [ reflexivity | ].
    destruct (retry <? 3) eqn:Hlt; [ | reflexivity ].
    apply Z.ltb_lt in Hlt.
    unfold bind. destruct (pause E 1 s1) as [u s2].
    replace (Z.to_nat (3 - retry)) with (S (Z.to_nat (3 - (retry + 1)))) by lia.
    apply IH. lia.
Qed.

End Fuel.

(** ** Binary64 rounding *)

(** [Binary64] against the Standard Library's specification of binary64
    ([SpecFloat], precision 53 and maximal exponent 1024) at some values:
    two products, the conversion of integers around 2^53 and around the
    largest float, and two values below the smallest positive float. *)
Example round_agrees_with_the_specification :
  Binary64.mul (Num (5404319552844595 # 18014398509481984)) (Num 1080)
  = of_spec (SpecFloat.SFmul 53 1024 (spec_float64 5404319552844595 (-54))
                             (spec_float64 1080 0)) /\
  Binary64.mul (Num (6004799503160661 # 18014398509481984)) (Num 1080)
  = of_spec (SpecFloat.SFmul 53 1024 (spec_float64 6004799503160661 (-54))
                             (spec_float64 1080 0)) /\
  Binary64.round (3 # 10)
  = of_spec (SpecFloat.SFdiv 53 1024 (spec_float64 3 0) (spec_float64 10 0)) /\
  Binary64.round (inject_Z (2 ^ 53 + 1))
  = of_spec (SpecFloat.binary_normalize 53 1024 (2 ^ 53 + 1) 0 false) /\
  Binary64.round (inject_Z (2 ^ 53 + 3))
  = of_spec (SpecFloat.binary_normalize 53 1024 (2 ^ 53 + 3) 0 false) /\
  Binary64.round (inject_Z (2 ^ 1024 - 2 ^ 970 - 1))
  = of_spec (SpecFloat.binary_normalize 53 1024 (2 ^ 1024 - 2 ^ 970 - 1) 0 false) /\
  Binary64.round (inject_Z (2 ^ 1024 - 2 ^ 970))
  = of_spec (SpecFloat.binary_normalize 53 1024 (2 ^ 1024 - 2 ^ 970) 0 false) /\
  Binary64.round (1 # Z.to_pos (2 ^ 1075))
  = of_spec (SpecFloat.binary_normalize 53 1024 1 (-1075) false) /\
  Binary64.round (3 # Z.to_pos (2 ^ 1075))
  = of_spec (SpecFloat.binary_normalize 53 1024 3 (-1075) false).
Proof. repeat apply conj; vm_compute; reflexivity. Qed.

Section Rounding.

Import Binary64.

Lemma nearest_even_floor n d : 0 < d -> n / d <= nearest_even n d.
Proof.
  intro Hd. unfold nearest_even.
  destruct (2 * (n mod d) ?= d); [ destruct (Z.even (n / d)) | | ]; lia.
Qed.

Lemma nearest_even_ceiling n d : 0 < d -> nearest_even n d <= n / d + 1.
Proof.
  intro Hd. unfold nearest_even.
  destruct (2 * (n mod d) ?= d); [ destruct (Z.even (n / d)) | | ]; lia.
Qed.

Lemma nearest_even_ge a n d : 0 < d -> a * d <= n -> a <= nearest_even n d.
Proof.
  intros Hd Ha. apply Z.le_trans with (n / d); [ | apply nearest_even_floor; exact Hd ].
  apply Z.div_le_lower_bound; lia.
Qed.

Lemma nearest_even_le b n d : 0 < d -> n <= b * d -> nearest_even n d <= b.
Proof.
  intros Hd Hb. unfold nearest_even.
  pose proof (Z.div_mod n d ltac:(lia)) as Hdm.
  pose proof (Z.mod_pos_bound n d Hd) as Hr.
  assert (Hf : n / d <= b).
  { apply Z.div_le_upper_bound; lia. }
  destruct (Z.eq_dec (n / d) b) as [Heq | Hne].
  - assert (Hz : n mod d = 0) by nia.
    rewrite Hz. destruct (Z.compare_spec (2 * 0) d); lia.
  - destruct (2 * (n mod d) ?= d); [ destruct (Z.even (n / d)) | | ]; lia.
Qed.

Lemma nearest_even_exact a d : 0 < d -> nearest_even (a * d) d = a.
Proof.
  intro Hd. apply Z.le_antisymm.
  - apply nearest_even_le; lia.
  - apply nearest_even_ge; lia.
Qed.

(** The integer chosen is within one half of n/d. *)
Lemma nearest_even_near n d :
  0 < d -> Z.abs (2 * (nearest_even n d * d - n)) <= d.
Proof.
  intro Hd. unfold nearest_even.
  pose proof (Z.div_mod n d ltac:(lia)) as Hdm.
  pose proof (Z.mod_pos_bound n d Hd) as Hr.
  destruct (Z.compare_spec (2 * (n mod d)) d);
    [ destruct (Z.even (n / d)) | | ]; nia.
Qed.

(** [ilog2 n d] is the integer part of the binary logarithm of n/d. *)
Lemma ilog2_spec n d :
  let k := ilog2 n d in
  (0 <= k -> 2 ^ k * Z.pos d <= Z.pos n < 2 ^ (k + 1) * Z.pos d) /\
  (k < 0 -> Z.pos d <= 2 ^ (- k) * Z.pos n /\ 2 ^ (- k - 1) * Z.pos n < Z.pos d).
Proof.
  unfold ilog2. destruct (Z.pos d <=? Z.pos n) eqn:Hle.
  - apply Z.leb_le in Hle.
    assert (Hq : 0 < Z.pos n / Z.pos d) by (apply Z.div_str_pos; lia).
    pose proof (Z.log2_spec _ Hq) as [Hlo Hhi].
    pose proof (Z.log2_nonneg (Z.pos n / Z.pos d)) as Hk.
    pose proof (Z.div_mod (Z.pos n) (Z.pos d) ltac:(lia)) as Hdm.
    pose proof (Z.mod_pos_bound (Z.pos n) (Z.pos d) ltac:(lia)) as Hr.
    replace (Z.succ (Z.log2 (Z.pos n / Z.pos d)))
      with (Z.log2 (Z.pos n / Z.pos d) + 1) in Hhi by lia.
    split; [ intros _; nia | lia ].
  - apply Z.leb_gt in Hle.
    set (c := (Z.pos d + Z.pos n - 1) / Z.pos n).
    pose proof (Z.div_mod (Z.pos d + Z.pos n - 1) (Z.pos n) ltac:(lia)) as Hdm.
    pose proof (Z.mod_pos_bound (Z.pos d + Z.pos n - 1) (Z.pos n) ltac:(lia)) as Hr.
    fold c in Hdm.
    assert (Hc : 1 < c) by nia.
    pose proof (Z.log2_up_spec _ Hc) as [Hlo Hhi].
    pose proof (Z.log2_up_pos _ Hc) as Hk.
    replace (Z.pred (Z.log2_up c)) with (Z.log2_up c - 1) in Hlo by lia.
    split; [ lia | intros _ ].
    rewrite Z.opp_involutive.
    replace (- - Z.log2_up c - 1) with (Z.log2_up c - 1) by lia.
    split; nia.
Qed.

Lemma ulp_exponent_small n d : Z.pos n < 2 ^ 53 * Z.pos d -> ulp_exponent n d <= 0.
Proof.
  intro H. unfold ulp_exponent, ilog2.
  destruct (Z.pos d <=? Z.pos n) eqn:Hle.
  - apply Z.leb_le in Hle.
    assert (Hq : 0 < Z.pos n / Z.pos d) by (apply Z.div_str_pos; lia).
    assert (Hlt : Z.pos n / Z.pos d < 2 ^ 53) by (apply Z.div_lt_upper_bound; lia).
    apply (Z.log2_lt_pow2 _ _ Hq) in Hlt. lia.
  - pose proof (Z.log2_up_nonneg ((Z.pos d + Z.pos n - 1) / Z.pos n)). lia.
Qed.

Lemma Qred_inject_Z n : Qred (inject_Z n) = inject_Z n.
Proof.
  unfold Qred, inject_Z.
  pose proof (Z.ggcd_gcd n 1) as Hg. pose proof (Z.ggcd_correct_divisors n 1) as Hd.
  destruct (Z.ggcd n 1) as [g [a b]]. simpl in Hg.
  rewrite Z.gcd_1_r in Hg. subst g. destruct Hd as [Ha Hb].
  assert (Hb1 : b = 1) by lia. assert (Ha1 : a = n) by lia.
  rewrite Hb1, Ha1. reflexivity.
Qed.

Lemma scaled_value m s a :
  0 <= s -> m = a * 2 ^ s -> Qred (m # Z.to_pos (2 ^ s)) = inject_Z a.
Proof.
  intros Hs ->. rewrite <- Qred_inject_Z. apply Qred_complete.
  unfold Qeq, inject_Z. simpl.
  rewrite Z2Pos.id by (apply Z.pow_pos_nonneg; lia). lia.
Qed.

(** Up to 2^53 the integers are binary64 values. *)
Lemma round_int_small n : 0 <= n <= 2 ^ 53 -> round (inject_Z n) = Num (inject_Z n).
Proof.
  intros [H0 H1].
  destruct (Z.eq_dec n (2 ^ 53)) as [-> | Hne]; [ vm_compute; reflexivity | ].
  unfold round, inject_Z. cbn [Qnum Qden].
  destruct n as [| p | p]; [ reflexivity | | lia ].
  unfold round_positive.
  pose proof (ulp_exponent_small p 1 ltac:(lia)) as He.
  destruct (0 <? ulp_exponent p 1) eqn:Hb; [ apply Z.ltb_lt in Hb; lia | ].
  f_equal.
  replace (Z.pos p * 2 ^ (- ulp_exponent p 1))
    with ((Z.pos p * 2 ^ (- ulp_exponent p 1)) * 1) by lia.
  rewrite nearest_even_exact by lia.
  apply scaled_value; lia.
Qed.


(** A value below 2^53 is rounded to a value between the integers that
    enclose it. *)
Lemma round_between (q : Q) (lo hi : Z) :
  (0 <= q)%Q -> (q < inject_Z (2 ^ 53))%Q ->
  (inject_Z lo <= q)%Q -> (q <= inject_Z hi)%Q ->
  exists r, round q = Num r /\ (inject_Z lo <= r)%Q /\ (r <= inject_Z hi)%Q.
Proof.
  destruct q as [n d]. intros H0 H53 Hlo Hhi.
  unfold Qle, Qlt, inject_Z in H0, H53, Hlo, Hhi. cbn [Qnum Qden] in *.
  unfold round. cbn [Qnum Qden].
  destruct n as [| p | p]; [ | | lia ].
  - exists 0%Q. split; [ reflexivity | ]. unfold Qle. simpl. lia.
  - unfold round_positive.
    pose proof (ulp_exponent_small p d ltac:(lia)) as He.
    destruct (0 <? ulp_exponent p d) eqn:Hb; [ apply Z.ltb_lt in Hb; lia | ].
    set (s := - ulp_exponent p d) in *.
    assert (Hs : 0 <= s) by (unfold s; lia).
    assert (Hp : 0 < 2 ^ s) by (apply Z.pow_pos_nonneg; lia).
    eexists. split; [ reflexivity | ].
    split.
    + rewrite Qred_correct. unfold Qle, inject_Z. cbn [Qnum Qden].
      rewrite Z2Pos.id by exact Hp.
      assert (lo * 2 ^ s <= nearest_even (Z.pos p * 2 ^ s) (Z.pos d)).
      { apply nearest_even_ge; [ lia | nia ]. }
      lia.
    + rewrite Qred_correct. unfold Qle, inject_Z. cbn [Qnum Qden].
      rewrite Z2Pos.id by exact Hp.
      assert (nearest_even (Z.pos p * 2 ^ s) (Z.pos d) <= hi * 2 ^ s).
      { apply nearest_even_le; [ lia | nia ]. }
      lia.
Qed.

Lemma nearest_even_below b n d :
  0 < d -> 2 * n < (2 * b - 1) * d -> nearest_even n d <= b - 1.
Proof.
  intros Hd Hb. unfold nearest_even.
  pose proof (Z.div_mod n d ltac:(lia)) as Hdm.
  pose proof (Z.mod_pos_bound n d Hd) as Hr.
  assert (Hf : n / d <= b - 1).
  { apply Z.lt_succ_r. replace (Z.succ (b - 1)) with b by lia.
    apply Z.div_lt_upper_bound; nia. }
  destruct (Z.eq_dec (n / d) (b - 1)) as [Heq | Hne].
  - destruct (Z.compare_spec (2 * (n mod d)) d); [ nia | lia | nia ].
  - destruct (2 * (n mod d) ?= d); [ destruct (Z.even (n / d)) | | ]; lia.
Qed.

(** The largest binary64 value below 1 is 1 - 2^-53. *)
Lemma representable_below_one (x : Q) :
  representable x -> (0 <= x)%Q -> (x < 1)%Q ->
  Qnum x * 2 ^ 53 <= (2 ^ 53 - 1) * Z.pos (Qden x).
Proof.
  destruct x as [n d]. unfold representable, round, Qle, Qlt. cbn [Qnum Qden].
  intros Hrep H0 H1.
  destruct n as [| p | p]; [ lia | | lia ].
  destruct (Z.le_gt_cases (Z.pos d) (2 * Z.pos p)) as [Hhalf | Hhalf]; [ | lia ].
  unfold round_positive in Hrep.
  assert (Hk : ilog2 p d = -1).
  { unfold ilog2. destruct (Z.pos d <=? Z.pos p) eqn:Hle;
      [ apply Z.leb_le in Hle; lia | ].
    replace ((Z.pos d + Z.pos p - 1) / Z.pos p) with 2; [ reflexivity | ].
    apply (Z.div_unique _ _ 2 (Z.pos d - Z.pos p - 1)); lia. }
  unfold ulp_exponent in Hrep. rewrite Hk in Hrep.
  change (Z.max (-1074) (-1 - 52)) with (-53) in Hrep.
  change (0 <? -53) with false in Hrep. cbv iota in Hrep.
  change (- -53) with 53 in Hrep.
  set (m := nearest_even (Z.pos p * 2 ^ 53) (Z.pos d)) in Hrep.
  injection Hrep as Hred.
  apply (proj1 (Qred_eq_iff (m # Z.to_pos (2 ^ 53)) (Z.pos p # d))) in Hred.
  unfold Qeq in Hred. cbn [Qnum Qden] in Hred.
  change (Z.pos (Z.to_pos (2 ^ 53))) with (2 ^ 53) in Hred.
  assert (Hm : m < 2 ^ 53) by nia.
  nia.
Qed.

(** A coordinate below 1 that is a binary64 value is scaled to a value
    below the size. *)
Lemma scaled_below (x : Q) (n : Z) :
  representable x -> (0 <= x)%Q -> (x < 1)%Q -> 0 < n < 2 ^ 53 ->
  exists r, round (x * inject_Z n) = Num r /\ (r < inject_Z n)%Q.
Proof.
  intros Hrep H0 H1 Hn.
  pose proof (representable_below_one x Hrep H0 H1) as Hx.
  destruct x as [p d]. unfold Qle, Qlt in H0, H1. cbn [Qnum Qden] in *.
  unfold Qmult, inject_Z, round. cbn [Qnum Qden].
  destruct n as [| w | w]; [ lia | | lia ].
  destruct p as [| p | p]; [ | | lia ].
  - exists 0%Q. split; [ reflexivity | ]. unfold Qlt. simpl. lia.
  - cbn [Z.mul]. unfold round_positive.
    assert (Hd : Z.pos (d * 1) = Z.pos d) by lia.
    assert (Hpw : Z.pos (p * w) = Z.pos p * Z.pos w) by lia.
    pose proof (ulp_exponent_small (p * w) (d * 1) ltac:(nia)) as He.
    destruct (0 <? ulp_exponent (p * w) (d * 1)) eqn:Hb;
      [ apply Z.ltb_lt in Hb; lia | ].
    set (s := - ulp_exponent (p * w) (d * 1)) in *.
    assert (Hs : 0 <= s) by (unfold s; lia).
    assert (Hp : 0 < 2 ^ s) by (apply Z.pow_pos_nonneg; lia).
    assert (Hlarge : 2 ^ 52 < Z.pos w * 2 ^ s).
    { destruct (ilog2_spec (p * w) (d * 1)) as [Hpos Hneg].
      unfold s, ulp_exponent in *.
      destruct (Z.le_gt_cases 0 (ilog2 (p * w) (d * 1))) as [Hk | Hk].
      - specialize (Hpos Hk).
        set (k := ilog2 (p * w) (d * 1)) in *.
        assert (Hk52 : k <= 52) by lia.
        replace (- Z.max (-1074) (k - 52)) with (52 - k) by lia.
        assert (Hsplit : 2 ^ 52 = 2 ^ k * 2 ^ (52 - k)).
        { rewrite <- Z.pow_add_r by lia. f_equal. lia. }
        assert (Hkw : 2 ^ k < Z.pos w) by nia.
        assert (0 < 2 ^ (52 - k)) by (apply Z.pow_pos_nonneg; lia).
        rewrite Hsplit. nia.
      - set (k := ilog2 (p * w) (d * 1)) in *.
        assert (Hge : 2 ^ 53 <= 2 ^ (- Z.max (-1074) (k - 52))).
        { apply Z.pow_le_mono_r; lia. }
        nia. }
    eexists. split; [ reflexivity | ].
    rewrite Qred_correct. unfold Qlt. cbn [Qnum Qden].
    rewrite Z2Pos.id by exact Hp.
    assert (Hm : nearest_even (Z.pos (p * w) * 2 ^ s) (Z.pos (d * 1))
                 <= Z.pos w * 2 ^ s - 1).
    { apply nearest_even_below; [ lia | ]. rewrite Hd, Hpw.
      set (T := Z.pos w * 2 ^ s) in *.
      replace (Z.pos p * Z.pos w * 2 ^ s) with (Z.pos p * T) by (unfold T; lia).
      nia. }
    lia.
Qed.

End Rounding.
(** ** The trace only grows *)

Section Growth.

Context {W : Type} (E : Env W).

Definition grows (st st' : State W) : Prop :=
  exists newer, trace st' = newer ++ trace st.

Definition any_event (e : Event) : Prop := True.

Lemma grows_refl st : grows st st.
Proof. exists []. reflexivity. Qed.

Lemma grows_trans a b c : grows a b -> grows b c -> grows a c.
Proof.
  intros [n1 H1] [n2 H2]. exists (n2 ++ n1).
  rewrite H2, H1, app_assoc. reflexivity.
Qed.

Lemma grows_emit e : any_event e -> keeps grows (@emit W e).
Proof. intros _ st. exists [e]. reflexivity. Qed.

Lemma grows_ask A (op : W -> A * W) : keeps grows (ask op).
Proof.
  intro st. unfold ask. destruct (op (world st)). exists []. reflexivity.
Qed.

Lemma grows_tracker f : any_tracker f -> keeps grows (@tracker W f).
Proof. intros _ st. exists []. reflexivity. Qed.

Ltac grows_frame L :=
  first [ eapply L with (emit_ok := any_event) (tracker_ok := any_tracker)
        | eapply L with (emit_ok := any_event) ];
  first [ exact grows_refl | exact grows_trans
        | exact grows_emit | exact grows_ask
        | exact grows_tracker
        | exact I | intros; exact I ].

Lemma grows_perform_action dc step pc : keeps grows (perform_action E dc step pc).
Proof. grows_frame @keeps_perform_action. Qed.

Lemma grows_dispatch dc step pc : keeps grows (dispatch E dc step pc).
Proof. grows_frame @keeps_dispatch. Qed.

(** A call of [perform_action] shows in the trace with its arguments. *)
Lemma perform_action_logged dc step pc (st : State W) :
  exists newer,
    trace (snd (perform_action E dc step pc st))
    = newer ++ EvPerformAction step pc :: trace st.
Proof.
  unfold perform_action.
  rewrite (bind_run (emit (EvPerformAction step pc)) _ st tt
             (mkState (world st) (stats st) (past st)
                      (EvPerformAction step pc :: trace st)) eq_refl).
  apply (grows_dispatch dc step pc).
Qed.

Lemma grows_locate_loop self step max_retries attempts :
  keeps grows (locate_loop E self step max_retries attempts).
Proof. grows_frame @keeps_locate_loop. Qed.

Lemma grows_act_and_record self step coords :
  keeps grows (act_and_record E self step coords).
Proof. grows_frame @keeps_act_and_record. Qed.

Lemma grows_execute_step self step : keeps grows (_execute_step E self step).
Proof. grows_frame @keeps_execute_step. Qed.

Lemma grows_locate_calls (st st' : State W) :
  grows st st' -> (locate_calls st <= locate_calls st')%nat.
Proof.
  intros [newer H]. unfold locate_calls.
  rewrite H, filter_app, length_app. lia.
Qed.

End Growth.

(** ** The auto-navigation loop *)

Section Navigation.

Context {W : Type} (E : Env W) (self : VisionAgent).

Let path := screenshot_path self.

(** One turn of the loop, read off its definition. *)
Lemma locate_loop_cons step max_retries attempt rest st :
  locate_loop E self step max_retries (attempt :: rest) st =
  let (coords, s1) := locate E path step st in
  match coords with
  | Some c => (Some c, s1)
  | None =>
      if attempt <? max_retries - 1 then
        let (action, s2) := get_navigation_suggestion E path step s1 in
        match action with
        | Some a =>
            if Py.truthy a && negb (Py.contains "not possible" a)
            then locate_loop E self step max_retries rest
                             (snd (navigate E self a s2))
            else (None, s2)
        | None => (None, s2)
        end
      else locate_loop E self step max_retries rest s1
  end.
Proof.
  simpl. unfold bind at 1. fold path.
  destruct (locate E path step st) as [[c |] s1]; [ reflexivity | ].
  destruct (attempt <? max_retries - 1); [ | reflexivity ].
  unfold bind at 1.
  destruct (get_navigation_suggestion E path step s1) as [[a |] s2];
    [ | reflexivity ].
  destruct (Py.truthy a && negb (Py.contains "not possible" a));
    [ | reflexivity ].
  unfold bind at 1. destruct (navigate E self a s2). reflexivity.
Qed.

Lemma locate_loop_bound step max_retries attempts st :
  (locate_calls (snd (locate_loop E self step max_retries attempts st))
   <= locate_calls st + List.length attempts)%nat.
Proof.
  revert st. induction attempts as [| attempt rest IH]; intro st.
  - simpl. lia.
  - rewrite locate_loop_cons.
    pose proof (locate_counts_once E path step st) as H1.
    destruct (locate E path step st) as [[c |] s1]; simpl in H1.
    + simpl. lia.
    + destruct (attempt <? max_retries - 1).
      * pose proof (locates_suggestion E path step s1) as H2.
        unfold same_locates in H2.
        destruct (get_navigation_suggestion E path step s1) as [[a |] s2];
          simpl in H2; [ | simpl; lia ].
        destruct (Py.truthy a && negb (Py.contains "not possible" a));
          [ | simpl; lia ].
        pose proof (locates_navigate E self a s2) as H3.
        unfold same_locates in H3.
        specialize (IH (snd (navigate E self a s2))). simpl. lia.
      * specialize (IH s1). simpl. lia.
Qed.

Lemma loop_stops_on_give_up step max_retries st attempt rest s1 action s2 :
  (attempt <? max_retries - 1) = true ->
  locate E path step st = (None, s1) ->
  get_navigation_suggestion E path step s1 = (action, s2) ->
  gives_up action ->
  locate_loop E self step max_retries (attempt :: rest) st = (None, s2)
  /\ locate_calls s2 = S (locate_calls st).
Proof.
  intros Hlt HL HN Hg.
  rewrite locate_loop_cons, HL, Hlt, HN.
  pose proof (locate_counts_once E path step st) as H1.
  pose proof (locates_suggestion E path step s1) as H2.
  unfold same_locates in H2. rewrite HL in H1. rewrite HN in H2.
  simpl in H1, H2.
  split; [ | congruence ].
  destruct action as [a |]; [ | reflexivity ].
  simpl in Hg. rewrite Hg, andb_false_r. reflexivity.
Qed.

(** C1.  The auto-navigation loop returns after at most [max_retries]
    calls of [locate]; an attempt whose navigation suggestion is absent or
    says "not possible" is the last one, with no further call of [locate];
    and when [locate] never finds the target and every suggestion gives
    up, exactly one call of [locate] is made and nothing is returned. *)
Theorem intelligent_locate_bounded step max_retries st :
  (exists r st',
      _intelligent_locate E self step max_retries st = (r, st') /\
      (locate_calls st' <= locate_calls st + Z.to_nat max_retries)%nat)
  /\
  (forall attempt s1 action s2,
      0 <= attempt < max_retries - 1 ->
      locate E path step st = (None, s1) ->
      get_navigation_suggestion E path step s1 = (action, s2) ->
      gives_up action ->
      locate_loop E self step max_retries
                  (attempts_from attempt max_retries) st = (None, s2)
      /\ locate_calls s2 = S (locate_calls st))
  /\
  ((forall s, fst (locate E path step s) = None) ->
   (forall s, gives_up (fst (get_navigation_suggestion E path step s))) ->
   1 <= max_retries ->
   fst (_intelligent_locate E self step max_retries st) = None /\
   locate_calls (snd (_intelligent_locate E self step max_retries st))
   = S (locate_calls st)).
Proof.
  split; [ | split ].
  - destruct (_intelligent_locate E self step max_retries st) as [r st'] eqn:Hr.
    exists r, st'. split; [ reflexivity | ].
    pose proof (locate_loop_bound step max_retries (range max_retries) st) as Hb.
    unfold _intelligent_locate in Hr. rewrite Hr in Hb. simpl in Hb.
    unfold range in Hb. rewrite length_map, length_seq in Hb. exact Hb.
  - intros attempt s1 action s2 Ha HL HN Hg.
    rewrite attempts_from_cons by lia.
    apply (loop_stops_on_give_up step max_retries st attempt _ s1 action s2); auto.
    apply Z.ltb_lt. lia.
  - intros Hnone Hgive Hmax.
    unfold _intelligent_locate.
    rewrite range_attempts, attempts_from_cons by lia.
    destruct (locate E path step st) as [coords s1] eqn:HL.
    assert (coords = None) by (rewrite <- (Hnone st), HL; reflexivity). subst coords.
    pose proof (locate_counts_once E path step st) as H1. rewrite HL in H1.
    simpl in H1.
    destruct (0 <? max_retries - 1) eqn:Hlt.
    + destruct (get_navigation_suggestion E path step s1) as [action s2] eqn:HN.
      pose proof (Hgive s1) as Hg. rewrite HN in Hg. simpl in Hg.
      destruct (loop_stops_on_give_up step max_retries st 0
                  (attempts_from (0 + 1) max_retries) s1 action s2 Hlt HL HN Hg)
        as [Heq Hc].
      rewrite Heq. split; [ reflexivity | exact Hc ].
    + apply Z.ltb_ge in Hlt. assert (max_retries = 1) by lia. subst max_retries.
      rewrite locate_loop_cons, HL. simpl. split; [ reflexivity | exact H1 ].
Qed.

(** A suggestion that passes the validation of [get_navigation_suggestion]
    holds one of the action verbs, so it is not empty. *)
Lemma suggestion_truthy image goal st a s' :
  get_navigation_suggestion E image goal st = (Some a, s') ->
  Py.truthy a = true.
Proof.
  unfold get_navigation_suggestion, bind.
  destruct (query E image (navigation_question goal) st) as [[answer |] s1];
    [ | discriminate ].
  destruct (Py.truthy answer); [ | discriminate ].
  unfold tracker.
  destruct (Py.any_in _ (Py.lower (Py.strip answer))) eqn:Hany;
    [ | discriminate ].
  unfold ret. intro H. inversion H; subst.
  destruct (Py.lower (Py.strip answer)); [ discriminate Hany | reflexivity ].
Qed.

Lemma locate_loop_first_call step max_retries attempt rest st :
  (S (locate_calls st)
   <= locate_calls (snd (locate_loop E self step max_retries (attempt :: rest) st)))%nat.
Proof.
  pose proof (grows_locate_loop E self step max_retries) as Hgrow.
  rewrite locate_loop_cons.
  pose proof (locate_counts_once E path step st) as H1.
  destruct (locate E path step st) as [[c |] s1]; simpl in H1; [ simpl; lia | ].
  destruct (attempt <? max_retries - 1).
  - pose proof (locates_suggestion E path step s1) as H2.
    unfold same_locates in H2.
    destruct (get_navigation_suggestion E path step s1) as [[a |] s2];
      simpl in H2; [ | simpl; lia ].
    destruct (Py.truthy a && negb (Py.contains "not possible" a));
      [ | simpl; lia ].
    pose proof (locates_navigate E self a s2) as H3. unfold same_locates in H3.
    pose proof (grows_locate_calls _ _ (Hgrow rest (snd (navigate E self a s2)))).
    lia.
  - pose proof (grows_locate_calls _ _ (Hgrow rest s1)). lia.
Qed.

(** C7.  At an attempt that is not the last, when the vision service
    suggests an action other than "not possible" and the dispatcher returns
    [false] for it, the loop goes on with the next attempt from the state
    the failed dispatch left, and so calls [locate] again. *)
Theorem navigation_failure_continues step max_retries st attempt s1 a s2 s3 :
  0 <= attempt < max_retries - 1 ->
  locate E path step st = (None, s1) ->
  get_navigation_suggestion E path step s1 = (Some a, s2) ->
  Py.contains "not possible" a = false ->
  perform_action E (device self) a None
                 (snd (tracker Stats.record_navigation s2)) = (false, s3) ->
  locate_loop E self step max_retries (attempts_from attempt max_retries) st
  = locate_loop E self step max_retries
                (attempts_from (attempt + 1) max_retries) s3
  /\
  (locate_calls st + 2
   <= locate_calls (snd (locate_loop E self step max_retries
                                     (attempts_from attempt max_retries) st)))%nat.
Proof.
  intros Ha HL HN Hnp Hfail.
  assert (Hstep :
            locate_loop E self step max_retries (attempts_from attempt max_retries) st
            = locate_loop E self step max_retries
                          (attempts_from (attempt + 1) max_retries) s3).
  { rewrite (attempts_from_cons attempt) by lia.
    rewrite locate_loop_cons, HL.
    replace (attempt <? max_retries - 1) with true by (symmetry; apply Z.ltb_lt; lia).
    rewrite HN, (suggestion_truthy _ _ _ _ _ HN), Hnp. simpl.
    unfold navigate.
    rewrite (bind_run _ _ s2 tt (snd (tracker Stats.record_navigation s2)) eq_refl).
    rewrite (bind_run _ _ _ false s3 Hfail). reflexivity. }
  split; [ exact Hstep | ].
  rewrite Hstep, (attempts_from_cons (attempt + 1)) by lia.
  pose proof (locate_loop_first_call step max_retries (attempt + 1)
                (attempts_from (attempt + 1 + 1) max_retries) s3) as Hnext.
  pose proof (locate_counts_once E path step st) as H1. rewrite HL in H1.
  pose proof (locates_suggestion E path step s1) as H2. rewrite HN in H2.
  pose proof (locates_perform_action E (device self) a None
                (snd (tracker Stats.record_navigation s2))) as H3.
  rewrite Hfail in H3. unfold same_locates in H2, H3. simpl in H1, H2, H3.
  unfold locate_calls in H3. simpl in H3. fold (locate_calls s2) in H3.
  fold (locate_calls s3) in H3.
  lia.
Qed.

End Navigation.

Lemma intelligent_locate_bounded_witness :
  fst (_intelligent_locate hopeless_env default_agent
                           "click nonexistent button" 3 (fresh 0)) = None /\
  locate_calls (snd (_intelligent_locate hopeless_env default_agent
                                         "click nonexistent button" 3 (fresh 0)))
  = 1%nat.
Proof.
  apply (intelligent_locate_bounded hopeless_env default_agent
                                    "click nonexistent button" 3 (fresh 0)).
  - intros [w s p t]. reflexivity.
  - intros [w s p t]. vm_compute. reflexivity.
  - lia.
Defined.

Lemma navigation_failure_continues_witness :
  exists s3,
    locate_loop click_env default_agent "click nonexistent button" 3
                (attempts_from 0 3) (fresh 0)
    = locate_loop click_env default_agent "click nonexistent button" 3
                  (attempts_from (0 + 1) 3) s3
    /\
    (locate_calls (fresh 0) + 2
     <= locate_calls
          (snd (locate_loop click_env default_agent "click nonexistent button" 3
                            (attempts_from 0 3) (fresh 0))))%nat.
Proof.
  pose (s1 := snd (locate click_env "current_screen.png"
                          "click nonexistent button" (fresh 0))).
  pose (s2 := snd (get_navigation_suggestion click_env "current_screen.png"
                     "click nonexistent button" s1)).
  pose (s3 := snd (perform_action click_env default_device "click settings" None
                     (snd (tracker Stats.record_navigation s2)))).
  exists s3.
  apply (navigation_failure_continues click_env default_agent
           "click nonexistent button" 3 (fresh 0) 0 s1 "click settings" s2 s3).
  - lia.
  - reflexivity.
  - reflexivity.
  - reflexivity.
  - reflexivity.
Defined.

(** ** Pixel conversion *)

Lemma py_int_floor q : (0 <= q)%Q -> py_int q = Qfloor q.
Proof.
  destruct q as [n d]. unfold Qle, py_int, Qfloor. simpl. intro H.
  apply Z.quot_div_nonneg; lia.
Qed.

(** The double nearest to 0.3, which is 5404319552844595 / 2^54. *)
Definition three_tenths : Q := 5404319552844595 # 18014398509481984.

Example three_tenths_is_a_float :
  Binary64.representable three_tenths /\ Binary64.round (3 # 10) = Num three_tenths.
Proof. repeat apply conj; vm_compute; reflexivity. Qed.

(** The product is rounded before [int] truncates it: at the double 0.3 and
    a width of 1080 the exact product lies below 324 and its floor is 323,
    but the nearest double is 324.0 and the pixel returned is 324. *)
Example convert_rounds_before_truncating :
  Qfloor (three_tenths * inject_Z (screen_width default_device)) = 323 /\
  Binary64.mul (Num three_tenths) (Num 1080) = Num 324 /\
  convert_normalized_to_pixels default_device (Num three_tenths) (Num 0)
  = Some (324, 0).
Proof. repeat apply conj; vm_compute; reflexivity. Qed.

(** A coordinate in [0,1] scaled by a positive size below 2^53: the rounded
    product lies between the integers around the exact one, and within the
    size; it stays below the size when the coordinate is a float below 1. *)
Lemma scaled_in_range (x : Q) (n : Z) :
  (0 <= x)%Q -> (x <= 1)%Q -> 0 < n < 2 ^ 53 ->
  exists product,
    Binary64.mul (Num x) (Num (inject_Z n)) = Num product /\
    scaled (Num x) n = Some (Qfloor product) /\
    Qfloor (x * inject_Z n) <= Qfloor product <= Qfloor (x * inject_Z n) + 1 /\
    0 <= Qfloor product <= n /\
    (Binary64.representable x -> (x < 1)%Q -> Qfloor product < n).
Proof.
  intros H0 H1 Hn.
  set (q := (x * inject_Z n)%Q).
  assert (Hz : (0 <= inject_Z n)%Q) by (unfold Qle; simpl; lia).
  assert (Hq0 : (0 <= q)%Q) by (apply Qmult_le_0_compat; assumption).
  assert (Hqn : (q <= inject_Z n)%Q).
  { unfold q. rewrite <- (Qmult_1_l (inject_Z n)) at 2.
    apply Qmult_le_compat_r; assumption. }
  assert (Hq53 : (q < inject_Z (2 ^ 53))%Q).
  { eapply Qle_lt_trans; [ exact Hqn | ]. rewrite <- Zlt_Qlt. lia. }
  assert (Hf0 : 0 <= Qfloor q).
  { change 0 with (Qfloor 0). apply Qfloor_resp_le. exact Hq0. }
  assert (Hfn : Qfloor q <= n).
  { rewrite <- (Qfloor_Z n). apply Qfloor_resp_le. exact Hqn. }
  set (hi := Z.min n (Qfloor q + 1)).
  assert (Hhi : (q <= inject_Z hi)%Q).
  { unfold hi. destruct (Z.min_spec n (Qfloor q + 1)) as [[_ ->] | [_ ->]].
    - exact Hqn.
    - apply Qlt_le_weak, Qlt_floor. }
  destruct (round_between q (Qfloor q) hi Hq0 Hq53 (Qfloor_le q) Hhi)
    as (r & Hr & Hlo & Hup).
  assert (Hr0 : (0 <= r)%Q).
  { eapply Qle_trans; [ | exact Hlo ].
    change (inject_Z 0 <= inject_Z (Qfloor q))%Q. rewrite <- Zle_Qle. exact Hf0. }
  assert (Hflo : Qfloor q <= Qfloor r).
  { rewrite <- (Qfloor_Z (Qfloor q)). apply Qfloor_resp_le. exact Hlo. }
  assert (Hfup : Qfloor r <= hi).
  { rewrite <- (Qfloor_Z hi). apply Qfloor_resp_le. exact Hup. }
  exists r. split; [ exact Hr | ]. split; [ | split; [ | split ] ].
  - unfold scaled, Binary64.of_int.
    rewrite round_int_small by lia.
    change (Binary64.mul (Num x) (Num (inject_Z n))) with (Binary64.round q).
    rewrite Hr, (py_int_floor r Hr0). reflexivity.
  - unfold hi in Hfup. lia.
  - unfold hi in Hfup. lia.
  - intros Hrep Hlt.
    destruct (scaled_below x n Hrep H0 Hlt Hn) as (r' & Hr' & Hbelow).
    fold q in Hr'. rewrite Hr in Hr'. injection Hr' as <-.
    rewrite Zlt_Qlt. eapply Qle_lt_trans; [ apply Qfloor_le | exact Hbelow ].
Qed.

(** C3, as stated, fails at the right and bottom edges: the normalized
    point (1, 1) on a 1080 x 2400 screen is sent to (1080, 2400), outside
    [0, 1080) x [0, 2400). *)
Lemma convert_edge_outside_screen :
  (0 <= 1 <= 1)%Q /\
  0 < screen_width default_device /\ 0 < screen_height default_device /\
  convert_normalized_to_pixels default_device (Num 1) (Num 1) = Some (1080, 2400) /\
  ~ (exists pixel_x pixel_y,
        convert_normalized_to_pixels default_device (Num 1) (Num 1)
        = Some (pixel_x, pixel_y) /\
        0 <= pixel_x < screen_width default_device /\
        0 <= pixel_y < screen_height default_device).
Proof.
  split; [ split; discriminate | ].
  split; [ reflexivity | ]. split; [ reflexivity | ].
  split; [ vm_compute; reflexivity | ].
  intros (pixel_x & pixel_y & Heq & Hx & Hy).
  vm_compute in Heq. inversion Heq; subst. simpl in Hx. lia.
Qed.

(** C3, amended.  For normalized coordinates in [0,1] and positive screen
    dimensions W and H below 2^53, the conversion returns the integer parts
    of the two binary64 products, x W and y H each rounded to the nearest
    double.  Each is the floor of the exact product or that floor plus one,
    and lies in the closed range [0, W], respectively [0, H]; it lies below
    W, respectively H, when the coordinate is a float below 1. *)
Theorem convert_within_closed_screen (dc : DeviceController) (x y : Q) :
  (0 <= x)%Q -> (x <= 1)%Q -> (0 <= y)%Q -> (y <= 1)%Q ->
  0 < screen_width dc < 2 ^ 53 -> 0 < screen_height dc < 2 ^ 53 ->
  exists product_x product_y,
    Binary64.mul (Num x) (Num (inject_Z (screen_width dc))) = Num product_x /\
    Binary64.mul (Num y) (Num (inject_Z (screen_height dc))) = Num product_y /\
    let pixel_x := Qfloor product_x in
    let pixel_y := Qfloor product_y in
    convert_normalized_to_pixels dc (Num x) (Num y) = Some (pixel_x, pixel_y) /\
    Qfloor (x * inject_Z (screen_width dc)) <= pixel_x
      <= Qfloor (x * inject_Z (screen_width dc)) + 1 /\
    Qfloor (y * inject_Z (screen_height dc)) <= pixel_y
      <= Qfloor (y * inject_Z (screen_height dc)) + 1 /\
    0 <= pixel_x <= screen_width dc /\
    0 <= pixel_y <= screen_height dc /\
    (Binary64.representable x -> (x < 1)%Q -> pixel_x < screen_width dc) /\
    (Binary64.representable y -> (y < 1)%Q -> pixel_y < screen_height dc).
Proof.
  intros Hx0 Hx1 Hy0 Hy1 Hw Hh.
  destruct (scaled_in_range x (screen_width dc) Hx0 Hx1 Hw)
    as (product_x & Hmx & Hsx & Hfx & Hbx & Hlx).
  destruct (scaled_in_range y (screen_height dc) Hy0 Hy1 Hh)
    as (product_y & Hmy & Hsy & Hfy & Hby & Hly).
  exists product_x, product_y.
  split; [ exact Hmx | ]. split; [ exact Hmy | ].
  cbv zeta. unfold convert_normalized_to_pixels. rewrite Hsx, Hsy.
  repeat split; try apply Hfx; try apply Hfy; try apply Hbx; try apply Hby;
    assumption.
Qed.

Lemma convert_within_closed_screen_witness :
  exists product_x product_y,
    Binary64.mul (Num three_tenths) (Num (inject_Z 1080)) = Num product_x /\
    Binary64.mul (Num 1) (Num (inject_Z 2400)) = Num product_y /\
    convert_normalized_to_pixels default_device (Num three_tenths) (Num 1)
    = Some (Qfloor product_x, Qfloor product_y) /\
    Qfloor (three_tenths * inject_Z 1080) <= Qfloor product_x
      <= Qfloor (three_tenths * inject_Z 1080) + 1 /\
    Qfloor (1 * inject_Z 2400) <= Qfloor product_y
      <= Qfloor (1 * inject_Z 2400) + 1 /\
    0 <= Qfloor product_x <= 1080 /\
    0 <= Qfloor product_y <= 2400 /\
    (Binary64.representable three_tenths -> (three_tenths < 1)%Q ->
     Qfloor product_x < 1080) /\
    (Binary64.representable 1 -> (1 < 1)%Q -> Qfloor product_y < 2400).
Proof.
  refine (convert_within_closed_screen default_device three_tenths 1 _ _ _ _ _ _);
    try discriminate; split; reflexivity.
Defined.

(** ** The dispatcher *)

Section Dispatch.

Context {W : Type} (E : Env W) (dc : DeviceController).

(** C9.  For the step "type hello world and press enter" the extracted
    text is "hello world", and the dispatcher makes one driver call: it
    sends that text as one string, and returns whether the call succeeded. *)
Theorem type_step_sends_extracted_text pc st :
  let step := "type hello world and press enter" in
  _extract_text step = Some "hello world" /\
  trace (snd (perform_action E dc step pc st))
  = EvSendKeys "hello world" :: EvPerformAction step pc :: trace st /\
  fst (perform_action E dc step pc st)
  = fst (drv_send_keys E "hello world" (world st)).
Proof.
  intro step. split; [ reflexivity | ].
  assert (Hrun : perform_action E dc step pc st
                 = type_text E "hello world"
                             (mkState (world st) (stats st) (past st)
                                      (EvPerformAction step pc :: trace st)))
    by reflexivity.
  rewrite Hrun. unfold type_text, bind, emit, ask. cbv beta iota. simpl.
  destruct (drv_send_keys E "hello world" (world st)) as [sent w].
  split; reflexivity.
Qed.

(** C5, at its failing input.  The step "press enter" falls into the typing
    branch, which finds no text to type: the dispatcher returns [false] and
    calls no primitive at all. *)
Theorem press_enter_presses_nothing pc st :
  perform_action E dc "press enter" pc st
  = (false,
     mkState (world st) (stats st) (past st)
             (EvPerformAction "press enter" pc :: trace st)).
Proof. reflexivity. Qed.

(** The branch that would press the enter key is never taken: no step
    makes the dispatcher press it. *)
Lemma enter_key_never_pressed step pc st :
  enter_presses (snd (perform_action E dc step pc st)) = enter_presses st.
Proof.
  unfold perform_action, dispatch, bind, emit. cbv beta iota.
  destruct (Py.contains "type" (Py.lower step) || Py.contains "input" (Py.lower step)
            || Py.contains "enter" (Py.lower step)) eqn:Htyping.
  - destruct (_extract_text step) as [text |]; [ | reflexivity ].
    destruct (Py.truthy text); [ | reflexivity ].
    unfold type_text, bind, emit, ask. simpl.
    destruct (drv_send_keys E text (world st)). reflexivity.
  - apply orb_false_elim in Htyping. destruct Htyping as [_ Henter].
    rewrite Henter.
    destruct (Py.contains "scroll" (Py.lower step) || Py.contains "swipe" (Py.lower step)).
    { unfold scroll, swipe_call, bind, emit, ask.
      destruct (Py.contains "up" (Py.lower step)); simpl;
        [ destruct (drv_swipe E _ _ _ _ (world st)); reflexivity | ].
      destruct (Py.contains "left" (Py.lower step)); simpl;
        [ destruct (drv_swipe E _ _ _ _ (world st)); reflexivity | ].
      destruct (Py.contains "right" (Py.lower step)); simpl;
        destruct (drv_swipe E _ _ _ _ (world st)); reflexivity. }
    destruct (Py.contains "press" (Py.lower step) || Py.contains "back" (Py.lower step)).
    { unfold press_key, bind, emit, ask.
      destruct (Py.contains "back" (Py.lower step)); simpl;
        [ destruct (drv_press E _ (world st)); reflexivity | ].
      destruct (Py.contains "home" (Py.lower step)); simpl;
        [ destruct (drv_press E _ (world st)); reflexivity | reflexivity ]. }
    destruct (Py.contains "wait" (Py.lower step)).
    { unfold wait, bind, emit, ask. simpl.
      destruct (time_sleep E _ (world st)) as [[|] w]; reflexivity. }
    destruct pc as [[x y] |]; [ | reflexivity ].
    unfold click, bind, emit, ask. simpl.
    destruct (drv_click E x y (world st)). reflexivity.
Qed.

End Dispatch.

(** ** Recording of action results *)

Section Recording.

Context {W : Type} (E : Env W).

Definition same_actions (st st' : State W) : Prop :=
  action_counters (stats st') = action_counters (stats st).

(** A tracker method that leaves the three action counters alone. *)
Definition spares_actions (f : StatsTracker -> StatsTracker) : Prop :=
  forall s, action_counters (f s) = action_counters s.

Lemma same_actions_refl st : same_actions st st.
Proof. reflexivity. Qed.

Lemma same_actions_trans a b c :
  same_actions a b -> same_actions b c -> same_actions a c.
Proof. unfold same_actions. congruence. Qed.

Lemma same_actions_emit e : any_event e -> keeps same_actions (@emit W e).
Proof. intros _ st. reflexivity. Qed.

Lemma same_actions_ask A (op : W -> A * W) : keeps same_actions (ask op).
Proof. intro st. unfold ask. destruct (op (world st)). reflexivity. Qed.

Lemma same_actions_tracker f : spares_actions f -> keeps same_actions (@tracker W f).
Proof. intros Hf st. apply Hf. Qed.

Lemma detection_spares_actions src : spares_actions (Stats.record_detection src).
Proof.
  intro s. unfold Stats.record_detection.
  destruct (String.eqb src "moondream"); [ reflexivity | ].
  destruct (String.eqb src "uiautomator"); reflexivity.
Qed.

Ltac actions_frame L :=
  first [ eapply L with (emit_ok := any_event) (tracker_ok := spares_actions)
        | eapply L with (emit_ok := any_event) ];
  first [ exact same_actions_refl | exact same_actions_trans
        | exact same_actions_emit | exact same_actions_ask
        | exact same_actions_tracker | exact detection_spares_actions
        | exact I | intros; exact I | intro s; reflexivity ].

Lemma actions_capture_screen path : keeps same_actions (capture_screen E path).
Proof. actions_frame @keeps_capture_screen. Qed.

Lemma actions_perform_action dc step pc :
  keeps same_actions (perform_action E dc step pc).
Proof. actions_frame @keeps_perform_action. Qed.

Lemma actions_intelligent_locate self step max_retries :
  keeps same_actions (_intelligent_locate E self step max_retries).
Proof. actions_frame @keeps_intelligent_locate. Qed.

Lemma actions_basic_locate self step :
  keeps same_actions (_basic_locate E self step).
Proof. actions_frame @keeps_basic_locate. Qed.

Variable self : VisionAgent.

Lemma record_action_counters b s s' :
  action_counters s' = action_counters s ->
  action_counters (Stats.record_action b s')
  = action_counters (Stats.record_action b s).
Proof.
  unfold action_counters. simpl. intro H. inversion H as [[H1 H2 H3]].
  rewrite H1, H2, H3. reflexivity.
Qed.

(** Steps 3 and 4 record exactly the flag they return. *)
Lemma act_and_record_counts step coords st :
  action_counters (stats (snd (act_and_record E self step coords st)))
  = action_counters
      (Stats.record_action (fst (act_and_record E self step coords st)) (stats st)).
Proof.
  assert (Hd : forall pc,
             let m := (success <- perform_action E (device self) step pc ;;
                       tracker (Stats.record_action success) ;; ret success) in
             action_counters (stats (snd (m st)))
             = action_counters (Stats.record_action (fst (m st)) (stats st))).
  { intros pc m. unfold m, bind.
    pose proof (actions_perform_action (device self) step pc st) as Hp.
    destruct (perform_action E (device self) step pc st) as [success s1].
    simpl in *. apply record_action_counters. exact Hp. }
  unfold act_and_record.
  destruct coords as [c |]; [ | apply Hd ].
  destruct (convert_normalized_to_pixels _ _ _); [ apply Hd | reflexivity ].
Qed.

(** When the screenshot is taken, [_execute_step] records one action
    result, the flag it returns. *)
Lemma captured_step_records_once step st :
  fst (drv_screenshot E (screenshot_path self) (world st)) = true ->
  action_counters (stats (snd (_execute_step E self step st)))
  = action_counters
      (Stats.record_action (fst (_execute_step E self step st)) (stats st)).
Proof.
  intro Hshot. rewrite execute_step_run, Hshot. cbv zeta.
  set (s0 := mkState (snd (drv_screenshot E (screenshot_path self) (world st)))
                     (stats st) (past st)
                     (EvScreenshot (screenshot_path self)
                        :: EvExecuteStep step :: trace st)).
  change (stats st) with (stats s0).
  unfold locate_then_act.
  destruct (Py.any_in _ (Py.lower step)); [ apply act_and_record_counts | ].
  assert (Hloc : same_actions
                   s0
                   (snd ((if intelligent_mode self
                          then _intelligent_locate E self step 3
                          else _basic_locate E self step) s0))).
  { destruct (intelligent_mode self);
      [ apply actions_intelligent_locate | apply actions_basic_locate ]. }
  unfold bind.
  destruct ((if intelligent_mode self
             then _intelligent_locate E self step 3
             else _basic_locate E self step) s0) as [coords s1].
  unfold same_actions in Hloc. simpl in Hloc.
  assert (Hact : forall coords',
             action_counters (stats (snd (act_and_record E self step coords' s1)))
             = action_counters
                 (Stats.record_action
                    (fst (act_and_record E self step coords' s1)) (stats s0))).
  { intro coords'. rewrite act_and_record_counts.
    apply record_action_counters. exact Hloc. }
  destruct coords as [c |]; [ apply Hact | ].
  destruct (negb (Py.contains "type" (Py.lower step))); [ | apply Hact ].
  simpl. apply record_action_counters. exact Hloc.
Qed.

(** C4, at its failing input.  When the screenshot cannot be taken,
    [_execute_step] returns [false] and leaves the tracker as it was: the
    failure is not recorded. *)
Theorem failed_capture_is_not_recorded step st :
  fst (drv_screenshot E (screenshot_path self) (world st)) = false ->
  fst (_execute_step E self step st) = false /\
  stats (snd (_execute_step E self step st)) = stats st /\
  actions_performed (stats (snd (_execute_step E self step st)))
  = actions_performed (stats st).
Proof.
  intro Hshot. rewrite execute_step_run, Hshot. repeat split.
Qed.

End Recording.

Lemma failed_capture_is_not_recorded_witness :
  fst (_execute_step blind_env default_agent "click search icon" (fresh 0)) = false /\
  actions_performed
    (stats (snd (_execute_step blind_env default_agent "click search icon" (fresh 0))))
  = 0.
Proof.
  destruct (failed_capture_is_not_recorded blind_env default_agent
              "click search icon" (fresh 0) eq_refl) as (Hret & _ & Hcount).
  split; [ exact Hret | exact Hcount ].
Defined.

(** ** Steps whose target is not found *)

Section Unlocated.

Context {W : Type} (E : Env W) (self : VisionAgent).

(** C10.  For a step that needs a target, when the screen is captured and
    the location, basic or intelligent, returns nothing: a step whose
    lowered text contains "type" is still handed to [perform_action]
    without coordinates, and its result is recorded and returned; any other
    step fails at once, recorded as a failure, with nothing dispatched. *)
Theorem unlocated_step_dispatch step st s1 :
  let path := screenshot_path self in
  let s0 := mkState (snd (drv_screenshot E path (world st)))
                    (stats st) (past st)
                    (EvScreenshot path :: EvExecuteStep step :: trace st) in
  fst (drv_screenshot E path (world st)) = true ->
  Py.any_in ["scroll"; "swipe"; "back"; "home"; "wait"] (Py.lower step) = false ->
  (if intelligent_mode self
   then _intelligent_locate E self step 3
   else _basic_locate E self step) s0 = (None, s1) ->
  (Py.contains "type" (Py.lower step) = true ->
   _execute_step E self step st
   = (success <- perform_action E (device self) step None ;;
      tracker (Stats.record_action success) ;;
      ret success) s1
   /\ exists newer,
       trace (snd (_execute_step E self step st))
       = newer ++ EvPerformAction step None :: trace s1)
  /\
  (Py.contains "type" (Py.lower step) = false ->
   _execute_step E self step st
   = (false,
      mkState (world s1) (Stats.record_action false (stats s1))
              (stats s1 :: past s1) (trace s1))).
Proof.
  intros path s0 Hshot Hvisual Hnone.
  rewrite execute_step_run. fold path. rewrite Hshot. cbv zeta. fold s0.
  unfold locate_then_act. rewrite Hvisual.
  rewrite (bind_run _ _ s0 None s1 Hnone).
  split; intro Htype; rewrite Htype; simpl.
  - split; [ reflexivity | ].
    unfold act_and_record, bind.
    destruct (perform_action_logged E (device self) step None s1) as [newer Hn].
    destruct (perform_action E (device self) step None s1) as [success s2].
    exists newer. exact Hn.
  - reflexivity.
Qed.

End Unlocated.

Lemma unlocated_step_dispatch_witness :
  fst (_execute_step hopeless_env default_agent "type hello" (fresh 0)) = true /\
  fst (_execute_step hopeless_env default_agent "click nonexistent button" (fresh 0))
  = false.
Proof.
  split.
  - pose (s0 := mkState 1%nat Stats.init []
                        [EvScreenshot "current_screen.png"; EvExecuteStep "type hello"]).
    pose (s1 := snd (_intelligent_locate hopeless_env default_agent "type hello" 3 s0)).
    assert (Hnone : _intelligent_locate hopeless_env default_agent "type hello" 3 s0
                    = (None, s1)) by (vm_compute; reflexivity).
    destruct (unlocated_step_dispatch hopeless_env default_agent "type hello"
                (fresh 0) s1 eq_refl eq_refl Hnone) as [Htype _].
    destruct (Htype eq_refl) as [Hrun _].
    rewrite Hrun. vm_compute. reflexivity.
  - pose (s0 := mkState 1%nat Stats.init []
                        [EvScreenshot "current_screen.png";
                         EvExecuteStep "click nonexistent button"]).
    pose (s1 := snd (_intelligent_locate hopeless_env default_agent
                       "click nonexistent button" 3 s0)).
    assert (Hnone : _intelligent_locate hopeless_env default_agent
                      "click nonexistent button" 3 s0
                    = (None, s1)) by (vm_compute; reflexivity).
    destruct (unlocated_step_dispatch hopeless_env default_agent
                "click nonexistent button" (fresh 0) s1 eq_refl eq_refl Hnone)
      as [_ Hother].
    rewrite (Hother eq_refl). reflexivity.
Defined.

(** ** A run of a test case *)

Section Run.

Context {W : Type} (E : Env W) (self : VisionAgent).

Definition same_attempted (st st' : State W) : Prop :=
  attempted st' = attempted st.

Definition not_step (e : Event) : Prop := step_of e = [].

Lemma same_attempted_refl st : same_attempted st st.
Proof. reflexivity. Qed.

Lemma same_attempted_trans a b c :
  same_attempted a b -> same_attempted b c -> same_attempted a c.
Proof. unfold same_attempted. congruence. Qed.

Lemma same_attempted_emit e : not_step e -> keeps same_attempted (@emit W e).
Proof.
  intros He st. unfold same_attempted, attempted. simpl.
  rewrite He. reflexivity.
Qed.

Lemma same_attempted_ask A (op : W -> A * W) : keeps same_attempted (ask op).
Proof. intro st. unfold ask. destruct (op (world st)). reflexivity. Qed.

Lemma same_attempted_tracker f :
  any_tracker f -> keeps same_attempted (@tracker W f).
Proof. intros _ st. reflexivity. Qed.

Lemma external_not_step e : external e = true -> not_step e.
Proof. destruct e; simpl; intro H; try reflexivity; discriminate. Qed.

Ltac attempted_frame L :=
  first [ eapply L with (emit_ok := not_step) (tracker_ok := any_tracker)
        | eapply L with (emit_ok := not_step) ];
  first [ exact same_attempted_refl | exact same_attempted_trans
        | exact same_attempted_emit | exact same_attempted_ask
        | exact same_attempted_tracker | exact external_not_step
        | exact I | intros; exact I | intros; reflexivity ].

Lemma attempted_execute_body step : keeps same_attempted (execute_body E self step).
Proof. attempted_frame @keeps_execute_body. Qed.

Lemma attempted_pause seconds : keeps same_attempted (pause E seconds).
Proof. attempted_frame @keeps_pause. Qed.

Lemma attempted_start_test : keeps same_attempted (start_test E).
Proof. attempted_frame @keeps_start_test. Qed.

Lemma attempted_end_test : keeps same_attempted (end_test E).
Proof. attempted_frame @keeps_end_test. Qed.

(** One call of [_execute_step] is one more step attempted. *)
Lemma execute_step_attempted step st :
  attempted (snd (_execute_step E self step st)) = attempted st ++ [step].
Proof.
  unfold _execute_step.
  rewrite (bind_run (emit (EvExecuteStep step)) _ st tt
             (mkState (world st) (stats st) (past st)
                      (EvExecuteStep step :: trace st)) eq_refl).
  rewrite (attempted_execute_body step _). reflexivity.
Qed.

(** The loop passes over a prefix of steps that all succeed. *)
Lemma steps_loop_pass pre rest completed st stk :
  all_pass E self pre st stk ->
  steps_loop E self (pre ++ rest) completed st
  = steps_loop E self rest (completed + Z.of_nat (List.length pre)) stk
  /\ attempted stk = attempted st ++ pre.
Proof.
  intro Hpass. revert completed.
  induction Hpass as [st | step more st st1 st2 Hstep Hmore IH]; intro completed.
  - simpl. rewrite Z.add_0_r, app_nil_r. split; reflexivity.
  - simpl app. simpl steps_loop.
    rewrite (bind_run _ _ st true st1 Hstep).
    destruct (pause E (1 # 2) st1) as [u st1'] eqn:Hpause.
    rewrite (bind_run _ _ st1 u st1' Hpause).
    simpl in IH. destruct (IH (completed + 1)) as [Hloop Hatt].
    split.
    + rewrite Hloop. f_equal. simpl List.length. lia.
    + rewrite Hatt.
      pose proof (attempted_pause (1 # 2) st1) as Hp.
      rewrite Hpause in Hp. unfold same_attempted in Hp. simpl in Hp.
      rewrite Hp.
      pose proof (execute_step_attempted step st) as He.
      rewrite Hstep in He. simpl in He.
      rewrite He, <- app_assoc. reflexivity.
Qed.

(** The result and the final state of [run_test_case], given what its loop
    returns. *)
Lemma run_test_case_run name all st completed failed stl :
  steps_loop E self all 0 (snd (start_test E st)) = ((completed, failed), stl) ->
  run_test_case E self (mkTest name (Some all)) st
  = (mkResult (if completed =? Z.of_nat (List.length all)
               then "success" else "failed")
              completed (Z.of_nat (List.length all)) failed
              (get_summary (stats (snd (end_test E stl)))),
     snd (end_test E stl)).
Proof.
  intro Hloop. unfold run_test_case. simpl steps.
  destruct (start_test E st) as [u s0] eqn:Hstart.
  rewrite (bind_run _ _ st u s0 Hstart).
  simpl in Hloop. rewrite (bind_run _ _ s0 _ stl Hloop).
  destruct (end_test E stl) as [v s1] eqn:Hend.
  rewrite (bind_run _ _ stl v s1 Hend).
  reflexivity.
Qed.

(** C2.  When the steps before step k all succeed and step k fails, the
    result reports k-1 completed steps, step k as the failed step and
    status "failed", and the steps handed to [_execute_step] are those up
    to step k and no other.  When all N steps succeed, the result reports
    N completed steps, status "success" and no failed step. *)
Theorem run_reports_first_failure name st :
  (forall pre step post stk stf,
      all_pass E self pre (snd (start_test E st)) stk ->
      _execute_step E self step stk = (false, stf) ->
      let r := run_test_case E self (mkTest name (Some (pre ++ step :: post))) st in
      status (fst r) = "failed" /\
      completed_steps (fst r) = Z.of_nat (List.length pre) /\
      failed_step (fst r) = Some step /\
      total_steps (fst r) = Z.of_nat (List.length (pre ++ step :: post)) /\
      attempted (snd r) = attempted st ++ pre ++ [step])
  /\
  (forall all stn,
      all_pass E self all (snd (start_test E st)) stn ->
      let r := run_test_case E self (mkTest name (Some all)) st in
      status (fst r) = "success" /\
      completed_steps (fst r) = Z.of_nat (List.length all) /\
      failed_step (fst r) = None /\
      attempted (snd r) = attempted st ++ all).
Proof.
  pose proof (attempted_start_test st) as Hs0. unfold same_attempted in Hs0.
  split.
  - intros pre step post stk stf Hpass Hfail r.
    destruct (steps_loop_pass pre (step :: post) 0 _ _ Hpass) as [Hloop Hatt].
    simpl steps_loop in Hloop.
    rewrite (bind_run _ _ stk false stf Hfail) in Hloop.
    unfold r. rewrite (run_test_case_run name _ st _ _ _ Hloop). simpl.
    replace (Z.of_nat (List.length pre)
             =? Z.of_nat (List.length (pre ++ step :: post))) with false.
    2:{ symmetry. apply Z.eqb_neq. rewrite length_app. simpl. lia. }
    repeat split.
    rewrite (attempted_end_test stf).
    pose proof (execute_step_attempted step stk) as He.
    rewrite Hfail in He. simpl in He.
    rewrite He, Hatt, Hs0, <- app_assoc. reflexivity.
  - intros all stn Hpass r.
    destruct (steps_loop_pass all [] 0 _ _ Hpass) as [Hloop Hatt].
    rewrite app_nil_r in Hloop. simpl in Hloop.
    unfold r. rewrite (run_test_case_run name _ st _ _ _ Hloop). simpl.
    rewrite Z.eqb_refl. repeat split.
    rewrite (attempted_end_test stn), Hatt, Hs0. reflexivity.
Qed.

End Run.

Lemma run_reports_first_failure_witness :
  let test := mkTest None (Some (["scroll down"]
                                   ++ "click nonexistent button" :: ["scroll up"])) in
  let r := run_test_case hopeless_env default_agent test (fresh 0) in
  status (fst r) = "failed" /\
  completed_steps (fst r) = 1 /\
  failed_step (fst r) = Some "click nonexistent button" /\
  total_steps (fst r) = 3 /\
  attempted (snd r) = ["scroll down"; "click nonexistent button"].
Proof.
  pose (begun := snd (start_test hopeless_env (fresh 0))).
  pose (st1 := snd (_execute_step hopeless_env default_agent "scroll down" begun)).
  pose (stk := snd (pause hopeless_env (1 # 2) st1)).
  pose (stf := snd (_execute_step hopeless_env default_agent
                                  "click nonexistent button" stk)).
  apply (proj1 (run_reports_first_failure hopeless_env default_agent None (fresh 0))
               ["scroll down"] "click nonexistent button" ["scroll up"] stk stf).
  - apply (pass_cons hopeless_env default_agent "scroll down" [] begun st1 stk).
    + vm_compute. reflexivity.
    + apply pass_nil.
  - vm_compute. reflexivity.
Defined.

(** ** The counters of the tracker *)

Section Counters.

Context {W : Type} (E : Env W).

(** Every value the tracker has held is consistent, and the values never
    decrease. *)
Definition history_ok (st : State W) : Prop :=
  Forall consistent (tracker_values st) /\ rising (tracker_values st).

Definition keeps_history (st st' : State W) : Prop :=
  history_ok st -> history_ok st'.

(** A tracker method that keeps the counters consistent and does not
    decrease them. *)
Definition sound_method (f : StatsTracker -> StatsTracker) : Prop :=
  (forall s, consistent s -> consistent (f s)) /\
  (forall s, counters_le s (f s)).

Lemma keeps_history_refl st : keeps_history st st.
Proof. intro H. exact H. Qed.

Lemma keeps_history_trans a b c :
  keeps_history a b -> keeps_history b c -> keeps_history a c.
Proof. unfold keeps_history. auto. Qed.

Lemma keeps_history_emit e : any_event e -> keeps keeps_history (@emit W e).
Proof. intros _ st H. exact H. Qed.

Lemma keeps_history_ask A (op : W -> A * W) : keeps keeps_history (ask op).
Proof. intros st H. unfold ask. destruct (op (world st)). exact H. Qed.

Lemma keeps_history_tracker f :
  sound_method f -> keeps keeps_history (@tracker W f).
Proof.
  intros [Hcons Hle] st [Hall Hrise].
  unfold history_ok, tracker_values in *. simpl.
  split.
  - constructor; [ | exact Hall ].
    apply Hcons. inversion Hall; assumption.
  - split; [ apply Hle | exact Hrise ].
Qed.

Lemma counters_le_refl s : counters_le s s.
Proof. unfold counters_le. lia. Qed.

Lemma sound_untouched f :
  (forall s, action_counters (f s) = action_counters s) -> sound_method f.
Proof.
  intro Hf. split; intro s.
  - unfold consistent. specialize (Hf s). unfold action_counters in Hf.
    inversion Hf as [[H1 H2 H3]]. rewrite H1, H2, H3. auto.
  - specialize (Hf s). unfold action_counters in Hf.
    inversion Hf as [[H1 H2 H3]]. unfold counters_le. rewrite H1, H2, H3. lia.
Qed.

Lemma sound_record_action b : sound_method (Stats.record_action b).
Proof.
  split; intro s.
  - unfold consistent. destruct b; simpl; lia.
  - unfold counters_le. destruct b; simpl; lia.
Qed.

Lemma sound_record_detection src : sound_method (Stats.record_detection src).
Proof. apply sound_untouched, detection_spares_actions. Qed.

Ltac history_frame L :=
  first [ eapply L with (emit_ok := any_event) (tracker_ok := sound_method)
        | eapply L with (emit_ok := any_event) ];
  first [ exact keeps_history_refl | exact keeps_history_trans
        | exact keeps_history_emit | exact keeps_history_ask
        | exact keeps_history_tracker
        | exact sound_record_action | exact sound_record_detection
        | exact I | intros; exact I
        | intros; apply sound_untouched; intro; reflexivity ].

Lemma history_execute_step self step :
  keeps keeps_history (_execute_step E self step).
Proof. history_frame @keeps_execute_step. Qed.

Lemma history_run_test_case self test_json :
  keeps keeps_history (run_test_case E self test_json).
Proof. history_frame @keeps_run_test_case. Qed.

(** C6.  Each [record_action] adds one to [actions_performed] and one to
    exactly one of [successful_actions] and [failed_actions]; and along a
    run that starts from consistent counters, every value the tracker
    takes satisfies successful + failed = performed and the three counters
    never decrease. *)
Theorem counters_consistent_and_rising self test_json st :
  (forall success s,
      actions_performed (Stats.record_action success s) = actions_performed s + 1 /\
      successful_actions (Stats.record_action success s)
      = successful_actions s + (if success then 1 else 0) /\
      failed_actions (Stats.record_action success s)
      = failed_actions s + (if success then 0 else 1))
  /\
  (Forall consistent (tracker_values st) ->
   rising (tracker_values st) ->
   let final := snd (run_test_case E self test_json st) in
   Forall consistent (tracker_values final) /\ rising (tracker_values final)).
Proof.
  split.
  - intros success s. destruct success; simpl; repeat split; lia.
  - intros Hall Hrise final.
    apply (history_run_test_case self test_json st). split; assumption.
Qed.

End Counters.

Lemma counters_consistent_and_rising_witness :
  let test := mkTest None (Some ["scroll down"; "click nonexistent button"]) in
  let final := snd (run_test_case hopeless_env default_agent test (fresh 0)) in
  Forall consistent (tracker_values final) /\ rising (tracker_values final).
Proof.
  refine (proj2 (counters_consistent_and_rising hopeless_env default_agent _ (fresh 0))
                _ _).
  - repeat constructor.
  - exact I.
Defined.

(** ** What the dispatcher can do *)

Section DispatchOutcome.

Context {W : Type} (E : Env W) (dc : DeviceController).

Lemma type_text_run text (st : State W) :
  type_text E text st
  = (fst (drv_send_keys E text (world st)),
     mkState (snd (drv_send_keys E text (world st))) (stats st) (past st)
             (EvSendKeys text :: trace st)).
Proof.
  unfold type_text, bind, emit, ask. simpl.
  destruct (drv_send_keys E text (world st)). reflexivity.
Qed.

Lemma swipe_call_run fx fy tx ty (st : State W) :
  swipe_call E fx fy tx ty st
  = (fst (drv_swipe E fx fy tx ty (world st)),
     mkState (snd (drv_swipe E fx fy tx ty (world st))) (stats st) (past st)
             (EvSwipe fx fy tx ty :: trace st)).
Proof.
  unfold swipe_call, bind, emit, ask. simpl.
  destruct (drv_swipe E fx fy tx ty (world st)). reflexivity.
Qed.

Lemma press_key_run key (st : State W) :
  press_key E key st
  = (fst (drv_press E key (world st)),
     mkState (snd (drv_press E key (world st))) (stats st) (past st)
             (EvPress key :: trace st)).
Proof.
  unfold press_key, bind, emit, ask. simpl.
  destruct (drv_press E key (world st)). reflexivity.
Qed.

Lemma click_run x y (st : State W) :
  click E x y st
  = (fst (drv_click E x y (world st)),
     mkState (snd (drv_click E x y (world st))) (stats st) (past st)
             (EvClick x y :: trace st)).
Proof.
  unfold click, bind, emit, ask. simpl.
  destruct (drv_click E x y (world st)). reflexivity.
Qed.

Lemma wait_run seconds (st : State W) :
  (completed <- wait E seconds ;; if completed then ret true else ret false) st
  = (fst (time_sleep E seconds (world st)),
     mkState (snd (time_sleep E seconds (world st))) (stats st) (past st)
             (EvSleep seconds :: trace st)).
Proof.
  unfold wait, bind, emit, ask. simpl.
  destruct (time_sleep E seconds (world st)) as [[|] w]; reflexivity.
Qed.

(** The dispatcher makes the call its plan names, and no other: with no
    plan it returns [false] in the state it was called in; with a plan it
    returns the flag of that one driver call, whose event it leaves in the
    trace; the tracker is not touched. *)
Lemma dispatch_follows_plan step pc (st : State W) :
  dispatch E dc step pc st
  = match plan dc step pc with
    | None => (false, st)
    | Some e =>
        (fst (driver_reply E e (world st)),
         mkState (snd (driver_reply E e (world st))) (stats st) (past st)
                 (e :: trace st))
    end.
Proof.
  unfold dispatch, plan.
  destruct (Py.contains "type" (Py.lower step) || Py.contains "input" (Py.lower step)
            || Py.contains "enter" (Py.lower step)).
  - destruct (_extract_text step) as [text |]; [ | reflexivity ].
    destruct (Py.truthy text); [ apply type_text_run | reflexivity ].
  - destruct (Py.contains "scroll" (Py.lower step) || Py.contains "swipe" (Py.lower step)).
    { unfold scroll.
      destruct (Py.contains "up" (Py.lower step)); [ apply swipe_call_run | ].
      destruct (Py.contains "left" (Py.lower step)); [ apply swipe_call_run | ].
      destruct (Py.contains "right" (Py.lower step)); apply swipe_call_run. }
    destruct (Py.contains "press" (Py.lower step) || Py.contains "back" (Py.lower step)).
    { destruct (Py.contains "back" (Py.lower step)); [ apply press_key_run | ].
      destruct (Py.contains "home" (Py.lower step)); [ apply press_key_run | ].
      destruct (Py.contains "enter" (Py.lower step));
        [ apply press_key_run | reflexivity ]. }
    destruct (Py.contains "wait" (Py.lower step)); [ apply wait_run | ].
    destruct pc as [[x y] |]; [ apply click_run | reflexivity ].
Qed.

Lemma perform_action_follows_plan step pc (st : State W) :
  perform_action E dc step pc st
  = match plan dc step pc with
    | None =>
        (false,
         mkState (world st) (stats st) (past st)
                 (EvPerformAction step pc :: trace st))
    | Some e =>
        (fst (driver_reply E e (world st)),
         mkState (snd (driver_reply E e (world st))) (stats st) (past st)
                 (e :: EvPerformAction step pc :: trace st))
    end.
Proof.
  unfold perform_action.
  rewrite (bind_run (emit (EvPerformAction step pc)) _ st tt
             (mkState (world st) (stats st) (past st)
                      (EvPerformAction step pc :: trace st)) eq_refl).
  rewrite dispatch_follows_plan. reflexivity.
Qed.

Lemma plan_primitive step pc e :
  plan dc step pc = Some e -> is_primitive e = true.
Proof.
  unfold plan.
  repeat match goal with
         | |- context [if ?b then _ else _] => destruct b
         | |- context [match ?x with _ => _ end] => destruct x
         end;
    intro H; inversion H; reflexivity.
Qed.

(** X1.  A call of [perform_action] makes at most one call of a primitive
    (tap, typing, swipe, key press, wait); when it makes none it returns
    [False]; and it never touches the tracker. *)
Theorem perform_action_at_most_one_primitive step pc (st : State W) :
  let r := perform_action E dc step pc st in
  (primitive_calls (snd r) <= primitive_calls st + 1)%nat /\
  (primitive_calls (snd r) = primitive_calls st -> fst r = false) /\
  stats (snd r) = stats st /\ past (snd r) = past st.
Proof.
  intro r. unfold r. rewrite perform_action_follows_plan.
  destruct (plan dc step pc) as [e |] eqn:Hplan.
  - apply plan_primitive in Hplan.
    unfold primitive_calls. simpl. rewrite Hplan. simpl.
    repeat split; [ lia | intro Habs; lia ].
  - unfold primitive_calls. simpl. repeat split. lia.
Qed.

Lemma plan_ignores_coordinates step pc :
  Py.any_in dispatch_keywords (Py.lower step) = true ->
  plan dc step pc = plan dc step None.
Proof.
  unfold Py.any_in, dispatch_keywords, plan. simpl existsb.
  destruct (Py.contains "type" (Py.lower step)); [ reflexivity | ].
  destruct (Py.contains "input" (Py.lower step)); [ reflexivity | ].
  destruct (Py.contains "enter" (Py.lower step)); [ reflexivity | ].
  destruct (Py.contains "scroll" (Py.lower step)); [ reflexivity | ].
  destruct (Py.contains "swipe" (Py.lower step)); [ reflexivity | ].
  destruct (Py.contains "press" (Py.lower step)); [ reflexivity | ].
  destruct (Py.contains "back" (Py.lower step)); [ reflexivity | ].
  destruct (Py.contains "wait" (Py.lower step)); [ reflexivity | ].
  discriminate.
Qed.

(** X2.  The coordinates handed to [perform_action] matter only to the
    default tap: for a step that contains one of the dispatcher's keywords
    the flag returned, the world reached and the primitive called are the
    same with and without coordinates. *)
Theorem coordinates_only_reach_the_tap step pc (st : State W) :
  Py.any_in dispatch_keywords (Py.lower step) = true ->
  let r := perform_action E dc step pc st in
  let r0 := perform_action E dc step None st in
  fst r = fst r0 /\
  world (snd r) = world (snd r0) /\
  filter is_primitive (trace (snd r)) = filter is_primitive (trace (snd r0)).
Proof.
  intros Hkw r r0. unfold r, r0.
  rewrite !perform_action_follows_plan, (plan_ignores_coordinates step pc Hkw).
  destruct (plan dc step None); repeat split.
Qed.

(** X3.  A step whose lowered text contains "back", and none of "type",
    "input", "enter", "scroll", "swipe", presses the back key and does
    nothing else, whatever coordinates it is given: the word may sit inside
    another, as in "feedback". *)
Theorem back_inside_a_step_presses_back step pc (st : State W) :
  Py.any_in ["type"; "input"; "enter"; "scroll"; "swipe"] (Py.lower step) = false ->
  Py.contains "back" (Py.lower step) = true ->
  perform_action E dc step pc st
  = (fst (drv_press E "back" (world st)),
     mkState (snd (drv_press E "back" (world st))) (stats st) (past st)
             (EvPress "back" :: EvPerformAction step pc :: trace st)).
Proof.
  intros Hnone Hback. rewrite perform_action_follows_plan.
  unfold Py.any_in in Hnone. simpl existsb in Hnone. unfold plan.
  destruct (Py.contains "type" (Py.lower step)); [ discriminate | ].
  destruct (Py.contains "input" (Py.lower step)); [ discriminate | ].
  destruct (Py.contains "enter" (Py.lower step)); [ discriminate | ].
  destruct (Py.contains "scroll" (Py.lower step)); [ discriminate | ].
  destruct (Py.contains "swipe" (Py.lower step)); [ discriminate | ].
  rewrite Hback, orb_true_r. reflexivity.
Qed.

Lemma extract_text_needs_keyword keywords step step_lower :
  Py.any_in keywords step_lower = false ->
  extract_text_from keywords step step_lower = None.
Proof.
  unfold Py.any_in.
  induction keywords as [| keyword rest IH]; simpl; [ reflexivity | ].
  intro H. apply orb_false_elim in H. destruct H as [Hk Hrest].
  rewrite Hk. apply IH. exact Hrest.
Qed.

(** X4.  A step that contains "type", "input" or "enter" but none of the
    markers "type ", "input ", "enter ", "text " (each with its space) is
    taken for a typing step with nothing to type: [perform_action] returns
    [False] and calls no primitive. *)
Theorem typing_step_without_text_fails step pc (st : State W) :
  Py.any_in ["type"; "input"; "enter"] (Py.lower step) = true ->
  Py.any_in ["type "; "input "; "enter "; "text "] (Py.lower step) = false ->
  perform_action E dc step pc st
  = (false,
     mkState (world st) (stats st) (past st)
             (EvPerformAction step pc :: trace st)).
Proof.
  intros Hkw Hmarker. rewrite perform_action_follows_plan.
  unfold plan, _extract_text.
  rewrite (extract_text_needs_keyword _ step _ Hmarker).
  unfold Py.any_in in Hkw. simpl existsb in Hkw. rewrite orb_false_r in Hkw.
  rewrite <- orb_assoc, Hkw. reflexivity.
Qed.

(** X5.  On a screen of positive width and height every swipe made by
    [perform_action] starts and ends on the screen. *)
Theorem swipes_stay_on_screen step pc (st : State W) :
  0 < screen_width dc -> 0 < screen_height dc ->
  Forall (swipe_on_screen dc) (trace st) ->
  Forall (swipe_on_screen dc) (trace (snd (perform_action E dc step pc st))).
Proof.
  intros Hw Hh Hbefore. rewrite perform_action_follows_plan.
  assert (Hmarker : swipe_on_screen dc (EvPerformAction step pc)) by exact I.
  destruct (plan dc step pc) as [e |] eqn:Hplan; simpl;
    [ | constructor; assumption ].
  constructor; [ | constructor; assumption ].
  revert Hplan. unfold plan.
  repeat match goal with
         | |- context [if ?b then _ else _] => destruct b
         | |- context [match ?x with _ => _ end] => destruct x
         end;
    intro H; inversion H; subst; simpl; try exact I;
    unfold on_screen; repeat split;
    Z.to_euclidean_division_equations; lia.
Qed.

End DispatchOutcome.

Lemma coordinates_only_reach_the_tap_witness :
  fst (perform_action found_env default_device "type hello" (Some (5, 7)) (fresh 0))
  = fst (perform_action found_env default_device "type hello" None (fresh 0)).
Proof.
  refine (proj1 (coordinates_only_reach_the_tap found_env default_device
                   "type hello" (Some (5, 7)) (fresh 0) _)).
  reflexivity.
Defined.

Lemma back_inside_a_step_presses_back_witness :
  trace (snd (perform_action found_env default_device "Click feedback button"
                             (Some (100, 200)) (fresh 0)))
  = [EvPress "back"; EvPerformAction "Click feedback button" (Some (100, 200))].
Proof.
  rewrite (back_inside_a_step_presses_back found_env default_device
             "Click feedback button" (Some (100, 200)) (fresh 0) eq_refl eq_refl).
  reflexivity.
Defined.

Lemma typing_step_without_text_fails_witness :
  fst (perform_action found_env default_device "Hit ENTER" None (fresh 0)) = false.
Proof.
  rewrite (typing_step_without_text_fails found_env default_device
             "Hit ENTER" None (fresh 0) eq_refl eq_refl).
  reflexivity.
Defined.

Lemma swipes_stay_on_screen_witness :
  Forall (swipe_on_screen default_device)
         (trace (snd (perform_action found_env default_device "swipe left" None
                                     (fresh 0)))).
Proof.
  apply (swipes_stay_on_screen found_env default_device "swipe left" None (fresh 0)).
  - reflexivity.
  - reflexivity.
  - constructor.
Defined.

(** ** The duration of a wait *)






(** [n] copies of the character [c]. *)
Fixpoint replicate (n : nat) (c : ascii) : string :=
  match n with
  | O => EmptyString
  | S k => String c (replicate k c)
  end.

(** The float of a run of digits is the number they spell only up to 2^53;
    above, it is the nearest double, and an infinity once the digits spell
    2^1024 - 2^970 or more, which 309 nines do and 308 do not. *)
Example wait_time_is_rounded :
  _extract_wait_time "wait 9007199254740992" = Num 9007199254740992 /\
  _extract_wait_time "wait 9007199254740993" = Num 9007199254740992 /\
  _extract_wait_time "wait 9007199254740995" = Num 9007199254740996 /\
  _extract_wait_time ("wait " ++ replicate 309 "9") = NonFinite /\
  _extract_wait_time ("wait " ++ replicate 308 "9")
  = Num (inject_Z
           100000000000000001097906362944045541740492309677311846336810682903157585404911491537163328978494688899061249669721172515611590283743140088328307009198146046031271664502933027185697489699588559043338384466165001178426897626212945177628091195786707458122783970171784415105291802893207873272974885715430223118336).
Proof. repeat apply conj; vm_compute; reflexivity. Qed.


Ltac digit_value :=
  match goal with
  | |- context [Py.digit_val ?c] =>
      let v := eval vm_compute in (Py.digit_val c) in
      change (Py.digit_val c) with v
  end.

Lemma digits_from_uint d acc :
  0 <= acc ->
  Py.digits_from acc (DecimalString.NilEmpty.string_of_uint d)
  = Z.of_nat (Nat.of_uint_acc d (Z.to_nat acc)).
Proof.
  revert acc.
  induction d as [| d IH | d IH | d IH | d IH | d IH | d IH | d IH | d IH | d IH | d IH];
    intros acc Hacc;
    cbn [DecimalString.NilEmpty.string_of_uint Py.digits_from Nat.of_uint_acc];
    [ lia | .. ];
    digit_value;
    (rewrite IH by lia); f_equal; f_equal; rewrite Nat.tail_mul_spec; lia.
Qed.

Lemma decimal_value n : Py.int_of_digits (decimal n) = Z.of_nat n.
Proof.
  unfold Py.int_of_digits, decimal. rewrite digits_from_uint by lia.
  change (Nat.of_uint_acc (Nat.to_uint n) (Z.to_nat 0)) with (Nat.of_uint (Nat.to_uint n)).
  rewrite DecimalNat.Unsigned.of_to. reflexivity.
Qed.

Lemma uint_digits d :
  all_chars Py.is_digit (DecimalString.NilEmpty.string_of_uint d) = true.
Proof. induction d; simpl; auto. Qed.

Lemma decimal_not_empty n : Py.truthy (decimal n) = true.
Proof.
  unfold decimal.
  assert (Hn : Nat.to_uint n <> Decimal.Nil).
  { rewrite <- (DecimalNat.Unsigned.of_to n) at 1.
    rewrite DecimalNat.Unsigned.to_of. apply DecimalFacts.unorm_nonnil. }
  destruct (Nat.to_uint n); [ contradiction | reflexivity .. ].
Qed.

Lemma lower_cons c s : Py.lower (String c s) = String (Py.lower_char c) (Py.lower s).
Proof. reflexivity. Qed.

Lemma lower_app a b : Py.lower (a ++ b) = (Py.lower a ++ Py.lower b)%string.
Proof.
  induction a as [| c r IH]; [ reflexivity | ].
  cbn [append]. rewrite !lower_cons, IH. reflexivity.
Qed.

Lemma digit_lower c : Py.is_digit c = true -> Py.lower_char c = c.
Proof. destruct c as [[] [] [] [] [] [] [] []]; intro H; try reflexivity; discriminate H. Qed.

Lemma digit_not_space c : Py.is_digit c = true -> Py.is_space c = false.
Proof. destruct c as [[] [] [] [] [] [] [] []]; intro H; try reflexivity; discriminate H. Qed.

Lemma lower_keeps_non_digit c :
  Py.is_digit c = false -> Py.is_digit (Py.lower_char c) = false.
Proof. destruct c as [[] [] [] [] [] [] [] []]; intro H; try reflexivity; discriminate H. Qed.

Lemma lower_digits s : all_chars Py.is_digit s = true -> Py.lower s = s.
Proof.
  induction s as [| c r IH]; [ reflexivity | ].
  cbn [all_chars]. intro H. apply andb_true_iff in H. destruct H as [Hc Hr].
  rewrite lower_cons, (digit_lower c Hc), (IH Hr). reflexivity.
Qed.

Lemma span_digits ds rest :
  all_chars Py.is_digit ds = true -> no_leading_digit rest ->
  Py.span Py.is_digit (ds ++ rest) = (ds, rest).
Proof.
  intros Hds Hrest. induction ds as [| c r IH].
  - cbn [append]. destruct rest as [| c r]; [ reflexivity | ].
    simpl in Hrest. cbn [Py.span]. rewrite Hrest. reflexivity.
  - cbn [all_chars] in Hds. apply andb_true_iff in Hds. destruct Hds as [Hc Hr].
    cbn [append Py.span]. rewrite Hc, (IH Hr). reflexivity.
Qed.

Lemma span_space_before_digit ds rest :
  all_chars Py.is_digit ds = true -> Py.truthy ds = true ->
  Py.span Py.is_space (ds ++ rest) = (EmptyString, (ds ++ rest)%string).
Proof.
  intros Hds Hne. destruct ds as [| c r]; [ discriminate | ].
  cbn [all_chars] in Hds. apply andb_true_iff in Hds. destruct Hds as [Hc _].
  cbn [append Py.span]. rewrite (digit_not_space c Hc). reflexivity.
Qed.

(** X7.  Writing a natural number n after "wait " and reading the duration
    back gives the float of n, whatever follows it, as long as what follows
    does not begin with another digit; up to 2^53 that float is n itself. *)
Theorem wait_time_round_trip (n : nat) (rest : string) :
  no_leading_digit rest ->
  _extract_wait_time ("wait " ++ decimal n ++ rest)
  = Binary64.of_digits (Z.of_nat n) /\
  (Z.of_nat n <= 2 ^ 53 ->
   _extract_wait_time ("wait " ++ decimal n ++ rest) = Num (inject_Z (Z.of_nat n))).
Proof.
  intro Hrest.
  assert (Hfloat : _extract_wait_time ("wait " ++ decimal n ++ rest)
                   = Binary64.of_digits (Z.of_nat n));
    [ | split; [ exact Hfloat | intro Hn; rewrite Hfloat;
                 apply round_int_small; lia ] ].
  unfold _extract_wait_time.
  pose proof (uint_digits (Nat.to_uint n)) as Hdigits. fold (decimal n) in Hdigits.
  assert (Hlow : Py.lower ("wait " ++ decimal n ++ rest)
                 = ("wait " ++ decimal n ++ Py.lower rest)%string).
  { rewrite !lower_app, (lower_digits _ Hdigits). reflexivity. }
  assert (Hrest' : no_leading_digit (Py.lower rest)).
  { destruct rest as [| c r]; [ exact I | ].
    rewrite lower_cons. simpl in *. apply lower_keeps_non_digit. exact Hrest. }
  rewrite Hlow.
  assert (Hsearch : search_wait ("wait " ++ decimal n ++ Py.lower rest)
                    = Some (decimal n)).
  { cbn [append]. cbn [search_wait].
    unfold match_wait_here. cbn [Py.startswith Ascii.eqb Bool.eqb andb Py.drop].
    cbn [Py.span]. change (Py.is_space " ") with true. cbv iota.
    rewrite (span_space_before_digit _ _ Hdigits (decimal_not_empty n)).
    rewrite (span_digits _ _ Hdigits Hrest').
    rewrite (decimal_not_empty n). reflexivity. }
  rewrite Hsearch, decimal_value. reflexivity.
Qed.

Lemma wait_time_round_trip_witness :
  _extract_wait_time ("wait " ++ decimal 15 ++ " seconds") = Num 15.
Proof.
  refine (proj2 (wait_time_round_trip 15 " seconds" _) _).
  - reflexivity.
  - vm_compute. discriminate.
Defined.

(** ** The retry budget of the vision client *)

Section RetryBudget.

Context {W : Type} (E : Env W).

(** One attempt of [locate]: one image prepared; a request is sent, and
    counted as a point call and as a detection, exactly when the image could
    be prepared; no sleep. *)
Lemma locate_attempt_effect image d (st : State W) :
  exists posts : nat,
    (posts <= 1)%nat /\
    image_preparations (snd (locate_attempt E image d st)) = S (image_preparations st) /\
    point_requests (snd (locate_attempt E image d st)) = (point_requests st + posts)%nat /\
    sleeps (snd (locate_attempt E image d st)) = sleeps st /\
    moondream_point_calls (stats (snd (locate_attempt E image d st)))
    = moondream_point_calls (stats st) + Z.of_nat posts /\
    moondream_detections (stats (snd (locate_attempt E image d st)))
    = moondream_detections (stats st) + Z.of_nat posts.
Proof.
  unfold locate_attempt, bind, emit, ask, tracker, ret. simpl.
  destruct (optimize_image E image (world st)) as [[encoded |] w]; simpl.
  - destruct (post_point E encoded d w) as [reply w']. simpl.
    exists 1%nat. unfold image_preparations, point_requests, sleeps, count_events.
    simpl. repeat split; lia.
  - exists 0%nat. unfold image_preparations, point_requests, sleeps, count_events.
    simpl. repeat split; lia.
Qed.

Lemma pause_effect seconds (st : State W) :
  image_preparations (snd (pause E seconds st)) = image_preparations st /\
  point_requests (snd (pause E seconds st)) = point_requests st /\
  query_requests (snd (pause E seconds st)) = query_requests st /\
  sleeps (snd (pause E seconds st)) = S (sleeps st) /\
  stats (snd (pause E seconds st)) = stats st.
Proof.
  unfold pause, bind, emit, ask, ret. simpl.
  destruct (time_sleep E (Num seconds) (world st)). simpl.
  unfold image_preparations, point_requests, query_requests, sleeps, count_events.
  simpl. repeat split.
Qed.

Lemma locate_from_budget fuel image d retry (st : State W) r final :
  locate_from E fuel image d retry st = (r, final) ->
  exists tries posts : nat,
    (posts <= tries)%nat /\
    (tries <= Z.to_nat (Z.max 1 (4 - retry)))%nat /\
    image_preparations final = (image_preparations st + tries)%nat /\
    point_requests final = (point_requests st + posts)%nat /\
    (sleeps final <= sleeps st + Z.to_nat (3 - retry))%nat /\
    moondream_point_calls (stats final)
    = moondream_point_calls (stats st) + Z.of_nat posts /\
    moondream_detections (stats final)
    = moondream_detections (stats st) + Z.of_nat posts.
Proof.
  revert retry st r final. induction fuel as [| f IH]; intros retry st r final Hrun;
    rewrite locate_from_unfold in Hrun; unfold bind at 1 in Hrun;
    destruct (locate_attempt_effect image d st)
      as (p & Hp & Hprep & Hpost & Hsleep & Hpoint & Hdet);
    destruct (locate_attempt E image d st) as [[found |] s1];
    cbn [fst snd] in *.
  1, 3: unfold ret in Hrun; inversion Hrun; subst;
    exists 1%nat, p; repeat split; try assumption; lia.
  - destruct (retry <? 3) eqn:Hlt.
    + apply Z.ltb_lt in Hlt.
      unfold bind in Hrun. destruct (pause_effect 1 s1) as (Q1 & Q2 & _ & Q4 & Q5).
      destruct (pause E 1 s1) as [u s2]. cbn [fst snd] in *.
      unfold ret in Hrun. inversion Hrun; subst.
      exists 1%nat, p. rewrite Q1, Q2, Q4, Q5. repeat split; try assumption; lia.
    + unfold ret in Hrun. inversion Hrun; subst.
      exists 1%nat, p. repeat split; try assumption; lia.
  - destruct (retry <? 3) eqn:Hlt.
    + apply Z.ltb_lt in Hlt.
      unfold bind in Hrun. destruct (pause_effect 1 s1) as (Q1 & Q2 & _ & Q4 & Q5).
      destruct (pause E 1 s1) as [u s2]. cbn [fst snd] in *.
      destruct (IH (retry + 1) s2 r final Hrun)
        as (t & q & Hq & Ht & R1 & R2 & R3 & R4 & R5).
      exists (S t), (p + q)%nat. rewrite R1, R2, R4, R5, Q1, Q2, Q5, Hprep, Hpost.
      rewrite Hpoint, Hdet.
      repeat split; lia.
    + unfold ret in Hrun. inversion Hrun; subst.
      exists 1%nat, p. repeat split; try assumption; lia.
Qed.

(** X8.  One call of [locate] prepares the image at most three times, sends
    at most three requests to the point endpoint and sleeps at most twice;
    the point-call counter and the detection counter both grow by exactly
    the number of requests sent. *)
Theorem locate_retry_budget image d (st : State W) :
  let final := snd (locate E image d st) in
  (image_preparations final <= image_preparations st + 3)%nat /\
  (point_requests final <= point_requests st + 3)%nat /\
  (sleeps final <= sleeps st + 2)%nat /\
  moondream_point_calls (stats final) - moondream_point_calls (stats st)
  = Z.of_nat (point_requests final - point_requests st) /\
  moondream_detections (stats final) - moondream_detections (stats st)
  = Z.of_nat (point_requests final - point_requests st).
Proof.
  intro final. unfold final, locate.
  rewrite (bind_run (emit (EvLocate image d)) _ st tt
             (mkState (world st) (stats st) (past st)
                      (EvLocate image d :: trace st)) eq_refl).
  destruct (locate_from E 2 image d 1
              (mkState (world st) (stats st) (past st) (EvLocate image d :: trace st)))
    as [r s'] eqn:Hrun.
  destruct (locate_from_budget 2 image d 1 _ r s' Hrun)
    as (t & q & Hq & Ht & R1 & R2 & R3 & R4 & R5).
  change (image_preparations
            (mkState (world st) (stats st) (past st) (EvLocate image d :: trace st)))
    with (image_preparations st) in R1.
  change (point_requests
            (mkState (world st) (stats st) (past st) (EvLocate image d :: trace st)))
    with (point_requests st) in R2.
  change (sleeps
            (mkState (world st) (stats st) (past st) (EvLocate image d :: trace st)))
    with (sleeps st) in R3.
  cbn [stats fst snd] in *.
  rewrite R1, R2, R4, R5.
  change (Z.to_nat (Z.max 1 (4 - 1))) with 3%nat in Ht.
  change (Z.to_nat (3 - 1)) with 2%nat in R3.
  repeat split; lia.
Qed.

Lemma query_attempt_effect image question (st : State W) :
  exists posts : nat,
    (posts <= 1)%nat /\
    query_requests (snd (query_attempt E image question st))
    = (query_requests st + posts)%nat /\
    sleeps (snd (query_attempt E image question st)) = sleeps st /\
    moondream_query_calls (stats (snd (query_attempt E image question st)))
    = moondream_query_calls (stats st) + Z.of_nat posts /\
    moondream_reasoning_calls (stats (snd (query_attempt E image question st)))
    = moondream_reasoning_calls (stats st).
Proof.
  unfold query_attempt, bind, emit, ask, tracker, ret. simpl.
  destruct (optimize_image E image (world st)) as [[encoded |] w]; simpl.
  - destruct (post_query E encoded question w) as [reply w']. simpl.
    exists 1%nat. unfold query_requests, sleeps, count_events.
    simpl. repeat split; lia.
  - exists 0%nat. unfold query_requests, sleeps, count_events.
    simpl. repeat split; lia.
Qed.

Lemma query_from_budget fuel image question retry (st : State W) r final :
  query_from E fuel image question retry st = (r, final) ->
  exists posts : nat,
    (posts <= Z.to_nat (Z.max 1 (4 - retry)))%nat /\
    query_requests final = (query_requests st + posts)%nat /\
    (sleeps final <= sleeps st + Z.to_nat (3 - retry))%nat /\
    moondream_query_calls (stats final)
    = moondream_query_calls (stats st) + Z.of_nat posts /\
    moondream_reasoning_calls (stats final) = moondream_reasoning_calls (stats st).
Proof.
  revert retry st r final. induction fuel as [| f IH]; intros retry st r final Hrun;
    rewrite query_from_unfold in Hrun; unfold bind at 1 in Hrun;
    destruct (query_attempt_effect image question st)
      as (p & Hp & Hpost & Hsleep & Hquery & Hreason);
    destruct (query_attempt E image question st) as [[answer |] s1];
    cbn [fst snd] in *.
  1, 3: unfold ret in Hrun; inversion Hrun; subst;
    exists p; repeat split; try assumption; lia.
  - destruct (retry <? 3) eqn:Hlt.
    + apply Z.ltb_lt in Hlt.
      unfold bind in Hrun. destruct (pause_effect 1 s1) as (_ & _ & Q3 & Q4 & Q5).
      destruct (pause E 1 s1) as [u s2]. cbn [fst snd] in *.
      unfold ret in Hrun. inversion Hrun; subst.
      exists p. rewrite Q3, Q4, Q5. repeat split; try assumption; lia.
    + unfold ret in Hrun. inversion Hrun; subst.
      exists p. repeat split; try assumption; lia.
  - destruct (retry <? 3) eqn:Hlt.
    + apply Z.ltb_lt in Hlt.
      unfold bind in Hrun. destruct (pause_effect 1 s1) as (_ & _ & Q3 & Q4 & Q5).
      destruct (pause E 1 s1) as [u s2]. cbn [fst snd] in *.
      destruct (IH (retry + 1) s2 r final Hrun) as (q & Hq & R1 & R2 & R3 & R4).
      exists (p + q)%nat. rewrite R1, R3, R4, Q3, Q5, Hpost, Hquery, Hreason.
      repeat split; lia.
    + unfold ret in Hrun. inversion Hrun; subst.
      exists p. repeat split; try assumption; lia.
Qed.

(** An answer of [query] is an answer of the query endpoint to the question
    asked. *)
Lemma query_attempt_reply image question (st : State W) answer final :
  query_attempt E image question st = (Some answer, final) ->
  exists encoded w, fst (post_query E encoded question w) = Some answer.
Proof.
  unfold query_attempt, bind, emit, ask, tracker, ret. simpl.
  destruct (optimize_image E image (world st)) as [[encoded |] w]; simpl;
    [ | discriminate ].
  destruct (post_query E encoded question w) as [reply w'] eqn:Hpost.
  intro H. inversion H. subst. exists encoded, w. rewrite Hpost. reflexivity.
Qed.

Lemma query_from_reply fuel image question retry (st : State W) answer final :
  query_from E fuel image question retry st = (Some answer, final) ->
  exists encoded w, fst (post_query E encoded question w) = Some answer.
Proof.
  revert retry st. induction fuel as [| f IH]; intros retry st Hrun;
    rewrite query_from_unfold in Hrun; unfold bind at 1 in Hrun;
    destruct (query_attempt E image question st) as [[a |] s1] eqn:Hattempt.
  1, 3: unfold ret in Hrun; inversion Hrun; subst;
    apply (query_attempt_reply _ _ _ _ _ Hattempt).
  - destruct (retry <? 3); [ | discriminate ].
    unfold bind in Hrun. destruct (pause E 1 s1). discriminate.
  - destruct (retry <? 3); [ | discriminate ].
    unfold bind in Hrun. destruct (pause E 1 s1) as [u s2].
    apply (IH _ _ Hrun).
Qed.

(** The value returned by [get_navigation_suggestion] for a reply of
    [query]. *)
Definition suggestion_of (reply : option string) : option string :=
  match reply with
  | Some answer =>
      if Py.truthy answer
         && Py.any_in ["scroll"; "click"; "press"; "swipe"; "not possible"]
                      (Py.lower (Py.strip answer))
      then Some (Py.lower (Py.strip answer))
      else None
  | None => None
  end.

(** X9.  One call of [get_navigation_suggestion] sends at most three
    requests to the query endpoint and sleeps at most twice; the query-call
    counter grows by exactly the number of requests sent, and the
    reasoning-call counter by one when [query] gave a non-empty answer and
    not at all otherwise.  The suggestion returned is decided by the reply
    of [query] to the navigation question: that reply stripped and lowered
    when it is not empty and holds one of the five accepted phrases, and
    nothing otherwise; and the reply is an answer of the query endpoint to
    that question. *)
Theorem suggestion_budget image goal (st : State W) :
  let r := get_navigation_suggestion E image goal st in
  let final := snd r in
  let reply := fst (query E image (navigation_question goal) st) in
  (query_requests final <= query_requests st + 3)%nat /\
  (sleeps final <= sleeps st + 2)%nat /\
  moondream_query_calls (stats final) - moondream_query_calls (stats st)
  = Z.of_nat (query_requests final - query_requests st) /\
  0 <= moondream_reasoning_calls (stats final) - moondream_reasoning_calls (stats st)
    <= 1 /\
  moondream_reasoning_calls (stats final)
  = moondream_reasoning_calls (stats st)
    + match reply with
      | Some answer => if Py.truthy answer then 1 else 0
      | None => 0
      end /\
  fst r = suggestion_of reply /\
  (forall answer,
      reply = Some answer ->
      exists encoded w,
        fst (post_query E encoded (navigation_question goal) w) = Some answer) /\
  (forall a, fst r = Some a ->
             Py.any_in ["scroll"; "click"; "press"; "swipe"; "not possible"] a = true /\
             exists answer, reply = Some answer /\ a = Py.lower (Py.strip answer)).
Proof.
  intros r final reply. unfold final, r, reply.
  destruct (get_navigation_suggestion E image goal st) as [res fin] eqn:Hget.
  cbn [fst snd].
  unfold get_navigation_suggestion, bind in Hget. unfold query in *.
  destruct (query_from E 2 image (navigation_question goal) 1 st)
    as [answer s1] eqn:Hrun.
  cbn [fst].
  destruct (query_from_budget 2 image _ 1 st answer s1 Hrun)
    as (q & Hq & R1 & R2 & R3 & R4).
  change (Z.to_nat (Z.max 1 (4 - 1))) with 3%nat in Hq.
  change (Z.to_nat (3 - 1)) with 2%nat in R2.
  assert (Hreply : forall a, answer = Some a ->
            exists encoded w,
              fst (post_query E encoded (navigation_question goal) w) = Some a).
  { intros a ->. apply (query_from_reply _ _ _ _ _ _ _ Hrun). }
  assert (Hres : res = suggestion_of answer /\
                 (fin = s1 /\
                  match answer with
                  | Some a => Py.truthy a = false
                  | None => True
                  end
                  \/
                  fin = mkState (world s1) (Stats.record_reasoning_call (stats s1))
                                (stats s1 :: past s1) (trace s1) /\
                  exists a, answer = Some a /\ Py.truthy a = true)).
  { unfold suggestion_of.
    destruct answer as [a |]; [ | inversion Hget; auto ].
    destruct (Py.truthy a) eqn:Ha; [ | inversion Hget; auto ].
    unfold tracker in Hget. cbn [andb].
    destruct (Py.any_in _ (Py.lower (Py.strip a)));
      inversion Hget; subst;
      (split; [ reflexivity | right ]);
      (split; [ reflexivity | exists a; split; [ reflexivity | exact Ha ] ]). }
  destruct Hres as [Hval Hfin].
  assert (Hsome : forall a0, res = Some a0 ->
            Py.any_in ["scroll"; "click"; "press"; "swipe"; "not possible"] a0 = true /\
            exists a, answer = Some a /\ a0 = Py.lower (Py.strip a)).
  { intros a0 Ha0. rewrite Hval in Ha0. unfold suggestion_of in Ha0.
    destruct answer as [a |]; [ | discriminate ].
    destruct (Py.truthy a); [ | discriminate ]. cbn [andb] in Ha0.
    destruct (Py.any_in _ (Py.lower (Py.strip a))) eqn:Hany; [ | discriminate ].
    inversion Ha0. subst a0. split; [ exact Hany | exists a; split; reflexivity ]. }
  destruct Hfin as [[Hfin Hempty] | [Hfin (a & Ha & Htruthy)]]; subst fin;
    unfold query_requests, sleeps, count_events in *; cbn [trace stats] in *;
    rewrite R1; simpl moondream_query_calls; simpl moondream_reasoning_calls;
    rewrite R3, R4.
  - repeat split; try lia; try assumption; try (apply Hsome; assumption).
    destruct answer as [a |]; [ rewrite Hempty | ]; lia.
  - subst answer. rewrite Htruthy.
    repeat split; try lia; try assumption; try (apply Hsome; assumption).
Qed.

End RetryBudget.

(** ** Edges of the orchestrator *)

Section AgentEdges.

Context {W : Type} (E : Env W) (self : VisionAgent).

(** X10.  With a budget of one attempt the intelligent location is the
    basic one: one call of [locate] and no request for a suggestion; with a
    budget of zero or less it returns nothing and makes no call at all. *)
Theorem single_attempt_is_basic_locate step (st : State W) :
  _intelligent_locate E self step 1 st = _basic_locate E self step st /\
  (forall max_retries,
      max_retries <= 0 ->
      _intelligent_locate E self step max_retries st = (None, st)).
Proof.
  split.
  - unfold _intelligent_locate, _basic_locate.
    change (range 1) with [0]. rewrite locate_loop_cons.
    destruct (locate E (screenshot_path self) step st) as [[c |] s1]; reflexivity.
  - intros max_retries Hle. unfold _intelligent_locate, range.
    replace (Z.to_nat max_retries) with O by lia. reflexivity.
Qed.

Lemma plan_without_keyword dc step :
  Py.any_in dispatch_keywords (Py.lower step) = false ->
  plan dc step None = None.
Proof.
  unfold Py.any_in, dispatch_keywords, plan. simpl existsb.
  destruct (Py.contains "type" (Py.lower step)); [ discriminate | ].
  destruct (Py.contains "input" (Py.lower step)); [ discriminate | ].
  destruct (Py.contains "enter" (Py.lower step)); [ discriminate | ].
  destruct (Py.contains "scroll" (Py.lower step)); [ discriminate | ].
  destruct (Py.contains "swipe" (Py.lower step)); [ discriminate | ].
  destruct (Py.contains "press" (Py.lower step)); [ discriminate | ].
  destruct (Py.contains "back" (Py.lower step)); [ discriminate | ].
  destruct (Py.contains "wait" (Py.lower step)); [ discriminate | ].
  reflexivity.
Qed.

(** X11.  A suggested action that holds none of the dispatcher's keywords,
    such as "click settings", cannot be carried out by the navigation
    branch: it is counted as an auto-navigation and handed to
    [perform_action], which returns [False] for want of coordinates; the
    device is not touched and the screen is not captured again. *)
Theorem keywordless_suggestion_is_not_carried_out action (st : State W) :
  Py.any_in dispatch_keywords (Py.lower action) = false ->
  navigate E self action st
  = (tt,
     mkState (world st) (Stats.record_navigation (stats st))
             (stats st :: past st)
             (EvPerformAction action None :: trace st)).
Proof.
  intro Hkw. unfold navigate.
  rewrite (bind_run (tracker Stats.record_navigation) _ st tt
             (mkState (world st) (Stats.record_navigation (stats st))
                      (stats st :: past st) (trace st)) eq_refl).
  unfold bind. rewrite perform_action_follows_plan.
  rewrite (plan_without_keyword (device self) action Hkw). reflexivity.
Qed.

(** [act_and_record] without coordinates, by the plan of the dispatcher. *)
Lemma act_and_record_run step (st : State W) :
  act_and_record E self step None st
  = match plan (device self) step None with
    | None =>
        (false,
         mkState (world st) (Stats.record_action false (stats st))
                 (stats st :: past st)
                 (EvPerformAction step None :: trace st))
    | Some e =>
        (fst (driver_reply E e (world st)),
         mkState (snd (driver_reply E e (world st)))
                 (Stats.record_action (fst (driver_reply E e (world st))) (stats st))
                 (stats st :: past st)
                 (e :: EvPerformAction step None :: trace st))
    end.
Proof.
  unfold act_and_record, bind. rewrite perform_action_follows_plan.
  destruct (plan (device self) step None); reflexivity.
Qed.

Lemma home_is_non_visual step :
  Py.contains "home" (Py.lower step) = true ->
  Py.any_in ["scroll"; "swipe"; "back"; "home"; "wait"] (Py.lower step) = true.
Proof.
  intro H. unfold Py.any_in. simpl existsb. rewrite H.
  rewrite !orb_true_r. reflexivity.
Qed.

(** X12.  A step that contains "home" but none of the dispatcher's
    keywords, such as "go home", is taken for a step that needs no target
    and then finds no branch in the dispatcher: [_execute_step] returns
    [False], with no call of [locate] and no call of a primitive. *)
Theorem home_without_press_fails step (st : State W) :
  Py.contains "home" (Py.lower step) = true ->
  Py.any_in dispatch_keywords (Py.lower step) = false ->
  let r := _execute_step E self step st in
  fst r = false /\
  primitive_calls (snd r) = primitive_calls st /\
  locate_calls (snd r) = locate_calls st.
Proof.
  intros Hhome Hkw r. unfold r. rewrite execute_step_run. cbv zeta.
  destruct (fst (drv_screenshot E (screenshot_path self) (world st))).
  - unfold locate_then_act. rewrite (home_is_non_visual step Hhome).
    rewrite act_and_record_run, (plan_without_keyword _ step Hkw).
    repeat split.
  - repeat split.
Qed.

Lemma primitive_not_vision e : is_primitive e = true -> is_vision e = false.
Proof. destruct e; simpl; intro H; try reflexivity; discriminate. Qed.

Lemma primitive_not_locate e : is_primitive e = true -> is_locate e = false.
Proof. destruct e; simpl; intro H; try reflexivity; discriminate. Qed.

(** X13.  A step that contains "scroll", "swipe", "back", "home" or "wait"
    is executed without the vision service: no call of [locate], no image
    prepared, no request sent, and the three counters of vision calls
    unchanged. *)
Theorem non_visual_step_skips_vision step (st : State W) :
  Py.any_in ["scroll"; "swipe"; "back"; "home"; "wait"] (Py.lower step) = true ->
  let final := snd (_execute_step E self step st) in
  locate_calls final = locate_calls st /\
  vision_calls final = vision_calls st /\
  api_counters (stats final) = api_counters (stats st).
Proof.
  intros Hkw final. unfold final. rewrite execute_step_run. cbv zeta.
  destruct (fst (drv_screenshot E (screenshot_path self) (world st)));
    [ | repeat split ].
  unfold locate_then_act. rewrite Hkw, act_and_record_run.
  destruct (plan (device self) step None) as [e |] eqn:Hplan; [ | repeat split ].
  apply plan_primitive in Hplan.
  unfold locate_calls, vision_calls, count_events. cbn [snd trace stats filter].
  rewrite (primitive_not_vision e Hplan), (primitive_not_locate e Hplan).
  repeat split.
Qed.

End AgentEdges.

Lemma keywordless_suggestion_is_not_carried_out_witness :
  world (snd (navigate click_env default_agent "click settings" (fresh 0))) = 0%nat.
Proof.
  rewrite (keywordless_suggestion_is_not_carried_out click_env default_agent
             "click settings" (fresh 0) eq_refl).
  reflexivity.
Defined.

Lemma home_without_press_fails_witness :
  fst (_execute_step found_env default_agent "Go home" (fresh 0)) = false.
Proof.
  apply (home_without_press_fails found_env default_agent "Go home" (fresh 0));
    reflexivity.
Defined.

Lemma non_visual_step_skips_vision_witness :
  vision_calls (snd (_execute_step found_env default_agent "press back" (fresh 0)))
  = vision_calls (fresh 0).
Proof.
  refine (proj1 (proj2 (non_visual_step_skips_vision found_env default_agent
                          "press back" (fresh 0) _))).
  reflexivity.
Defined.

Lemma single_attempt_is_basic_locate_witness :
  _intelligent_locate found_env default_agent "click search icon" 0 (fresh 0)
  = (None, fresh 0).
Proof.
  apply (proj2 (single_attempt_is_basic_locate found_env default_agent
                  "click search icon" (fresh 0)) 0).
  lia.
Defined.

(** ** Costs and counts of a whole run *)

Section RunTotals.

Context {W : Type} (E : Env W) (self : VisionAgent).

Lemma start_test_effect (st : State W) :
  locate_calls (snd (start_test E st)) = locate_calls st /\
  successful_actions (stats (snd (start_test E st))) = successful_actions (stats st) /\
  failed_actions (stats (snd (start_test E st))) = failed_actions (stats st).
Proof.
  unfold start_test, bind, emit, ask, tracker. simpl.
  destruct (time_time E (world st)). repeat split.
Qed.

Lemma end_test_effect (st : State W) :
  locate_calls (snd (end_test E st)) = locate_calls st /\
  successful_actions (stats (snd (end_test E st))) = successful_actions (stats st) /\
  failed_actions (stats (snd (end_test E st))) = failed_actions (stats st).
Proof.
  unfold end_test, bind, emit, ask, tracker. simpl.
  destruct (time_time E (world st)). repeat split.
Qed.

(** The result of [run_test_case] for any test case, given what its loop
    returns. *)
Lemma run_test_case_any test_json (st : State W) completed failed stl :
  steps_loop E self (steps_of test_json) 0 (snd (start_test E st))
  = ((completed, failed), stl) ->
  run_test_case E self test_json st
  = (mkResult (if completed =? Z.of_nat (List.length (steps_of test_json))
               then "success" else "failed")
              completed (Z.of_nat (List.length (steps_of test_json))) failed
              (get_summary (stats (snd (end_test E stl)))),
     snd (end_test E stl)).
Proof.
  intro Hloop. unfold run_test_case. fold (steps_of test_json).
  destruct (start_test E st) as [u s0] eqn:Hstart.
  rewrite (bind_run _ _ st u s0 Hstart).
  simpl in Hloop. rewrite (bind_run _ _ s0 _ stl Hloop).
  destruct (end_test E stl) as [v s1] eqn:Hend.
  rewrite (bind_run _ _ stl v s1 Hend).
  reflexivity.
Qed.

Lemma execute_step_locate_budget step (st : State W) :
  (locate_calls (snd (_execute_step E self step st))
   <= locate_calls st + locate_budget self)%nat.
Proof.
  rewrite execute_step_run. cbv zeta.
  set (s0 := mkState (snd (drv_screenshot E (screenshot_path self) (world st)))
                     (stats st) (past st)
                     (EvScreenshot (screenshot_path self)
                        :: EvExecuteStep step :: trace st)).
  assert (H0 : locate_calls s0 = locate_calls st) by reflexivity.
  destruct (fst (drv_screenshot E (screenshot_path self) (world st)));
    [ | simpl; lia ].
  unfold locate_then_act.
  destruct (Py.any_in _ (Py.lower step)).
  { rewrite (locates_act_and_record E self step None s0). lia. }
  unfold bind.
  assert (Hloc : (locate_calls
                    (snd ((if intelligent_mode self
                           then _intelligent_locate E self step 3
                           else _basic_locate E self step) s0))
                  <= locate_calls s0 + locate_budget self)%nat).
  { unfold locate_budget. destruct (intelligent_mode self).
    - apply (locate_loop_bound E self step 3 (range 3) s0).
    - unfold _basic_locate. rewrite locate_counts_once. lia. }
  destruct ((if intelligent_mode self
             then _intelligent_locate E self step 3
             else _basic_locate E self step) s0) as [coords s1].
  cbn [snd] in Hloc.
  destruct coords as [c |].
  - rewrite (locates_act_and_record E self step (Some c) s1). lia.
  - destruct (negb (Py.contains "type" (Py.lower step))).
    + simpl. unfold locate_calls in *. simpl. lia.
    + rewrite (locates_act_and_record E self step None s1). lia.
Qed.

Lemma steps_loop_locate_budget remaining completed (st : State W) :
  (locate_calls (snd (steps_loop E self remaining completed st))
   <= locate_calls st + locate_budget self * List.length remaining)%nat.
Proof.
  revert completed st.
  induction remaining as [| step rest IH]; intros completed st.
  - simpl. lia.
  - cbn [steps_loop]. unfold bind at 1.
    pose proof (execute_step_locate_budget step st) as Hstep.
    destruct (_execute_step E self step st) as [[|] s1]; cbn [snd] in Hstep.
    + unfold bind.
      pose proof (locates_pause E (1 # 2) s1) as Hp. unfold same_locates in Hp.
      destruct (pause E (1 # 2) s1) as [u s2]. cbn [snd] in Hp.
      specialize (IH (completed + 1) s2). cbn [List.length]. lia.
    + simpl. lia.
Qed.

(** X14.  A run of [run_test_case] calls [locate] at most three times per
    step of the test case in intelligent mode, and at most once per step in
    basic mode. *)
Theorem run_locate_budget test_json (st : State W) :
  (locate_calls (snd (run_test_case E self test_json st))
   <= locate_calls st
      + locate_budget self * List.length (steps_of test_json))%nat.
Proof.
  destruct (steps_loop E self (steps_of test_json) 0 (snd (start_test E st)))
    as [[completed failed] stl] eqn:Hloop.
  rewrite (run_test_case_any test_json st completed failed stl Hloop).
  cbn [snd].
  pose proof (steps_loop_locate_budget (steps_of test_json) 0 (snd (start_test E st)))
    as Hb.
  rewrite Hloop in Hb. cbn [snd] in Hb.
  rewrite (proj1 (end_test_effect stl)).
  rewrite (proj1 (start_test_effect st)) in Hb. exact Hb.
Qed.

(** What one step does to the action counters, by the flag it returns. *)
Lemma execute_step_counters step (st : State W) :
  let r := _execute_step E self step st in
  (fst r = true ->
   successful_actions (stats (snd r)) = successful_actions (stats st) + 1 /\
   failed_actions (stats (snd r)) = failed_actions (stats st)) /\
  (fst r = false ->
   successful_actions (stats (snd r)) = successful_actions (stats st) /\
   failed_actions (stats st) <= failed_actions (stats (snd r))
   <= failed_actions (stats st) + 1).
Proof.
  intro r. unfold r.
  destruct (fst (drv_screenshot E (screenshot_path self) (world st))) eqn:Hshot.
  - pose proof (captured_step_records_once E self step st Hshot) as Hrec.
    unfold action_counters in Hrec.
    destruct (_execute_step E self step st) as [flag s1]. cbn [fst snd] in *.
    inversion Hrec as [[H1 H2 H3]].
    split; intro Hflag; subst flag; simpl in *; lia.
  - rewrite execute_step_run, Hshot. cbn [fst snd stats].
    split; intro Hflag; [ discriminate | lia ].
Qed.

Lemma steps_loop_counters remaining completed (st : State W) c f final :
  steps_loop E self remaining completed st = ((c, f), final) ->
  successful_actions (stats final)
  = successful_actions (stats st) + (c - completed) /\
  failed_actions (stats st) <= failed_actions (stats final)
  <= failed_actions (stats st) + 1 /\
  (f = None -> failed_actions (stats final) = failed_actions (stats st)).
Proof.
  revert completed st.
  induction remaining as [| step rest IH]; intros completed st Hrun.
  - simpl in Hrun. inversion Hrun; subst. repeat split; lia.
  - cbn [steps_loop] in Hrun. unfold bind at 1 in Hrun.
    destruct (execute_step_counters step st) as [Htrue Hfalse].
    destruct (_execute_step E self step st) as [[|] s1]; cbn [fst snd] in *.
    + destruct (Htrue eq_refl) as [Hs Hf]. unfold bind in Hrun.
      destruct (pause_effect E (1 # 2) s1) as (_ & _ & _ & _ & Hp).
      destruct (pause E (1 # 2) s1) as [u s2]. cbn [snd] in Hp.
      destruct (IH (completed + 1) s2 Hrun) as (I1 & I2 & I3).
      rewrite Hp in *.
      repeat split; try lia. intro Hnone. specialize (I3 Hnone). lia.
    + destruct (Hfalse eq_refl) as [Hs Hf]. unfold ret in Hrun.
      inversion Hrun; subst.
      repeat split; try lia. discriminate.
Qed.

(** X15.  In the statistics of a result the number of successful actions
    has grown by exactly the number of completed steps, and the number of
    failed actions by one at most, and by none when no step failed. *)
Theorem run_counts_completed_steps test_json (st : State W) :
  let result := fst (run_test_case E self test_json st) in
  actions_successful (statistics result)
  = successful_actions (stats st) + completed_steps result /\
  failed_actions (stats st) <= actions_failed (statistics result)
  <= failed_actions (stats st) + 1 /\
  (failed_step result = None ->
   actions_failed (statistics result) = failed_actions (stats st)).
Proof.
  intro result. unfold result.
  destruct (steps_loop E self (steps_of test_json) 0 (snd (start_test E st)))
    as [[completed failed] stl] eqn:Hloop.
  rewrite (run_test_case_any test_json st completed failed stl Hloop).
  cbn [fst statistics completed_steps failed_step get_summary
       actions_successful actions_failed].
  pose proof (steps_loop_counters _ 0 _ completed failed stl Hloop) as Hc.
  destruct (end_test_effect stl) as (_ & E2 & E3).
  destruct (start_test_effect st) as (_ & S2 & S3).
  rewrite E2, E3. rewrite S2, S3 in Hc.
  destruct Hc as (C1 & C2 & C3). repeat split; try lia. exact C3.
Qed.

End RunTotals.

(** ** The success rate *)

Lemma success_rate_range s :
  sane s -> (0 <= get_success_rate s)%Q /\ (get_success_rate s <= 100)%Q.
Proof.
  intros (Hcons & Hs & Hf). unfold consistent in Hcons. unfold get_success_rate.
  destruct (actions_performed s =? 0) eqn:Hzero.
  - split; discriminate.
  - apply Z.eqb_neq in Hzero.
    assert (Hp : 0 < actions_performed s) by lia.
    assert (Hpq : (0 < inject_Z (actions_performed s))%Q).
    { unfold Qlt. simpl. lia. }
    assert (Hlow : (0 <= inject_Z (successful_actions s)
                         / inject_Z (actions_performed s))%Q).
    { apply Qle_shift_div_l; [ exact Hpq | ].
      rewrite Qmult_0_l. unfold Qle. simpl. lia. }
    assert (Hhigh : (inject_Z (successful_actions s)
                     / inject_Z (actions_performed s) <= 1)%Q).
    { apply Qle_shift_div_r; [ exact Hpq | ].
      rewrite Qmult_1_l. rewrite <- Zle_Qle. lia. }
    split.
    + apply Qmult_le_0_compat; [ exact Hlow | discriminate ].
    + setoid_replace 100%Q with (1 * 100)%Q at 2 by reflexivity.
      apply Qmult_le_compat_r; [ exact Hhigh | discriminate ].
Qed.

Section Rate.

Context {W : Type} (E : Env W) (self : VisionAgent).

Definition stays_sane (st st' : State W) : Prop :=
  sane (stats st) -> sane (stats st').

Definition keeps_sane (f : StatsTracker -> StatsTracker) : Prop :=
  forall s, sane s -> sane (f s).

Lemma stays_sane_refl st : stays_sane st st.
Proof. intro H. exact H. Qed.

Lemma stays_sane_trans a b c : stays_sane a b -> stays_sane b c -> stays_sane a c.
Proof. unfold stays_sane. auto. Qed.

Lemma stays_sane_emit e : any_event e -> keeps stays_sane (@emit W e).
Proof. intros _ st H. exact H. Qed.

Lemma stays_sane_ask A (op : W -> A * W) : keeps stays_sane (ask op).
Proof. intros st H. unfold ask. destruct (op (world st)). exact H. Qed.

Lemma stays_sane_tracker f : keeps_sane f -> keeps stays_sane (@tracker W f).
Proof. intros Hf st H. apply Hf. exact H. Qed.

Lemma keeps_sane_untouched f :
  (forall s, action_counters (f s) = action_counters s) -> keeps_sane f.
Proof.
  intros Hf s (Hc & Hs & Hfl). specialize (Hf s). unfold action_counters in Hf.
  assert (H1 := f_equal (fun t => fst (fst t)) Hf).
  assert (H2 := f_equal (fun t => snd (fst t)) Hf).
  assert (H3 := f_equal snd Hf). simpl in H1, H2, H3.
  unfold sane, consistent. rewrite H1, H2, H3. auto.
Qed.

Lemma keeps_sane_record_action b : keeps_sane (Stats.record_action b).
Proof.
  intros s (Hc & Hs & Hf). unfold sane, consistent in *.
  destruct b; simpl; repeat split; lia.
Qed.

Lemma sane_run_test_case test_json :
  keeps stays_sane (run_test_case E self test_json).
Proof.
  eapply keeps_run_test_case with (emit_ok := any_event) (tracker_ok := keeps_sane);
    first [ exact stays_sane_refl | exact stays_sane_trans
          | exact stays_sane_emit | exact stays_sane_ask
          | exact stays_sane_tracker | exact keeps_sane_record_action
          | intros; exact I
          | intros; apply keeps_sane_untouched; intro; reflexivity
          | intros; apply keeps_sane_untouched, detection_spares_actions ].
Qed.

(** X16.  After a run that starts from consistent, non-negative counters
    the success rate, taken over exact rationals, lies between 0 and 100. *)
Theorem success_rate_is_a_percentage test_json (st : State W) :
  sane (stats st) ->
  let final := snd (run_test_case E self test_json st) in
  (0 <= get_success_rate (stats final))%Q /\
  (get_success_rate (stats final) <= 100)%Q.
Proof.
  intros Hsane final. apply success_rate_range.
  apply (sane_run_test_case test_json st Hsane).
Qed.

End Rate.

Lemma success_rate_is_a_percentage_witness :
  let test := mkTest None (Some ["scroll down"; "click nonexistent button"]) in
  let final := snd (run_test_case hopeless_env default_agent test (fresh 0)) in
  (0 <= get_success_rate (stats final))%Q /\
  (get_success_rate (stats final) <= 100)%Q.
Proof.
  apply (success_rate_is_a_percentage hopeless_env default_agent).
  unfold sane, consistent. simpl. repeat split; lia.
Defined.

(** ** The shape of a result *)

Section ResultShape.

Context {W : Type} (E : Env W) (self : VisionAgent).

Lemma steps_loop_shape remaining completed (st : State W) c f final :
  steps_loop E self remaining completed st = ((c, f), final) ->
  completed <= c <= completed + Z.of_nat (List.length remaining) /\
  f = nth_error remaining (Z.to_nat (c - completed)).
Proof.
  revert completed st.
  induction remaining as [| step rest IH]; intros completed st Hrun.
  - simpl in Hrun. inversion Hrun; subst. rewrite Z.sub_diag. simpl.
    split; [ lia | reflexivity ].
  - cbn [steps_loop] in Hrun. unfold bind at 1 in Hrun.
    destruct (_execute_step E self step st) as [[|] s1].
    + unfold bind in Hrun. destruct (pause E (1 # 2) s1) as [u s2].
      destruct (IH (completed + 1) s2 Hrun) as [Hrange Hnth].
      cbn [List.length]. split; [ lia | ].
      replace (Z.to_nat (c - completed)) with (S (Z.to_nat (c - (completed + 1))))
        by lia.
      exact Hnth.
    + unfold ret in Hrun. inversion Hrun; subst. rewrite Z.sub_diag.
      cbn [List.length]. split; [ lia | reflexivity ].
Qed.

(** X17.  In every result of [run_test_case] the number of completed steps
    lies between 0 and the total, the total is the length of the step list,
    the failed step is the step at the position of the first step not
    completed (none when all are completed), and the status is "success"
    exactly when there is no failed step. *)
Theorem result_is_well_formed test_json (st : State W) :
  let result := fst (run_test_case E self test_json st) in
  0 <= completed_steps result <= total_steps result /\
  total_steps result = Z.of_nat (List.length (steps_of test_json)) /\
  failed_step result
  = nth_error (steps_of test_json) (Z.to_nat (completed_steps result)) /\
  (status result = "success" <-> failed_step result = None) /\
  (status result = "success" \/ status result = "failed").
Proof.
  intro result. unfold result.
  destruct (steps_loop E self (steps_of test_json) 0 (snd (start_test E st)))
    as [[completed failed] stl] eqn:Hloop.
  rewrite (run_test_case_any E self test_json st completed failed stl Hloop).
  cbn [fst status completed_steps total_steps failed_step].
  destruct (steps_loop_shape _ 0 _ completed failed stl Hloop) as [Hrange Hnth].
  rewrite Z.sub_0_r in Hnth.
  split; [ lia | ]. split; [ reflexivity | ]. split; [ exact Hnth | ].
  destruct (completed =? Z.of_nat (List.length (steps_of test_json))) eqn:Heq.
  - apply Z.eqb_eq in Heq. split; [ | left; reflexivity ].
    split; [ intros _ | reflexivity ].
    rewrite Hnth. apply nth_error_None. lia.
  - apply Z.eqb_neq in Heq. split; [ | right; reflexivity ].
    split; [ discriminate | ].
    intro Hnone. exfalso. rewrite Hnth in Hnone.
    apply nth_error_None in Hnone. lia.
Qed.

End ResultShape.

(** ** Typing what was written *)

Lemma replace_absent old new s :
  Py.contains old s = false -> Py.replace old new s = s.
Proof.
  unfold Py.replace. induction s as [| c r IH]; [ reflexivity | ].
  intro H. unfold Py.contains in H; fold Py.contains in H.
  apply orb_false_elim in H.
  destruct H as [Hhere Hlater].
  cbn [Py.replace_from]. rewrite Hhere, (IH Hlater). reflexivity.
Qed.

Lemma contains_at_start sub s :
  Py.startswith sub s = true -> Py.contains sub s = true.
Proof.
  intro H. destruct s; unfold Py.contains; fold Py.contains; rewrite H; reflexivity.
Qed.

Lemma find_at_start sub s :
  Py.startswith sub s = true -> Py.find sub s = Some O.
Proof.
  intro H. destruct s; unfold Py.find; fold Py.find; rewrite H; reflexivity.
Qed.

(** X18.  Writing a text after "type " and extracting it gives the text
    back, letter case included, when the text has no white space at either
    end and holds neither " and press enter" nor " and send". *)
Theorem typed_text_round_trip (text : string) :
  Py.strip text = text ->
  Py.contains " and press enter" text = false ->
  Py.contains " and send" text = false ->
  _extract_text ("type " ++ text) = Some text.
Proof.
  intros Hstrip Henter Hsend.
  unfold _extract_text. cbn [extract_text_from].
  assert (Hlow : Py.lower ("type " ++ text) = ("type " ++ Py.lower text)%string).
  { rewrite lower_app. reflexivity. }
  rewrite Hlow.
  assert (Hstart : Py.startswith "type " ("type " ++ Py.lower text) = true)
    by reflexivity.
  rewrite (contains_at_start _ _ Hstart), (find_at_start _ _ Hstart).
  change (Py.drop (0 + String.length "type ") ("type " ++ text)) with text.
  rewrite Hstrip, (replace_absent _ _ _ Henter), (replace_absent _ _ _ Hsend), Hstrip.
  reflexivity.
Qed.

Lemma typed_text_round_trip_witness :
  _extract_text ("type " ++ "Hello World") = Some "Hello World".
Proof.
  apply (typed_text_round_trip "Hello World"); reflexivity.
Defined.

(** ** Requests made by the auto-navigation loop *)

Section LoopRequests.

Context {W : Type} (E : Env W) (self : VisionAgent).

Lemma query_attempt_points image question (st : State W) :
  point_requests (snd (query_attempt E image question st)) = point_requests st /\
  auto_navigations (stats (snd (query_attempt E image question st)))
  = auto_navigations (stats st).
Proof.
  unfold query_attempt, bind, emit, ask, tracker, ret. simpl.
  destruct (optimize_image E image (world st)) as [[encoded |] w]; simpl.
  - destruct (post_query E encoded question w). split; reflexivity.
  - split; reflexivity.
Qed.

Lemma query_from_points fuel image question retry (st : State W) r final :
  query_from E fuel image question retry st = (r, final) ->
  point_requests final = point_requests st /\
  auto_navigations (stats final) = auto_navigations (stats st).
Proof.
  revert retry st. induction fuel as [| f IH]; intros retry st Hrun;
    rewrite query_from_unfold in Hrun; unfold bind at 1 in Hrun;
    destruct (query_attempt_points image question st) as [Hq Hn];
    destruct (query_attempt E image question st) as [[answer |] s1];
    cbn [snd] in *.
  1, 3: unfold ret in Hrun; inversion Hrun; subst; split; assumption.
  - destruct (retry <? 3).
    + unfold bind in Hrun. destruct (pause_effect E 1 s1) as (_ & Q2 & _ & _ & Q5).
      destruct (pause E 1 s1) as [u s2]. cbn [snd] in *.
      unfold ret in Hrun. inversion Hrun; subst. rewrite Q2, Q5. split; assumption.
    + unfold ret in Hrun. inversion Hrun; subst. split; assumption.
  - destruct (retry <? 3).
    + unfold bind in Hrun. destruct (pause_effect E 1 s1) as (_ & Q2 & _ & _ & Q5).
      destruct (pause E 1 s1) as [u s2]. cbn [snd] in *.
      destruct (IH (retry + 1) s2 Hrun) as [I1 I2]. rewrite I1, I2, Q2, Q5.
      split; assumption.
    + unfold ret in Hrun. inversion Hrun; subst. split; assumption.
Qed.

(** A request for a suggestion: up to three query requests, no point
    request, no navigation counted. *)
Lemma suggestion_effect image goal (st : State W) :
  (query_requests (snd (get_navigation_suggestion E image goal st))
   <= query_requests st + 3)%nat /\
  point_requests (snd (get_navigation_suggestion E image goal st))
  = point_requests st /\
  auto_navigations (stats (snd (get_navigation_suggestion E image goal st)))
  = auto_navigations (stats st).
Proof.
  destruct (get_navigation_suggestion E image goal st) as [res fin] eqn:Hget.
  cbn [snd].
  unfold get_navigation_suggestion, query, bind in Hget.
  destruct (query_from E 2 image (navigation_question goal) 1 st)
    as [answer s1] eqn:Hrun.
  destruct (query_from_points 2 image _ 1 st answer s1 Hrun) as [Hp Hn].
  destruct (query_from_budget E 2 image _ 1 st answer s1 Hrun)
    as (q & Hq & R1 & _).
  change (Z.to_nat (Z.max 1 (4 - 1))) with 3%nat in Hq.
  assert (Hbase : (query_requests s1 <= query_requests st + 3)%nat) by lia.
  assert (Hkeep : fin = s1 \/
                  fin = mkState (world s1) (Stats.record_reasoning_call (stats s1))
                                (stats s1 :: past s1) (trace s1)).
  { destruct answer as [a |]; [ | inversion Hget; auto ].
    destruct (Py.truthy a); [ | inversion Hget; auto ].
    unfold tracker in Hget.
    destruct (Py.any_in _ (Py.lower (Py.strip a))); inversion Hget; auto. }
  destruct Hkeep as [Hfin | Hfin]; subst fin; auto.
Qed.

Lemma perform_action_requests dc step pc (st : State W) :
  query_requests (snd (perform_action E dc step pc st)) = query_requests st /\
  point_requests (snd (perform_action E dc step pc st)) = point_requests st /\
  stats (snd (perform_action E dc step pc st)) = stats st.
Proof.
  rewrite perform_action_follows_plan.
  destruct (plan dc step pc) as [e |] eqn:Hplan; [ | repeat split ].
  apply plan_primitive in Hplan.
  assert (Hq : is_post_query e = false) by (destruct e; try reflexivity; discriminate).
  assert (Hp : is_post_point e = false) by (destruct e; try reflexivity; discriminate).
  unfold query_requests, point_requests, count_events. cbn [snd trace stats filter].
  rewrite Hq, Hp. repeat split.
Qed.

Lemma capture_screen_requests path (st : State W) :
  query_requests (snd (capture_screen E path st)) = query_requests st /\
  point_requests (snd (capture_screen E path st)) = point_requests st /\
  stats (snd (capture_screen E path st)) = stats st.
Proof. rewrite capture_screen_run. repeat split. Qed.

(** The navigation branch: one navigation counted, no request to the
    vision service. *)
Lemma navigate_effect action (st : State W) :
  query_requests (snd (navigate E self action st)) = query_requests st /\
  point_requests (snd (navigate E self action st)) = point_requests st /\
  auto_navigations (stats (snd (navigate E self action st)))
  = auto_navigations (stats st) + 1.
Proof.
  destruct (navigate E self action st) as [v fin] eqn:Hnav. cbn [snd].
  unfold navigate in Hnav.
  rewrite (bind_run (tracker Stats.record_navigation) _ st tt
             (mkState (world st) (Stats.record_navigation (stats st))
                      (stats st :: past st) (trace st)) eq_refl) in Hnav.
  unfold bind at 1 in Hnav.
  match type of Hnav with
  | context [perform_action E ?dc ?a ?pc ?s] =>
      destruct (perform_action_requests dc a pc s) as (P1 & P2 & P3);
      destruct (perform_action E dc a pc s) as [executed s2]
  end.
  cbn [snd] in *.
  change (query_requests
            (mkState (world st) (Stats.record_navigation (stats st))
                     (stats st :: past st) (trace st)))
    with (query_requests st) in P1.
  change (point_requests
            (mkState (world st) (Stats.record_navigation (stats st))
                     (stats st :: past st) (trace st)))
    with (point_requests st) in P2.
  cbn [stats] in P3.
  destruct executed.
  - unfold bind in Hnav.
    destruct (pause_effect E 1 s2) as (_ & Q2 & Q3 & _ & Q5).
    destruct (pause E 1 s2) as [u s3]. cbn [snd] in *.
    destruct (capture_screen_requests (screenshot_path self) s3) as (C1 & C2 & C3).
    destruct (capture_screen E (screenshot_path self) s3) as [captured s4].
    cbn [snd] in *. unfold ret in Hnav. inversion Hnav; subst.
    rewrite C1, C2, C3, Q2, Q3, Q5, P1, P2, P3. repeat split.
  - unfold ret in Hnav. inversion Hnav; subst.
    rewrite P1, P2, P3. repeat split.
Qed.

(** Attempts of the loop after which a suggestion may be asked for. *)
Definition suggesting (max_retries : Z) (attempts : list Z) : nat :=
  List.length (filter (fun attempt => attempt <? max_retries - 1) attempts).

Lemma locate_effect image d (st : State W) :
  (point_requests (snd (locate E image d st)) <= point_requests st + 3)%nat /\
  query_requests (snd (locate E image d st)) = query_requests st /\
  auto_navigations (stats (snd (locate E image d st))) = auto_navigations (stats st).
Proof.
  assert (Hattempt : forall s,
             query_requests (snd (locate_attempt E image d s)) = query_requests s /\
             auto_navigations (stats (snd (locate_attempt E image d s)))
             = auto_navigations (stats s)).
  { intro s. unfold locate_attempt, bind, emit, ask, tracker, ret. simpl.
    destruct (optimize_image E image (world s)) as [[encoded |] w]; simpl.
    - destruct (post_point E encoded d w). split; reflexivity.
    - split; reflexivity. }
  assert (Hfrom : forall fuel retry s r final,
             locate_from E fuel image d retry s = (r, final) ->
             query_requests final = query_requests s /\
             auto_navigations (stats final) = auto_navigations (stats s)).
  { induction fuel as [| f IH]; intros retry s r final Hrun;
      rewrite locate_from_unfold in Hrun; unfold bind at 1 in Hrun;
      destruct (Hattempt s) as [Hq Hn];
      destruct (locate_attempt E image d s) as [[found |] s1];
      cbn [snd] in *.
    1, 3: unfold ret in Hrun; inversion Hrun; subst; split; assumption.
    - destruct (retry <? 3).
      + unfold bind in Hrun. destruct (pause_effect E 1 s1) as (_ & _ & Q3 & _ & Q5).
        destruct (pause E 1 s1) as [u s2]. cbn [snd] in *.
        unfold ret in Hrun. inversion Hrun; subst. rewrite Q3, Q5. split; assumption.
      + unfold ret in Hrun. inversion Hrun; subst. split; assumption.
    - destruct (retry <? 3).
      + unfold bind in Hrun. destruct (pause_effect E 1 s1) as (_ & _ & Q3 & _ & Q5).
        destruct (pause E 1 s1) as [u s2]. cbn [snd] in *.
        destruct (IH (retry + 1) s2 r final Hrun) as [I1 I2].
        rewrite I1, I2, Q3, Q5. split; assumption.
      + unfold ret in Hrun. inversion Hrun; subst. split; assumption. }
  unfold locate.
  rewrite (bind_run (emit (EvLocate image d)) _ st tt
             (mkState (world st) (stats st) (past st)
                      (EvLocate image d :: trace st)) eq_refl).
  destruct (locate_from E 2 image d 1
              (mkState (world st) (stats st) (past st) (EvLocate image d :: trace st)))
    as [r s'] eqn:Hrun.
  destruct (Hfrom 2%nat 1 _ r s' Hrun) as [Hq Hn].
  destruct (locate_from_budget E 2 image d 1 _ r s' Hrun)
    as (t & q & Hle & Ht & _ & R2 & _).
  change (Z.to_nat (Z.max 1 (4 - 1))) with 3%nat in Ht.
  cbn [snd] in *. split; [ | split; assumption ].
  change (point_requests
            (mkState (world st) (stats st) (past st) (EvLocate image d :: trace st)))
    with (point_requests st) in R2.
  lia.
Qed.

Lemma locate_loop_requests step max_retries attempts (st : State W) :
  let final := snd (locate_loop E self step max_retries attempts st) in
  (point_requests final <= point_requests st + 3 * List.length attempts)%nat /\
  (query_requests final
   <= query_requests st + 3 * suggesting max_retries attempts)%nat /\
  auto_navigations (stats st) <= auto_navigations (stats final)
  <= auto_navigations (stats st) + Z.of_nat (suggesting max_retries attempts).
Proof.
  revert st. induction attempts as [| attempt rest IH]; intro st; cbv zeta.
  - simpl. repeat split; lia.
  - rewrite locate_loop_cons.
    destruct (locate_effect (screenshot_path self) step st) as (L1 & L2 & L3).
    destruct (locate E (screenshot_path self) step st) as [[c |] s1]; cbn [snd] in *.
    + repeat split; cbn [List.length]; lia.
    + unfold suggesting. cbn [filter List.length].
      destruct (attempt <? max_retries - 1).
      * destruct (suggestion_effect (screenshot_path self) step s1) as (G1 & G2 & G3).
        destruct (get_navigation_suggestion E (screenshot_path self) step s1)
          as [[a |] s2]; cbn [snd List.length] in *;
          [ | repeat split; lia ].
        destruct (Py.truthy a && negb (Py.contains "not possible" a));
          [ | cbn [snd]; repeat split; lia ].
        destruct (navigate_effect a s2) as (N1 & N2 & N3).
        specialize (IH (snd (navigate E self a s2))). cbv zeta in IH.
        unfold suggesting in IH. destruct IH as (I1 & I2 & I3).
        repeat split; lia.
      * specialize (IH s1). cbv zeta in IH. unfold suggesting in IH.
        destruct IH as (I1 & I2 & I3). repeat split; lia.
Qed.

Lemma suggesting_from max_retries start count :
  (suggesting max_retries (map Z.of_nat (seq start count))
   <= Z.to_nat (max_retries - 1) - start)%nat.
Proof.
  revert start. induction count as [| k IH]; intro start.
  - unfold suggesting. simpl. lia.
  - unfold suggesting in *. cbn [seq map filter].
    specialize (IH (S start)).
    destruct (Z.of_nat start <? max_retries - 1) eqn:Hlt; cbn [List.length].
    + apply Z.ltb_lt in Hlt. lia.
    + lia.
Qed.

(** X19.  One call of [_intelligent_locate] sends at most 3 * max_retries
    requests to the point endpoint and at most 3 * (max_retries - 1)
    requests to the query endpoint, and counts at most max_retries - 1
    auto-navigations. *)
Theorem intelligent_locate_request_budget step max_retries (st : State W) :
  let final := snd (_intelligent_locate E self step max_retries st) in
  (point_requests final <= point_requests st + 3 * Z.to_nat max_retries)%nat /\
  (query_requests final
   <= query_requests st + 3 * Z.to_nat (max_retries - 1))%nat /\
  auto_navigations (stats st) <= auto_navigations (stats final)
  <= auto_navigations (stats st) + Z.max 0 (max_retries - 1).
Proof.
  intro final. unfold final, _intelligent_locate.
  destruct (locate_loop_requests step max_retries (range max_retries) st)
    as (H1 & H2 & H3).
  pose proof (suggesting_from max_retries 0 (Z.to_nat max_retries)) as Hs.
  fold (range max_retries) in Hs.
  unfold range in H1 at 2. rewrite length_map, length_seq in H1.
  repeat split; lia.
Qed.

End LoopRequests.

(** ** Queries outside a run *)

Section AdHoc.

Context {W : Type} (E : Env W) (self : VisionAgent).

Lemma query_effect image question (st : State W) :
  let final := snd (query E image question st) in
  (query_requests final <= query_requests st + 3)%nat /\
  point_requests final = point_requests st /\
  locate_calls final = locate_calls st /\
  action_counters (stats final) = action_counters (stats st) /\
  moondream_reasoning_calls (stats final) = moondream_reasoning_calls (stats st).
Proof.
  intro final. unfold final, query.
  destruct (query_from E 2 image question 1 st) as [answer s1] eqn:Hrun.
  cbn [snd].
  destruct (query_from_budget E 2 image question 1 st answer s1 Hrun)
    as (q & Hq & R1 & _ & _ & R4).
  destruct (query_from_points E 2 image question 1 st answer s1 Hrun) as [Hp _].
  change (Z.to_nat (Z.max 1 (4 - 1))) with 3%nat in Hq.
  assert (Hloc : same_locates st (snd (query_from E 2 image question 1 st))).
  { eapply keeps_query_from with (emit_ok := not_locate) (tracker_ok := any_tracker);
      first [ exact same_locates_refl | exact same_locates_trans
            | exact same_locates_emit | exact same_locates_ask
            | exact same_locates_tracker | exact external_not_locate
            | exact I ]. }
  assert (Hact : same_actions st (snd (query_from E 2 image question 1 st))).
  { eapply keeps_query_from with (emit_ok := any_event) (tracker_ok := spares_actions);
      first [ exact same_actions_refl | exact same_actions_trans
            | exact same_actions_emit | exact same_actions_ask
            | exact same_actions_tracker
            | intros; exact I | intro s; reflexivity ]. }
  rewrite Hrun in Hloc, Hact. unfold same_locates, same_actions in *.
  cbn [snd] in *. repeat split; try assumption. lia.
Qed.

(** The first thing [query] does is to prepare the image. *)
Lemma query_attempt_begins image question (st : State W) :
  exists later,
    trace (snd (query_attempt E image question st))
    = later ++ EvOptimizeImage image :: trace st.
Proof.
  unfold query_attempt, bind, emit, ask, tracker, ret. simpl.
  destruct (optimize_image E image (world st)) as [[encoded |] w]; simpl.
  - destruct (post_query E encoded question w) as [reply w']. simpl.
    exists [EvPostQuery question]. reflexivity.
  - exists []. reflexivity.
Qed.

Lemma query_begins image question (st : State W) :
  exists later,
    trace (snd (query E image question st))
    = later ++ EvOptimizeImage image :: trace st.
Proof.
  unfold query. rewrite query_from_unfold. unfold bind at 1.
  destruct (query_attempt_begins image question st) as [first Hfirst].
  destruct (query_attempt E image question st) as [reply s1]. cbn [snd] in Hfirst.
  assert (Hrest : forall m : M W (option string),
             keeps (@grows W) m ->
             exists later, trace (snd (m s1))
                           = later ++ EvOptimizeImage image :: trace st).
  { intros m Hm. destruct (Hm s1) as [newer Hnewer].
    exists (newer ++ first). rewrite Hnewer, Hfirst, app_assoc. reflexivity. }
  apply Hrest.
  assert (Hpause : keeps (@grows W) (pause E 1)).
  { eapply keeps_pause with (emit_ok := any_event);
      first [ exact (@grows_refl W) | exact (@grows_trans W)
            | exact (@grows_emit W) | exact (@grows_ask W)
            | intros; exact I ]. }
  assert (Hagain : keeps (@grows W)
                         (query_from E 1 image question (1 + 1))).
  { eapply keeps_query_from with (emit_ok := any_event) (tracker_ok := any_tracker);
      first [ exact (@grows_refl W) | exact (@grows_trans W)
            | exact (@grows_emit W) | exact (@grows_ask W)
            | exact (@grows_tracker W)
            | exact I | intros; exact I ]. }
  destruct reply as [answer |].
  - intro s. apply grows_refl.
  - cbn [Z.ltb Z.compare Pos.compare Pos.compare_cont].
    intro s. unfold bind.
    pose proof (Hpause s) as H1. destruct (pause E 1 s) as [u s2]. cbn [snd] in H1.
    eapply grows_trans; [ exact H1 | apply Hagain ].
Qed.

(** The flag [validate_action] returns for a reply of [query]. *)
Definition validated (reply : option string) : bool :=
  match reply with
  | Some answer => Py.truthy answer && Py.contains "yes" (Py.lower answer)
  | None => false
  end.

(** X20.  [validate_screen] asks the vision service whether or not the
    screenshot could be taken: from the state the capture leaves, whatever
    its flag, it runs [query] on the screenshot path with the validation
    question, so that the image is prepared at least once right after the
    capture, and it returns whether the reply holds "yes".  It sends at most
    three requests to the query endpoint and none to the point endpoint,
    makes no call of [locate], and leaves the action counters and the
    reasoning-call counter as they were. *)
Theorem validate_screen_only_queries expectation (st : State W) :
  let r := validate_screen E self expectation st in
  let final := snd r in
  let path := screenshot_path self in
  let captured := mkState (snd (drv_screenshot E path (world st)))
                          (stats st) (past st)
                          (EvScreenshot path :: trace st) in
  let asked := query E path (validation_question expectation) captured in
  (query_requests final <= query_requests st + 3)%nat /\
  point_requests final = point_requests st /\
  locate_calls final = locate_calls st /\
  action_counters (stats final) = action_counters (stats st) /\
  moondream_reasoning_calls (stats final) = moondream_reasoning_calls (stats st) /\
  final = snd asked /\
  fst r = validated (fst asked) /\
  (exists later,
      trace final = later ++ EvOptimizeImage path :: EvScreenshot path :: trace st) /\
  (image_preparations st < image_preparations final)%nat.
Proof.
  intros r final path captured asked.
  assert (Hrun : r = (validated (fst asked), snd asked)).
  { unfold r, validate_screen.
    rewrite (bind_run _ _ st _ _ (capture_screen_run E (screenshot_path self) st)).
    fold path. fold captured.
    unfold validate_action, bind. fold asked.
    destruct asked as [[a |] s1]; [ | reflexivity ].
    unfold validated. cbn [fst snd]. destruct (Py.truthy a); reflexivity. }
  unfold final. rewrite Hrun. cbn [fst snd].
  pose proof (query_effect path (validation_question expectation) captured) as Hq.
  cbv zeta in Hq. fold asked in Hq.
  destruct (query_begins path (validation_question expectation) captured)
    as [later Hlater].
  fold asked in Hlater.
  destruct Hq as (Q1 & Q2 & Q3 & Q4 & Q5).
  repeat split; try assumption.
  - exists later. exact Hlater.
  - unfold image_preparations, count_events. rewrite Hlater.
    rewrite filter_app, length_app. cbn [trace captured filter is_optimize length].
    lia.
Qed.

End AdHoc.

(** On a device whose screenshot fails the question is still sent. *)
Example validate_screen_asks_without_a_screenshot :
  let r := validate_screen blind_env default_agent "the list is shown" (fresh 0) in
  fst r = false /\
  trace (snd r)
  = [EvPostQuery (validation_question "the list is shown");
     EvOptimizeImage "current_screen.png";
     EvScreenshot "current_screen.png"].
Proof. repeat apply conj; vm_compute; reflexivity. Qed.

(** ** Steps that need no target *)

Section NonVisual.

Context {W : Type} (E : Env W) (self : VisionAgent).

Let non_visual := ["scroll"; "swipe"; "back"; "home"; "wait"].

Lemma start_test_run (st : State W) :
  trace (snd (start_test E st)) = EvTime :: trace st /\
  action_counters (stats (snd (start_test E st))) = action_counters (stats st) /\
  api_counters (stats (snd (start_test E st))) = api_counters (stats st).
Proof.
  unfold start_test, bind, emit, ask, tracker. simpl.
  destruct (time_time E (world st)). repeat split.
Qed.

Lemma end_test_run (st : State W) :
  trace (snd (end_test E st)) = EvTime :: trace st /\
  action_counters (stats (snd (end_test E st))) = action_counters (stats st) /\
  api_counters (stats (snd (end_test E st))) = api_counters (stats st).
Proof.
  unfold end_test, bind, emit, ask, tracker. simpl.
  destruct (time_time E (world st)). repeat split.
Qed.

Lemma pause_run seconds (st : State W) :
  trace (snd (pause E seconds st)) = EvSleep (Num seconds) :: trace st /\
  stats (snd (pause E seconds st)) = stats st.
Proof.
  unfold pause, bind, emit, ask. simpl.
  destruct (time_sleep E (Num seconds) (world st)). repeat split.
Qed.

(** A step with one of the five keywords, once the screen is captured, is
    handed to [perform_action] as it is and without coordinates; when the
    call the dispatcher plans for it succeeds, the step succeeds, and what
    it leaves in the trace is the capture, the dispatch and that call. *)
Lemma direct_step_run step e (st : State W) :
  Py.any_in non_visual (Py.lower step) = true ->
  plan (device self) step None = Some e ->
  fst (drv_screenshot E (screenshot_path self) (world st)) = true ->
  (forall w, fst (driver_reply E e w) = true) ->
  let r := _execute_step E self step st in
  r = (true, snd r) /\
  trace (snd r)
  = e :: EvPerformAction step None :: EvScreenshot (screenshot_path self)
      :: EvExecuteStep step :: trace st /\
  stats (snd r) = Stats.record_action true (stats st).
Proof.
  intros Hkw Hplan Hshot Hok r. unfold r.
  rewrite execute_step_run, Hshot. cbv zeta.
  unfold locate_then_act. fold non_visual. rewrite Hkw.
  rewrite act_and_record_run, Hplan, Hok. repeat split.
Qed.

Hypothesis Hdevice : device_succeeds E.

Lemma swipe_succeeds fx fy tx ty w :
  fst (driver_reply E (EvSwipe fx fy tx ty) w) = true.
Proof. destruct Hdevice as (_ & _ & _ & Hswipe & _). apply Hswipe. Qed.

Lemma finite_sleep_succeeds seconds w :
  fst (driver_reply E (EvSleep (Num seconds)) w) = true.
Proof. destruct Hdevice as (_ & _ & _ & _ & _ & Hsleep). apply Hsleep. Qed.

Lemma screenshot_succeeds path w : fst (drv_screenshot E path w) = true.
Proof. destruct Hdevice as (Hshot & _). apply Hshot. Qed.

(** C8.  With a device on which every operation succeeds, the test case
    "scroll down", "wait 1", "scroll up" ends with status "success" and
    three completed steps, and no call of [locate] is made during the run.
    The three steps are taken as non-visual and dispatched directly: each
    is captured, handed to [perform_action] without coordinates and
    carried out by one primitive (a swipe down the screen, a sleep of one
    second, a swipe up the screen), which is all the run does besides
    reading the clock and pausing between steps; no call reaches the
    vision service, and three successful actions are recorded. *)
Theorem scroll_wait_scroll_succeeds name st :
  let test := mkTest name (Some ["scroll down"; "wait 1"; "scroll up"]) in
  let r := run_test_case E self test st in
  let w := screen_width (device self) in
  let h := screen_height (device self) in
  let shot := EvScreenshot (screenshot_path self) in
  status (fst r) = "success" /\
  completed_steps (fst r) = 3 /\
  failed_step (fst r) = None /\
  locate_calls (snd r) = locate_calls st /\
  vision_calls (snd r) = vision_calls st /\
  trace (snd r)
  = rev [EvTime;
         EvExecuteStep "scroll down"; shot; EvPerformAction "scroll down" None;
         EvSwipe (w / 2) (h * 2 / 3) (w / 2) (h / 3);
         EvSleep (Num (1 # 2));
         EvExecuteStep "wait 1"; shot; EvPerformAction "wait 1" None;
         EvSleep (Num 1);
         EvSleep (Num (1 # 2));
         EvExecuteStep "scroll up"; shot; EvPerformAction "scroll up" None;
         EvSwipe (w / 2) (h / 3) (w / 2) (h * 2 / 3);
         EvSleep (Num (1 # 2));
         EvTime]
    ++ trace st /\
  action_counters (stats (snd r))
  = (actions_performed (stats st) + 3, successful_actions (stats st) + 3,
     failed_actions (stats st)) /\
  api_counters (stats (snd r)) = api_counters (stats st) /\
  statistics (fst r) = get_summary (stats (snd r)).
Proof.
  intros test r w h shot.
  set (begun := snd (start_test E st)).
  set (a1 := snd (_execute_step E self "scroll down" begun)).
  set (p1 := snd (pause E (1 # 2) a1)).
  set (a2 := snd (_execute_step E self "wait 1" p1)).
  set (p2 := snd (pause E (1 # 2) a2)).
  set (a3 := snd (_execute_step E self "scroll up" p2)).
  set (p3 := snd (pause E (1 # 2) a3)).
  destruct (direct_step_run "scroll down"
              (EvSwipe (w / 2) (h * 2 / 3) (w / 2) (h / 3)) begun
              eq_refl eq_refl (screenshot_succeeds _ _) (swipe_succeeds _ _ _ _))
    as (Hrun1 & Htrace1 & Hstats1).
  destruct (direct_step_run "wait 1" (EvSleep (Num 1)) p1
              eq_refl eq_refl (screenshot_succeeds _ _) (finite_sleep_succeeds 1))
    as (Hrun2 & Htrace2 & Hstats2).
  destruct (direct_step_run "scroll up"
              (EvSwipe (w / 2) (h / 3) (w / 2) (h * 2 / 3)) p2
              eq_refl eq_refl (screenshot_succeeds _ _) (swipe_succeeds _ _ _ _))
    as (Hrun3 & Htrace3 & Hstats3).
  fold a1 in Hrun1, Htrace1, Hstats1.
  fold a2 in Hrun2, Htrace2, Hstats2.
  fold a3 in Hrun3, Htrace3, Hstats3.
  assert (Hpass : all_pass E self ["scroll down"; "wait 1"; "scroll up"] begun p3).
  { apply (pass_cons E self _ _ begun a1 p3); [ exact Hrun1 | ].
    apply (pass_cons E self _ _ p1 a2 p3); [ exact Hrun2 | ].
    apply (pass_cons E self _ _ p2 a3 p3); [ exact Hrun3 | ].
    apply pass_nil. }
  destruct (steps_loop_pass E self _ [] 0 _ _ Hpass) as [Hloop _].
  rewrite app_nil_r in Hloop.
  change (steps_loop E self ["scroll down"; "wait 1"; "scroll up"] 0 begun
          = (3, @None string, p3)) in Hloop.
  assert (Htrace :
    trace (snd (end_test E p3))
    = rev [EvTime;
           EvExecuteStep "scroll down"; shot; EvPerformAction "scroll down" None;
           EvSwipe (w / 2) (h * 2 / 3) (w / 2) (h / 3);
           EvSleep (Num (1 # 2));
           EvExecuteStep "wait 1"; shot; EvPerformAction "wait 1" None;
           EvSleep (Num 1);
           EvSleep (Num (1 # 2));
           EvExecuteStep "scroll up"; shot; EvPerformAction "scroll up" None;
           EvSwipe (w / 2) (h / 3) (w / 2) (h * 2 / 3);
           EvSleep (Num (1 # 2));
           EvTime]
      ++ trace st).
  { rewrite (proj1 (end_test_run p3)).
    unfold p3. rewrite (proj1 (pause_run (1 # 2) a3)), Htrace3.
    unfold p2. rewrite (proj1 (pause_run (1 # 2) a2)), Htrace2.
    unfold p1. rewrite (proj1 (pause_run (1 # 2) a1)), Htrace1.
    unfold begun. rewrite (proj1 (start_test_run st)). reflexivity. }
  assert (Hstats :
    action_counters (stats (snd (end_test E p3)))
    = (actions_performed (stats st) + 3, successful_actions (stats st) + 3,
       failed_actions (stats st)) /\
    api_counters (stats (snd (end_test E p3))) = api_counters (stats st)).
  { destruct (end_test_run p3) as (_ & Hact & Hapi). rewrite Hact, Hapi.
    unfold p3. rewrite (proj2 (pause_run (1 # 2) a3)), Hstats3.
    unfold p2. rewrite (proj2 (pause_run (1 # 2) a2)), Hstats2.
    unfold p1. rewrite (proj2 (pause_run (1 # 2) a1)), Hstats1.
    destruct (start_test_run st) as (_ & Hact0 & Hapi0).
    fold begun in Hact0, Hapi0.
    unfold action_counters, api_counters in *. simpl.
    inversion Hact0 as [[Hp Hs Hf]]. inversion Hapi0 as [[Hq Hpt Hre]].
    rewrite Hp, Hs, Hf, Hq, Hpt, Hre.
    split; [ | reflexivity ].
    replace (actions_performed (stats st) + 1 + 1 + 1)
      with (actions_performed (stats st) + 3) by lia.
    replace (successful_actions (stats st) + 1 + 1 + 1)
      with (successful_actions (stats st) + 3) by lia.
    reflexivity. }
  unfold r, test. rewrite (run_test_case_run E self name _ st _ _ _ Hloop).
  cbn [fst snd status completed_steps failed_step statistics].
  split; [ reflexivity | ]. split; [ reflexivity | ]. split; [ reflexivity | ].
  split; [ unfold locate_calls; rewrite Htrace; reflexivity | ].
  split; [ unfold vision_calls, count_events; rewrite Htrace; reflexivity | ].
  split; [ exact Htrace | ].
  split; [ apply Hstats | ]. split; [ apply Hstats | reflexivity ].
Qed.

End NonVisual.

Lemma scroll_wait_scroll_succeeds_witness :
  let test := mkTest None (Some ["scroll down"; "wait 1"; "scroll up"]) in
  let r := run_test_case found_env default_agent test (fresh 0) in
  let shot := EvScreenshot "current_screen.png" in
  status (fst r) = "success" /\
  completed_steps (fst r) = 3 /\
  failed_step (fst r) = None /\
  locate_calls (snd r) = locate_calls (fresh 0) /\
  vision_calls (snd r) = vision_calls (fresh 0) /\
  trace (snd r)
  = rev [EvTime;
         EvExecuteStep "scroll down"; shot; EvPerformAction "scroll down" None;
         EvSwipe 540 1600 540 800;
         EvSleep (Num (1 # 2));
         EvExecuteStep "wait 1"; shot; EvPerformAction "wait 1" None;
         EvSleep (Num 1);
         EvSleep (Num (1 # 2));
         EvExecuteStep "scroll up"; shot; EvPerformAction "scroll up" None;
         EvSwipe 540 800 540 1600;
         EvSleep (Num (1 # 2));
         EvTime] /\
  action_counters (stats (snd r)) = (3, 3, 0) /\
  api_counters (stats (snd r)) = api_counters (stats (fresh 0)) /\
  statistics (fst r) = get_summary (stats (snd r)).
Proof.
  refine (scroll_wait_scroll_succeeds found_env default_agent _ None (fresh 0)).
  repeat split.
Defined.
